(** * data_extractor: the crawl core of [main_final.py]

    A shallow embedding of the orchestration code of the scraper
    (table naming, the two de-duplicating save paths, the Maps link cursor
    and the JustDial batch worker) together with the properties the
    specification states about it. *)

From Stdlib Require Import ZArith NArith List String Ascii Lia Bool.
From Corelib Require Import SpecFloat.
From stdpp Require Import base option list gmap strings.

Local Open Scope Z_scope.

(** ** Python strings

    A Python [str] is a sequence of Unicode code points.  Literals of the
    source are ASCII and are written [py "..."]. *)

Abbreviation pystr := (list N).

Definition py (s : string) : pystr :=
  N_of_ascii <$> list_ascii_of_string s.

(** The case tables of the Unicode database are part of the Python runtime,
    not of the repository; they are a parameter of the model.
    [ToLowerFull c] is the full lower-case mapping of a code point outside
    ASCII; [FinalSigma s i] tells whether the capital sigma at position [i]
    of [s] stands in word-final position. *)
Record UnicodeDB := {
  ToLowerFull : N -> list N;
  FinalSigma : list N -> nat -> bool
}.

(** A database that leaves every code point outside ASCII alone.  It is used
    to evaluate the model on ASCII inputs, where no database is consulted. *)
Definition basic_latin_db : UnicodeDB :=
  {| ToLowerFull := fun c => [c]; FinalSigma := fun _ _ => false |}.

Module PyStr.

(** [A]..[Z] move down by 32, the rest of ASCII is fixed. *)
Definition ascii_lower (c : N) : N :=
  if ((65 <=? c) && (c <=? 90))%N then (c + 32)%N else c.

(** One code point of [str.lower()]: capital sigma (U+03A3) depends on its
    context, every other code point goes through the case table. *)
Definition lower_ucs4 (U : UnicodeDB) (s : pystr) (i : nat) (c : N) : list N :=
  if (c <? 128)%N then [ascii_lower c]
  else if (c =? 931)%N then [if FinalSigma U s i then 962%N else 963%N]
  else ToLowerFull U c.

Fixpoint do_lower (U : UnicodeDB) (s : pystr) (i : nat) (rest : pystr) : pystr :=
  match rest with
  | [] => []
  | c :: rest' => lower_ucs4 U s i c ++ do_lower U s (S i) rest'
  end.

(** [s.lower()] *)
Definition lower (U : UnicodeDB) (s : pystr) : pystr := do_lower U s 0 s.

(** [s.replace(" ", "_")]: both patterns are one code point long. *)
Definition replace_space (s : pystr) : pystr :=
  (fun c => if (c =? 32)%N then 95%N else c) <$> s.

(** Membership in the character class [[a-z0-9_]]. *)
Definition in_class (c : N) : bool :=
  ((97 <=? c) && (c <=? 122) || (48 <=? c) && (c <=? 57) || (c =? 95))%N.

(** [re.sub(r"[^a-z0-9_]", "", s)]: every code point outside the class is
    replaced by the empty string. *)
Definition re_sub_strip (s : pystr) : pystr := filter (fun c => in_class c = true) s.

(** [str(n)] for a Python integer. *)
Definition digit (d : N) : N := (48 + d)%N.

Fixpoint str_pos_aux (fuel : nat) (n : N) (acc : pystr) : pystr :=
  match fuel with
  | O => acc
  | S fuel' =>
      let acc' := digit (n mod 10) :: acc in
      if (n <? 10)%N then acc' else str_pos_aux fuel' (n / 10) acc'
  end.

Definition str_N (n : N) : pystr := str_pos_aux (S (N.to_nat (N.log2 n))) n [].

Definition str_int (z : Z) : pystr :=
  if z <? 0 then 45%N :: str_N (Z.abs_N z) else str_N (Z.abs_N z).

End PyStr.

(** ** Table naming *)

(** [normalize_table_name(keyword, location)] *)
Definition normalize_table_name (U : UnicodeDB) (keyword location : pystr) : pystr :=
  let safe := PyStr.replace_space (PyStr.lower U (keyword ++ py "_" ++ location)) in
  PyStr.re_sub_strip safe.



(** ** Python numbers

    [a / b] on integers is a binary64 float, [x * 100] is a float product and
    [int(x)] truncates toward zero.  The floats are those of IEEE 754 with
    round-to-nearest-even, as [SpecFloat] defines them. *)

Inductive exn :=
| ZeroDivisionError
| OperationalError (table : pystr)
| IntegrityError (table : pystr).

Module PyFloat.

Definition prec : Z := 53.
Definition emax : Z := 1024.

(** [float(z)] *)
Definition of_int (z : Z) : spec_float := binary_normalize prec emax z 0 false.

(** [a / b] for integers below [2^53], where [float] is exact. *)
Definition truediv (a b : Z) : exn + spec_float :=
  if b =? 0 then inl ZeroDivisionError
  else inr (SFdiv prec emax (of_int a) (of_int b)).

(** [x * k] for a float [x] and an integer [k]. *)
Definition mul_int (x : spec_float) (k : Z) : spec_float :=
  SFmul prec emax x (of_int k).

(** [int(x)]; infinities and NaN do not arise from the quotients above. *)
Definition to_int (x : spec_float) : Z :=
  match x with
  | S754_finite s m e =>
      cond_Zopp s (if 0 <=? e then Z.pos m * 2 ^ e else Z.pos m / 2 ^ (- e))
  | _ => 0
  end.

(** [int((a / b) * 100)] *)
Definition percent (a b : Z) : exn + Z :=
  match truediv a b with
  | inl e => inl e
  | inr q => inr (to_int (mul_int q 100))
  end.

(** The value of [percent] when the divisor is not zero. *)
Definition percent_value (a b : Z) : Z :=
  to_int (mul_int (SFdiv prec emax (of_int a) (of_int b)) 100).

End PyFloat.



(** ** Dictionaries and tables

    The dictionaries the scripts return carry string values under literal
    keys.  [data.get(k, d)] is [dict_get]. *)

Abbreviation dict := (gmap string pystr).

Definition dict_get (d : dict) (k : string) (dflt : pystr) : pystr :=
  default dflt (d !! k).

(** The Maps schema: [id INTEGER PRIMARY KEY] and seven text columns. *)
Record MapsRow := {
  m_id : Z;
  m_name : pystr;
  m_address : pystr;
  m_phone : pystr;
  m_website : pystr;
  m_keyword : pystr;
  m_location : pystr;
  m_scraped_at : pystr
}.

(** The JustDial schema: [id TEXT PRIMARY KEY] and ten text columns.  The
    id is [data.get("id")], which is [None] (SQL NULL) for a missing key. *)
Record JdRow := {
  j_id : option pystr;
  j_name : pystr;
  j_address : pystr;
  j_phone : pystr;
  j_website : pystr;
  j_website_status : pystr;
  j_keyword : pystr;
  j_location : pystr;
  j_scraped_at : pystr;
  j_rating : pystr;
  j_votes : pystr
}.

(** Both schemas have the [name] and [address] columns the duplicate check
    selects on. *)
Class Keyed (R : Type) := row_key : R -> pystr * pystr.

#[export] Instance MapsRow_keyed : Keyed MapsRow := fun r => (m_name r, m_address r).
#[export] Instance JdRow_keyed : Keyed JdRow := fun r => (j_name r, j_address r).

Module Sqlite.

(** [SELECT id FROM t WHERE name = ? AND address = ?] followed by
    [fetchone()]: the first matching row, if any. *)
Definition select_by_key {R} `{Keyed R} (t : list R) (name address : pystr) : option R :=
  head (filter (fun r => row_key r = (name, address)) t).

(** The rowid an [INTEGER PRIMARY KEY] gets when the insert names none: one
    more than the largest in the table, 1 for an empty table. *)
Definition next_rowid (t : list MapsRow) : Z :=
  match t with
  | [] => 1
  | _ => 1 + foldr Z.max 0 (m_id <$> t)
  end.

(** A [TEXT PRIMARY KEY] rejects a second row with the same non-NULL id. *)
Definition id_taken (t : list JdRow) (i : option pystr) : bool :=
  match i with
  | None => false
  | Some _ => bool_decide (i ∈ j_id <$> t)
  end.

End Sqlite.

(** ** The window object

    [MapsScraperGUI] holds the session in its fields.  What it does to its
    widgets, to the web views and to the event loop is recorded as a trace
    of effects. *)

Inductive Scraper := maps | justdial.

Inductive Action := ExtractPlace | ProcessNextLink.

Inductive Script := PlaceScript | LinksScript.

Inductive Effect :=
| Log (which : Scraper) (msg : pystr)
| SetProgress (which : Scraper) (v : Z)
| MessageInfo (title text : pystr)
| MessageWarning (title text : pystr)
| WebLoad (url : pystr)
| SingleShot (ms : Z) (act : Action)
| RunJavaScript (js : Script)
| RefreshTables
| ScrapeButtons (start_enabled stop_enabled : bool).

#[export] Instance Scraper_eq_dec : EqDecision Scraper.
Proof. solve_decision. Defined.
#[export] Instance Action_eq_dec : EqDecision Action.
Proof. solve_decision. Defined.
#[export] Instance Script_eq_dec : EqDecision Script.
Proof. solve_decision. Defined.
#[export] Instance Effect_eq_dec : EqDecision Effect.
Proof. solve_decision. Defined.

Record Gui := {
  links : list pystr;
  links_index : nat;
  current_keyword : pystr;
  current_location : pystr;
  max_links_input : Z;
  scraping : bool;
  _next_action : option Action;
  justdial_keyword : pystr;
  justdial_location : pystr;
  maps_db : gmap pystr (list MapsRow);
  justdial_db : gmap pystr (list JdRow)
}.

Definition set_links (v : list pystr) (g : Gui) : Gui :=
  {| links := v; links_index := links_index g; current_keyword := current_keyword g;
     current_location := current_location g; max_links_input := max_links_input g;
     scraping := scraping g; _next_action := _next_action g;
     justdial_keyword := justdial_keyword g; justdial_location := justdial_location g;
     maps_db := maps_db g; justdial_db := justdial_db g |}.

Definition set_links_index (v : nat) (g : Gui) : Gui :=
  {| links := links g; links_index := v; current_keyword := current_keyword g;
     current_location := current_location g; max_links_input := max_links_input g;
     scraping := scraping g; _next_action := _next_action g;
     justdial_keyword := justdial_keyword g; justdial_location := justdial_location g;
     maps_db := maps_db g; justdial_db := justdial_db g |}.

Definition set_scraping (v : bool) (g : Gui) : Gui :=
  {| links := links g; links_index := links_index g; current_keyword := current_keyword g;
     current_location := current_location g; max_links_input := max_links_input g;
     scraping := v; _next_action := _next_action g;
     justdial_keyword := justdial_keyword g; justdial_location := justdial_location g;
     maps_db := maps_db g; justdial_db := justdial_db g |}.

Definition set_next_action (v : option Action) (g : Gui) : Gui :=
  {| links := links g; links_index := links_index g; current_keyword := current_keyword g;
     current_location := current_location g; max_links_input := max_links_input g;
     scraping := scraping g; _next_action := v;
     justdial_keyword := justdial_keyword g; justdial_location := justdial_location g;
     maps_db := maps_db g; justdial_db := justdial_db g |}.

Definition set_maps_db (v : gmap pystr (list MapsRow)) (g : Gui) : Gui :=
  {| links := links g; links_index := links_index g; current_keyword := current_keyword g;
     current_location := current_location g; max_links_input := max_links_input g;
     scraping := scraping g; _next_action := _next_action g;
     justdial_keyword := justdial_keyword g; justdial_location := justdial_location g;
     maps_db := v; justdial_db := justdial_db g |}.

Definition set_justdial_db (v : gmap pystr (list JdRow)) (g : Gui) : Gui :=
  {| links := links g; links_index := links_index g; current_keyword := current_keyword g;
     current_location := current_location g; max_links_input := max_links_input g;
     scraping := scraping g; _next_action := _next_action g;
     justdial_keyword := justdial_keyword g; justdial_location := justdial_location g;
     maps_db := maps_db g; justdial_db := v |}.

Definition set_justdial_query (k l : pystr) (g : Gui) : Gui :=
  {| links := links g; links_index := links_index g; current_keyword := current_keyword g;
     current_location := current_location g; max_links_input := max_links_input g;
     scraping := scraping g; _next_action := _next_action g;
     justdial_keyword := k; justdial_location := l;
     maps_db := maps_db g; justdial_db := justdial_db g |}.

(** ** Methods as state transformers

    A method runs on the window's fields, appends to the trace, and either
    returns or raises; what it wrote before raising stays written. *)

Definition M (A : Type) : Type := Gui -> Gui * list Effect * (exn + A).

Definition ret {A} (a : A) : M A := fun g => (g, [], inr a).

Definition bind {A B} (m : M A) (k : A -> M B) : M B :=
  fun g =>
    match m g with
    | (g1, out1, inl e) => (g1, out1, inl e)
    | (g1, out1, inr a) =>
        match k a g1 with
        | (g2, out2, r) => (g2, out1 ++ out2, r)
        end
    end.

Definition raise {A} (e : exn) : M A := fun g => (g, [], inl e).
Definition read : M Gui := fun g => (g, [], inr g).
Definition modify (f : Gui -> Gui) : M unit := fun g => (f g, [], inr tt).
Definition emit (e : Effect) : M unit := fun g => (g, [e], inr tt).
Definition lift {A} (r : exn + A) : M A := fun g => (g, [], r).

Declare Scope method_scope.
Delimit Scope method_scope with method.
Notation "x <- m ;; k" := (bind m (fun x => k))
  (at level 100, m at next level, right associativity) : method_scope.
Notation "m ;; k" := (bind m (fun _ => k))
  (at level 100, right associativity) : method_scope.
Local Open Scope method_scope.

(** The state, the trace and the outcome of a run. *)
Definition state_of {A} (r : Gui * list Effect * (exn + A)) : Gui := fst (fst r).
Definition trace_of {A} (r : Gui * list Effect * (exn + A)) : list Effect := snd (fst r).
Definition outcome_of {A} (r : Gui * list Effect * (exn + A)) : exn + A := snd r.

(** ** Sequential mode: the Maps flow *)

Section Methods.

Variable U : UnicodeDB.

(** Whether the storage engine takes a name as a table identifier when it is
    spliced into a statement (a name that starts with a digit, say, is a
    syntax error).  The engine is not part of the repository. *)
Variable sql_accepts : pystr -> bool.

Definition log (msg : pystr) (which : Scraper) : M unit := emit (Log which msg).

Definition get_current_table (which : Scraper) (g : Gui) : pystr :=
  match which with
  | maps => normalize_table_name U (current_keyword g) (current_location g)
  | justdial => normalize_table_name U (justdial_keyword g) (justdial_location g)
  end.

(** [CREATE TABLE IF NOT EXISTS]: an existing table keeps its rows. *)
Definition create_if_missing {R} (tname : pystr) (db : gmap pystr (list R)) : gmap pystr (list R) :=
  match db !! tname with
  | Some _ => db
  | None => <[tname := []]> db
  end.

Definition ensure_table (keyword location : pystr) (which : Scraper) : M pystr :=
  let tname := normalize_table_name U keyword location in
  if sql_accepts tname then
    modify (fun g =>
      match which with
      | maps => set_maps_db (create_if_missing tname (maps_db g)) g
      | justdial => set_justdial_db (create_if_missing tname (justdial_db g)) g
      end) ;;
    ret tname
  else raise (OperationalError tname).

(** [hrefs[:max_links]] *)
Definition slice_to {A} (l : list A) (stop : Z) : list A :=
  if 0 <=? stop then take (Z.to_nat stop) l
  else take (length l - Z.to_nat (- stop))%nat l.

Definition _got_links (hrefs : option (list pystr)) : M unit :=
  match hrefs with
  | None | Some [] => log (py "No links found.") maps
  | Some hrefs =>
      g <- read ;;
      let max_links := max_links_input g in
      modify (set_links (slice_to hrefs max_links)) ;;
      modify (set_links_index 0) ;;
      g <- read ;;
      log (py "Collected " ++ PyStr.str_int (Z.of_nat (length (links g)))
             ++ py " links. Ready to scrape.") maps
  end.

Definition refresh_keyword_tables : M unit := emit RefreshTables.

Definition _process_next_link : M unit :=
  g <- read ;;
  if (length (links g) <=? links_index g)%nat then
    modify (set_scraping false) ;;
    log (py "Scraping finished.") maps ;;
    refresh_keyword_tables
  else
    match links g !! links_index g with
    | Some url =>
        modify (set_next_action (Some ExtractPlace)) ;;
        emit (WebLoad url)
    | None => ret tt (* not reached: the index is below the length here *)
    end.

Definition start_scrape : M unit :=
  g <- read ;;
  match links g with
  | [] => emit (MessageInfo (py "No links") (py "Collect links first."))
  | _ =>
      ensure_table (current_keyword g) (current_location g) maps ;;
      modify (set_scraping true) ;;
      modify (set_links_index 0) ;;
      emit (SetProgress maps 0) ;;
      _process_next_link
  end.

Definition _on_load_finished (ok : bool) : M unit :=
  g <- read ;;
  match ok, _next_action g with
  | true, Some act => emit (SingleShot 600 act)
  | _, _ => ret tt
  end.

Definition collect_links : M unit := emit (RunJavaScript LinksScript).

Definition _extract_place : M unit := emit (RunJavaScript PlaceScript).

(** The row the Maps insert writes; [utcnow] is the clock reading. *)
Definition maps_row (t : list MapsRow) (data : dict) (g : Gui) (utcnow : pystr) : MapsRow :=
  {| m_id := Sqlite.next_rowid t;
     m_name := dict_get data "name" (py "");
     m_address := dict_get data "address" (py "");
     m_phone := dict_get data "phone" (py "");
     m_website := dict_get data "website" (py "");
     m_keyword := current_keyword g;
     m_location := current_location g;
     m_scraped_at := utcnow |}.

Definition _got_place (data : option dict) (utcnow : pystr) : M unit :=
  let data := match data with Some d => d | None => ∅ end in
  g <- read ;;
  let tname := get_current_table maps g in
  match maps_db g !! tname with
  | None => raise (OperationalError tname)
  | Some t =>
      let existing :=
        Sqlite.select_by_key t (dict_get data "name" (py "")) (dict_get data "address" (py "")) in
      match existing with
      | None =>
          modify (set_maps_db (<[tname := t ++ [maps_row t data g utcnow]]> (maps_db g))) ;;
          log (py "Saved: " ++ dict_get data "name" (py "")) maps
      | Some _ =>
          log (py "Skipped duplicate: " ++ dict_get data "name" (py "")) maps
      end ;;
      modify (fun g => set_links_index (links_index g + 1)%nat g) ;;
      g <- read ;;
      p <- lift (PyFloat.percent (Z.of_nat (links_index g)) (Z.of_nat (length (links g)))) ;;
      emit (SetProgress maps p) ;;
      emit (SingleShot 800 ProcessNextLink)
  end.

Definition perform (act : Action) : M unit :=
  match act with
  | ExtractPlace => _extract_place
  | ProcessNextLink => _process_next_link
  end.

End Methods.

(** ** Snapshot mode: the JustDial flow *)

(** *** The extraction script

    The script [JustDialScraper.run] hands to the page.  A listing element is
    represented by what its selectors yield: the text of the name element
    when there is one, and the values the remaining lookups settle on. *)

Module PageScript.

Record Listing := {
  name_text : option pystr;
  address : pystr;
  phone : pystr;
  website : pystr;
  website_status : pystr;
  rating : pystr;
  votes : pystr
}.

(** White space and line terminators of [String.prototype.trim]. *)
Definition is_space (c : N) : bool :=
  ((c =? 9) || (c =? 10) || (c =? 11) || (c =? 12) || (c =? 13) || (c =? 32)
   || (c =? 160) || (c =? 5760) || (8192 <=? c) && (c <=? 8202)
   || (c =? 8232) || (c =? 8233) || (c =? 8239) || (c =? 8287)
   || (c =? 12288) || (c =? 65279))%N.

Fixpoint drop_spaces (s : pystr) : pystr :=
  match s with
  | c :: s' => if is_space c then drop_spaces s' else s
  | [] => []
  end.

Definition trim (s : pystr) : pystr :=
  rev (drop_spaces (rev (drop_spaces s))).

Definition is_empty (s : pystr) : bool :=
  match s with [] => true | _ => false end.

(** [extractListingData(listing)]; [None] is the script's [null]. *)
Definition extractListingData (l : Listing) : option dict :=
  let name := match name_text l with Some t => trim t | None => py "N/A" end in
  if is_empty name || bool_decide (name = py "N/A") then None
  else Some (list_to_map
         [("name", name); ("address", address l); ("phone", phone l);
          ("website", website l); ("website_status", website_status l);
          ("rating", rating l); ("votes", votes l)]).

(** The loop over the listings of the page, with its set of names seen. *)
Fixpoint collect (seenNames : gset pystr) (listings : list Listing) : list dict :=
  match listings with
  | [] => []
  | listing :: rest =>
      match extractListingData listing with
      | Some data =>
          let name := dict_get data "name" [] in
          if negb (bool_decide (name = py "N/A")) && negb (bool_decide (name ∈ seenNames))
          then data :: collect ({[ name ]} ∪ seenNames) rest
          else collect seenNames rest
      | None => collect seenNames rest
      end
  end.

Definition results (listings : list Listing) : list dict := collect ∅ listings.

End PageScript.

(** *** The worker *)

(** What [runJavaScript] hands to its callback. *)
Inductive PyVal :=
| PyNone
| PyList (items : list dict)
| PyOther.

(** The call itself either raises inside [run] or calls back later. *)
Inductive JsCall :=
| JsRaises (e : pystr)
| JsReturns (result : PyVal).

Inductive Signal :=
| status_signal (msg : pystr)
| data_signal (data : dict)
| progress_signal (v : Z)
| finished_signal.

(** A [JustDialScraper]: its cap, the value of [_is_running] as the loop
    reads it at the head of iteration [i], and the identifiers and clock
    readings it draws there. *)
Record JustDialScraper := {
  max_listings : Z;
  _is_running : nat -> bool;
  uuid4 : nat -> pystr;
  now : nat -> pystr
}.

Section Worker.

Variable self : JustDialScraper.

Definition data_with_meta (i : nat) (data : dict) : dict :=
  list_to_map
    [("id", uuid4 self i);
     ("name", dict_get data "name" (py "N/A"));
     ("address", dict_get data "address" (py "N/A"));
     ("phone", dict_get data "phone" (py "N/A"));
     ("website", dict_get data "website" (py "N/A"));
     ("website_status", dict_get data "website_status" (py "Unknown"));
     ("rating", dict_get data "rating" (py "N/A"));
     ("votes", dict_get data "votes" (py "N/A"));
     ("scraped_at", now self i)].

(** [min(len(result), self.max_listings)] *)
Definition shown_total (n : nat) : Z := Z.min (Z.of_nat n) (max_listings self).

(** The [for i, data in enumerate(result)] loop of [process_results], from
    index [i] on; [n] is [len(result)].  The pause after each item has no
    effect on the signals. *)
Fixpoint process_loop (n i : nat) (items : list dict) : list Signal * option exn :=
  match items with
  | [] => ([], None)
  | data :: rest =>
      if negb (_is_running self i) || (max_listings self <=? Z.of_nat i) then ([], None)
      else
        match PyFloat.percent (Z.of_nat i + 1) (shown_total n) with
        | inl e => ([data_signal (data_with_meta i data)], Some e)
        | inr p =>
            let '(out, r) := process_loop n (S i) rest in
            (data_signal (data_with_meta i data) :: progress_signal p :: out, r)
        end
  end.

Definition found_line (n : nat) : pystr :=
  py "Found " ++ PyStr.str_int (Z.of_nat n) ++ py " listings. Processing...".

Definition finished_line (n : nat) : pystr :=
  py "Finished processing " ++ PyStr.str_int (shown_total n) ++ py " listings.".

Definition process_results (result : PyVal) : list Signal * option exn :=
  match result with
  | PyList ((_ :: _) as items) =>
      let n := length items in
      match process_loop n 0 items with
      | (out, Some e) => (status_signal (found_line n) :: out, Some e)
      | (out, None) =>
          (status_signal (found_line n) :: out
             ++ [status_signal (finished_line n); finished_signal], None)
      end
  | _ =>
      ([status_signal (py "No listings found or invalid page structure.");
        finished_signal], None)
  end.

(** [run()], with the callback's signals following those of the call.  The
    slots connected to the signals are taken to return. *)
Definition run (call : JsCall) : list Signal * option exn :=
  let starting := status_signal (py "Starting JustDial scraping from embedded browser...") in
  match call with
  | JsRaises e =>
      ([starting; status_signal (py "Error in JustDial scraper: " ++ e); finished_signal], None)
  | JsReturns result =>
      let '(out, r) := process_results result in (starting :: out, r)
  end.

End Worker.

(** *** The window's JustDial slots *)

Section JustDialSlots.

Variable U : UnicodeDB.
Variable sql_accepts : pystr -> bool.

(** The row the JustDial insert writes. *)
Definition justdial_row (data : dict) (g : Gui) : JdRow :=
  {| j_id := data !! "id";
     j_name := dict_get data "name" (py "");
     j_address := dict_get data "address" (py "");
     j_phone := dict_get data "phone" (py "");
     j_website := dict_get data "website" (py "");
     j_website_status := dict_get data "website_status" (py "Unknown");
     j_keyword := justdial_keyword g;
     j_location := justdial_location g;
     j_scraped_at := dict_get data "scraped_at" (py "");
     j_rating := dict_get data "rating" (py "N/A");
     j_votes := dict_get data "votes" (py "N/A") |}.

Definition save_justdial_data (data : dict) : M unit :=
  g <- read ;;
  let tname := get_current_table U justdial g in
  match justdial_db g !! tname with
  | None => raise (OperationalError tname)
  | Some t =>
      let existing :=
        Sqlite.select_by_key t (dict_get data "name" (py "")) (dict_get data "address" (py "")) in
      match existing with
      | None =>
          if Sqlite.id_taken t (data !! "id") then raise (IntegrityError tname)
          else
            modify (set_justdial_db (<[tname := t ++ [justdial_row data g]]> (justdial_db g))) ;;
            log (py "Saved: " ++ dict_get data "name" (py "")) justdial
      | Some _ =>
          log (py "Skipped duplicate: " ++ dict_get data "name" (py "")) justdial
      end
  end.

Definition justdial_scraping_finished : M unit :=
  emit (ScrapeButtons true false) ;;
  refresh_keyword_tables.

(** [start_justdial_scrape]; [k] and [l] are the stripped input texts and
    [on_justdial] tells whether the view shows a page of the site.  The
    worker it starts is run separately. *)
Definition start_justdial_scrape (k l : pystr) (on_justdial : bool) : M bool :=
  if PageScript.is_empty k || PageScript.is_empty l then
    emit (MessageWarning (py "Missing Input") (py "Enter keyword and location.")) ;;
    ret false
  else if negb on_justdial then
    log (py "Please load a JustDial page first by clicking 'Load JustDial'.") justdial ;;
    ret false
  else
    modify (set_justdial_query k l) ;;
    ensure_table U sql_accepts k l justdial ;;
    emit (ScrapeButtons false true) ;;
    ret true.

(** The slots the worker's signals are connected to. *)
Definition on_signal (s : Signal) : M unit :=
  match s with
  | status_signal msg => log msg justdial
  | progress_signal v => emit (SetProgress justdial v)
  | data_signal data => save_justdial_data data
  | finished_signal => justdial_scraping_finished
  end.

Fixpoint deliver (signals : list Signal) : M unit :=
  match signals with
  | [] => ret tt
  | s :: rest => on_signal s ;; deliver rest
  end.

(** A whole snapshot run: start, the script on the page's listings, the
    worker on its result, the signals into the slots. *)
Definition snapshot (w : JustDialScraper) (k l : pystr) (page : list PageScript.Listing) : M unit :=
  started <- start_justdial_scrape k l true ;;
  if started
  then deliver (fst (run w (JsReturns (PyList (PageScript.results page)))))
  else ret tt.

End JustDialSlots.

(** ** The event loop

    The host's side of a Maps session: a load answers with [loadFinished],
    a timer fires its action, the place script answers with the fields of the
    page shown.  [flag_write n] is a write to [self.scraping] from outside,
    made before the [n]-th callback. *)

Record Host := {
  load_ok : pystr -> bool;
  place_data : pystr -> option dict;
  utcnow : nat -> pystr;
  flag_write : nat -> option bool
}.

Inductive Ending := Quiescent | Crashed (e : exn) | OutOfFuel.

Definition is_pending (e : Effect) : bool :=
  match e with
  | WebLoad _ | SingleShot _ _ | RunJavaScript PlaceScript => true
  | _ => false
  end.

Fixpoint pending (out : list Effect) : list Effect :=
  match out with
  | [] => []
  | e :: out' => if is_pending e then e :: pending out' else pending out'
  end.

Section EventLoop.

Variable U : UnicodeDB.
Variable host : Host.

Definition callback (step : nat) (page : pystr) (e : Effect) : M unit :=
  match e with
  | WebLoad url => _on_load_finished (load_ok host url)
  | SingleShot _ act => perform act
  | RunJavaScript PlaceScript => _got_place U (place_data host page) (utcnow host step)
  | _ => ret tt
  end.

(** The page the view shows once an event is handled. *)
Definition page_after (page : pystr) (e : Effect) : pystr :=
  match e with WebLoad url => url | _ => page end.

Definition outside_write (step : nat) (g : Gui) : Gui :=
  match flag_write host step with
  | Some b => set_scraping b g
  | None => g
  end.

Fixpoint event_loop (fuel step : nat) (page : pystr) (queue : list Effect) (g : Gui)
  : Gui * list Effect * Ending :=
  match queue with
  | [] => (g, [], Quiescent)
  | e :: queue' =>
      match fuel with
      | O => (g, [], OutOfFuel)
      | S fuel' =>
          let page' := page_after page e in
          match callback step page' e (outside_write step g) with
          | (g1, out, inl ex) => (g1, out, Crashed ex)
          | (g1, out, inr _) =>
              match event_loop fuel' (S step) page' (queue' ++ pending out) g1 with
              | (g2, out2, ending) => (g2, out ++ out2, ending)
              end
          end
      end
  end.

(** A session: the Start Scrape click and the callbacks that follow. *)
Definition session (sql_accepts : pystr -> bool) (fuel : nat) (g : Gui)
  : Gui * list Effect * Ending :=
  match start_scrape U sql_accepts g with
  | (g1, out, inl ex) => (g1, out, Crashed ex)
  | (g1, out, inr _) =>
      match event_loop fuel 0 [] (pending out) g1 with
      | (g2, out2, ending) => (g2, out ++ out2, ending)
      end
  end.

End EventLoop.

(** What a trace shows of loads, progress and log lines. *)
Definition loaded (out : list Effect) : list pystr :=
  omap (fun e => match e with WebLoad url => Some url | _ => None end) out.

Definition progress_values (which : Scraper) (out : list Effect) : list Z :=
  omap (fun e => match e with
                 | SetProgress w v => if decide (w = which) then Some v else None
                 | _ => None
                 end) out.

Fixpoint extractions (out : list Effect) : nat :=
  match out with
  | [] => 0
  | RunJavaScript PlaceScript :: out' => S (extractions out')
  | _ :: out' => extractions out'
  end.

(** Store cycles completed: each [_got_place] that returns schedules one
    advance check. *)
Fixpoint store_cycles (out : list Effect) : nat :=
  match out with
  | [] => 0
  | SingleShot _ ProcessNextLink :: out' => S (store_cycles out')
  | _ :: out' => store_cycles out'
  end.

(** ** Observations and scenarios

    What the properties below read off a trace or a table, and the concrete
    windows, hosts, workers and pages they are evaluated on. *)

(** The effect of the three passes on one ASCII code point. *)
Definition normalize_code_point (c : N) : list N :=
  if ((65 <=? c) && (c <=? 90))%N then [(c + 32)%N]
  else if (c =? 32)%N then [95%N]
  else if PyStr.in_class c then [c]
  else [].

(** An ASCII code point that is no letter, digit, underscore or space. *)
Definition ascii_other (c : N) : bool :=
  ((c <? 128) && negb ((65 <=? c) && (c <=? 90)) && negb (c =? 32))%N
  && negb (PyStr.in_class c).

(** A window with nothing collected, and one with the links A and B. *)
Definition idle_window : Gui :=
  {| links := []; links_index := 0; current_keyword := py "Cafes";
     current_location := py "Pune"; max_links_input := 2; scraping := false;
     _next_action := None; justdial_keyword := py "Cafes"; justdial_location := py "Pune";
     maps_db := ∅; justdial_db := ∅ |}.

(** A storage engine that takes every name. *)
Definition any_table : pystr -> bool := fun _ => true.

(** A host whose pages all load, each showing a place named after its URL. *)
Definition good_host : Host :=
  {| load_ok := fun _ => true;
     place_data := fun url => Some (list_to_map [("name", url); ("address", py "MG Road")]);
     utcnow := fun _ => py "2024-01-01T00:00:00";
     flag_write := fun _ => None |}.

(** A window with A and B collected, and a host on which nothing loads. *)
Definition window_AB : Gui := set_links [py "A"; py "B"] idle_window.

Definition failing_host : Host :=
  {| load_ok := fun _ => false;
     place_data := place_data good_host;
     utcnow := utcnow good_host;
     flag_write := fun _ => None |}.

(** A window with A, B and C collected; a host that clears [self.scraping]
    before every callback from the extraction of B on. *)
Definition window_ABC : Gui := set_links [py "A"; py "B"; py "C"] idle_window.

Definition stopping_host : Host :=
  {| load_ok := load_ok good_host;
     place_data := place_data good_host;
     utcnow := utcnow good_host;
     flag_write := fun n => if (5 <=? n)%nat then Some false else None |}.

(** The window as the advance check after B finds it, the flag cleared. *)
Definition window_after_B : Gui :=
  set_scraping false (set_links_index 2 (set_next_action (Some ExtractPlace) window_ABC)).

(** The [(name, address)] pairs of a table, and a database none of whose
    tables repeats a pair. *)
Definition keys {R} `{Keyed R} (t : list R) : list (pystr * pystr) := row_key <$> t.

Definition dedup {R} `{Keyed R} (db : gmap pystr (list R)) : Prop :=
  forall tname t, db !! tname = Some t -> NoDup (keys t).

(** The key a save looks up. *)
Definition data_key (data : dict) : pystr * pystr :=
  (dict_get data "name" (py ""), dict_get data "address" (py "")).

(** The log lines of one scraper in a trace. *)
Definition log_lines (which : Scraper) (out : list Effect) : list pystr :=
  omap (fun e => match e with
                 | Log w msg => if decide (w = which) then Some msg else None
                 | _ => None
                 end) out.

(** A run of saves, each on the state the one before left. *)
Definition got_places (U : UnicodeDB) (ops : list (option dict * pystr)) (g : Gui) : Gui :=
  foldl (fun g op => state_of (_got_place U op.1 op.2 g)) g ops.

Definition saves (U : UnicodeDB) (ops : list dict) (g : Gui) : Gui :=
  foldl (fun g data => state_of (save_justdial_data U data g)) g ops.

(** A window whose Maps table holds Joe's Cafe, as the specification's
    example has it. *)
Definition joes_cafe : dict :=
  list_to_map [("name", py "Joe's Cafe"); ("address", py "MG Road")].

Definition stocked_window : Gui :=
  set_maps_db
    {[ py "cafes_pune" :=
         [ {| m_id := 1; m_name := py "Joe's Cafe"; m_address := py "MG Road";
              m_phone := []; m_website := []; m_keyword := py "Cafes";
              m_location := py "Pune"; m_scraped_at := py "2024-01-01T00:00:00" |} ] ]}
    window_AB.

(** What a signal trace shows. *)
Definition progress_of (out : list Signal) : list Z :=
  omap (fun s => match s with progress_signal v => Some v | _ => None end) out.

Definition data_of (out : list Signal) : list dict :=
  omap (fun s => match s with data_signal d => Some d | _ => None end) out.

Definition status_of (out : list Signal) : list pystr :=
  omap (fun s => match s with status_signal m => Some m | _ => None end) out.

Fixpoint finished_count (out : list Signal) : nat :=
  match out with
  | [] => 0
  | finished_signal :: out' => S (finished_count out')
  | _ :: out' => finished_count out'
  end.

(** The number of items the loop handles from index [i] on: it stops at the
    first index where the flag reads false or the cap is reached. *)
Fixpoint handled (w : JustDialScraper) (i : nat) (items : list dict) : nat :=
  match items with
  | [] => 0
  | _ :: rest =>
      if negb (_is_running w i) || (max_listings w <=? Z.of_nat i) then 0%nat
      else S (handled w (S i) rest)
  end.

(** [int((i / m) * 100)] on counts. *)
Definition pv (m i : nat) : Z := PyFloat.percent_value (Z.of_nat i) (Z.of_nat m).

(** The value after item [i] of [m]: at most the exact quotient's floor and
    at most one below it, between 0 and 100, and 100 only for [i = m]. *)
Definition point_ok (m i : nat) (v : Z) : bool :=
  let f := 100 * Z.of_nat i / Z.of_nat m in
  (f - 1 <=? v) && (v <=? f) && (0 <=? v) && (v <=? 100)
  && Bool.eqb (v =? 100) (i =? m)%nat.

(** Items [i], [i + 1], ... ([n] of them), each checked against the value
    before it. *)
Fixpoint row_ok (m : nat) (prev : Z) (i n : nat) : bool :=
  match n with
  | O => true
  | S n' =>
      let v := pv m i in
      point_ok m i v && (prev <=? v) && row_ok m v (S i) n'
  end.

Fixpoint table_ok (m n : nat) : bool :=
  match n with
  | O => true
  | S n' => row_ok m 0 1 m && table_ok (S m) n'
  end.

(** Five records as the script returns them, and a worker capped at 10 whose
    flag reads false from the third item on. *)
Definition named (name : string) : dict :=
  list_to_map [("name", py name); ("address", py "MG Road"); ("phone", py "N/A");
               ("website", py "N/A"); ("website_status", py "Unknown");
               ("rating", py "4.2"); ("votes", py "17")].

Definition five_items : list dict :=
  [named "Alpha"; named "Bravo"; named "Charlie"; named "Delta"; named "Echo"].

Definition cancelled_worker : JustDialScraper :=
  {| max_listings := 10;
     _is_running := fun i => (i <? 2)%nat;
     uuid4 := fun i => py "id-" ++ PyStr.str_int (Z.of_nat i);
     now := fun _ => py "2024-01-01T00:00:00" |}.

(** A worker that is never stopped, capped at [cap]; a batch of [n] records. *)
Definition steady_worker (cap : Z) : JustDialScraper :=
  {| max_listings := cap;
     _is_running := fun _ => true;
     uuid4 := uuid4 cancelled_worker;
     now := now cancelled_worker |}.

Definition numbered_items (n : nat) : list dict :=
  (fun i => {[ "name" := py "Place " ++ PyStr.str_int (Z.of_nat i) ]}) <$> seq 0 n.

(** A proper name: neither empty nor the placeholder. *)
Definition proper_name (name : pystr) : Prop := name <> [] /\ name <> py "N/A".

(** A page of five listings, the third carrying the placeholder as its
    name; the fields of a place page without a heading. *)
Definition listing (name : string) : PageScript.Listing :=
  {| PageScript.name_text := Some (py name);
     PageScript.address := py "MG Road";
     PageScript.phone := py "N/A";
     PageScript.website := py "N/A";
     PageScript.website_status := py "Unknown";
     PageScript.rating := py "4.2";
     PageScript.votes := py "17" |}.

Definition five_listings : list PageScript.Listing :=
  [listing "Alpha"; listing "Bravo"; listing "N/A"; listing "Delta"; listing "Echo"].

Definition no_heading : dict :=
  list_to_map [("name", py ""); ("address", py ""); ("phone", py ""); ("website", py "")].

(** ** Further methods *)

(** ** The search URL

    [urllib.parse.quote_plus] as [load_maps] calls it, with the default
    arguments: the string is encoded as UTF-8 with strict errors and each
    byte outside the always-safe set is written as a percent escape; a space
    becomes a plus sign. *)

Module Urllib.

(** [str.encode("utf-8")] on one code point; [None] is the
    [UnicodeEncodeError] raised for a surrogate. *)
Definition utf8_char (ch : N) : option (list N) :=
  if (ch <? 0x80)%N then Some [ch]
  else if (ch <? 0x800)%N then
    Some [N.lor 0xc0 (N.shiftr ch 6); N.lor 0x80 (N.land ch 0x3f)]
  else if ((0xd800 <=? ch) && (ch <=? 0xdfff))%N then None
  else if (ch <? 0x10000)%N then
    Some [N.lor 0xe0 (N.shiftr ch 12);
          N.lor 0x80 (N.land (N.shiftr ch 6) 0x3f);
          N.lor 0x80 (N.land ch 0x3f)]
  else
    Some [N.lor 0xf0 (N.shiftr ch 18);
          N.lor 0x80 (N.land (N.shiftr ch 12) 0x3f);
          N.lor 0x80 (N.land (N.shiftr ch 6) 0x3f);
          N.lor 0x80 (N.land ch 0x3f)].

Fixpoint utf8 (s : pystr) : option (list N) :=
  match s with
  | [] => Some []
  | ch :: rest =>
      match utf8_char ch, utf8 rest with
      | Some bs, Some bs' => Some (bs ++ bs')
      | _, _ => None
      end
  end.

(** The bytes of [_ALWAYS_SAFE]: letters, digits and [_.-~]. *)
Definition always_safe (b : N) : bool :=
  ((65 <=? b) && (b <=? 90) || (97 <=? b) && (b <=? 122) || (48 <=? b) && (b <=? 57)
   || (b =? 95) || (b =? 46) || (b =? 45) || (b =? 126))%N.

Definition hex_digit (d : N) : N := if (d <? 10)%N then (48 + d)%N else (55 + d)%N.

(** One byte of [quote_from_bytes]; [space_safe] tells whether the space is
    among the safe characters of the call. *)
Definition quoter (space_safe : bool) (b : N) : pystr :=
  if always_safe b || space_safe && (b =? 32)%N then [b]
  else [37%N; hex_digit (b / 16); hex_digit (b mod 16)].

(** [quote(string, safe)] for [safe] empty or a space. *)
Definition quote (s : pystr) (space_safe : bool) : option pystr :=
  match utf8 s with
  | Some bs => Some (bs ≫= quoter space_safe)
  | None => None
  end.

Definition has_space (s : pystr) : bool := existsb (fun c => (c =? 32)%N) s.

(** [quote_plus(string)] *)
Definition quote_plus (s : pystr) : option pystr :=
  if has_space s then
    match quote s true with
    | Some q => Some ((fun c => if (c =? 32)%N then 43%N else c) <$> q)
    | None => None
    end
  else quote s false.

End Urllib.

(** ** Loading the search page *)

Inductive UnicodeEncodeError := SurrogatesNotAllowed (s : pystr).

Definition set_maps_query (k l : pystr) (g : Gui) : Gui :=
  {| links := links g; links_index := links_index g; current_keyword := k;
     current_location := l; max_links_input := max_links_input g;
     scraping := scraping g; _next_action := _next_action g;
     justdial_keyword := justdial_keyword g; justdial_location := justdial_location g;
     maps_db := maps_db g; justdial_db := justdial_db g |}.

(** [load_maps]; [k] and [l] are the stripped input texts.  The query is
    made the current one before the URL is built, so it stays the current one
    when building the URL raises. *)
Definition load_maps (k l : pystr) (g : Gui)
  : Gui * list Effect * (UnicodeEncodeError + unit) :=
  if PageScript.is_empty k || PageScript.is_empty l then
    (g, [MessageWarning (py "Missing Input") (py "Enter both keyword and location.")], inr tt)
  else
    let g1 := set_maps_query k l g in
    match Urllib.quote_plus k with
    | None => (g1, [], inl (SurrogatesNotAllowed k))
    | Some qk =>
        match Urllib.quote_plus l with
        | None => (g1, [], inl (SurrogatesNotAllowed l))
        | Some ql =>
            let url := py "https://www.google.com/maps/search/" ++ qk ++ py "+in+" ++ ql in
            (g1,
             [WebLoad url; Log maps (py "Loaded Maps for " ++ k ++ py " in " ++ l)],
             inr tt)
        end
    end.

(** ** The viewer

    [load_selected_table] with Google Maps as the source.  The ids of a Maps
    table are distinct integers, so [ORDER BY id DESC] fixes the order of the
    rows; it is computed here by insertion. *)

Fixpoint insert_desc (r : MapsRow) (sorted : list MapsRow) : list MapsRow :=
  match sorted with
  | [] => [r]
  | r' :: rest => if m_id r' <? m_id r then r :: sorted else r' :: insert_desc r rest
  end.

Definition order_by_id_desc (t : list MapsRow) : list MapsRow := foldr insert_desc [] t.

Definition maps_columns : list pystr :=
  [py "id"; py "name"; py "address"; py "phone"; py "website"; py "keyword"; py "location";
   py "scraped_at"].

(** [str(val)] for each value of a row. *)
Definition maps_cells (r : MapsRow) : list pystr :=
  [PyStr.str_int (m_id r); m_name r; m_address r; m_phone r; m_website r; m_keyword r;
   m_location r; m_scraped_at r].

(** The header labels and the cells the table widget is filled with; [None]
    when no table is selected, in which case the widget is left alone. *)
Definition load_selected_table (tname : pystr) (g : Gui)
  : exn + option (list pystr * list (list pystr)) :=
  if PageScript.is_empty tname then inr None
  else
    match maps_db g !! tname with
    | None => inl (OperationalError tname)
    | Some t => inr (Some (maps_columns, maps_cells <$> order_by_id_desc t))
    end.

(** ** Further observations *)

(** The name the script reads off a listing. *)
Definition listing_name (l : PageScript.Listing) : pystr :=
  match PageScript.name_text l with
  | Some t => PageScript.trim t
  | None => py "N/A"
  end.

Definition names_of (batch : list dict) : list pystr :=
  (fun d => dict_get d "name" []) <$> batch.

(** The record the script makes of a listing it keeps. *)
Definition listing_record (l : PageScript.Listing) : dict :=
  list_to_map
    [("name", listing_name l); ("address", PageScript.address l);
     ("phone", PageScript.phone l); ("website", PageScript.website l);
     ("website_status", PageScript.website_status l);
     ("rating", PageScript.rating l); ("votes", PageScript.votes l)].

#[export] Instance proper_name_dec (name : pystr) : Decision (proper_name name).
Proof. unfold proper_name. apply _. Defined.

(** The listings of a page that carry a proper name. *)
Definition named_listings (page : list PageScript.Listing) : list PageScript.Listing :=
  filter (fun l => proper_name (listing_name l)) page.

(** The rows a snapshot run writes for the listings it keeps, from index [i]
    on: the worker's id and time at the index, the query of the window. *)
Definition snapshot_rows (w : JustDialScraper) (g : Gui) (i : nat)
    (ls : list PageScript.Listing) : list JdRow :=
  zip_with (fun j l => justdial_row (data_with_meta w j (listing_record l)) g)
    (seq i (length ls)) ls.

(** The rows of a table of either database, if the table is there. *)
Definition stored (which : Scraper) (g : Gui) (tname : pystr) : option (list MapsRow + list JdRow) :=
  match which with
  | maps => inl <$> maps_db g !! tname
  | justdial => inr <$> justdial_db g !! tname
  end.

Definition no_rows (which : Scraper) : list MapsRow + list JdRow :=
  match which with maps => inl [] | justdial => inr [] end.

(** A database whose tables carry the ids 1, 2, ... in insertion order. *)
Definition consecutive_ids (db : gmap pystr (list MapsRow)) : Prop :=
  forall tname t, db !! tname = Some t -> m_id <$> t = Z.of_nat <$> seq 1 (length t).

(** The key of a Maps save. *)
Definition place_key (data : option dict) : pystr * pystr := data_key (default ∅ data).

(** A record a JustDial save of which writes nothing: its table is missing,
    its pair is stored, or its id is a stored row's. *)
Definition settled (U : UnicodeDB) (data : dict) (g : Gui) : Prop :=
  match justdial_db g !! get_current_table U justdial g with
  | None => True
  | Some t => data_key data ∈ keys t \/ Sqlite.id_taken t (data !! "id") = true
  end.

(** The same for a Maps save, which has no id of its own to clash. *)
Definition settled_place (U : UnicodeDB) (key : pystr * pystr) (g : Gui) : Prop :=
  match maps_db g !! get_current_table U maps g with
  | None => True
  | Some t => key ∈ keys t
  end.

(** What a Maps session leaves alone: the collected links, both queries, the
    cap, the JustDial database, every Maps table but the current one, and the
    rows already stored, after which it only appends; and it keeps the stored
    pairs distinct and the ids consecutive. *)
Definition kept (U : UnicodeDB) (g g' : Gui) : Prop :=
  links g' = links g
  /\ current_keyword g' = current_keyword g
  /\ current_location g' = current_location g
  /\ max_links_input g' = max_links_input g
  /\ justdial_keyword g' = justdial_keyword g
  /\ justdial_location g' = justdial_location g
  /\ justdial_db g' = justdial_db g
  /\ (forall tname t, maps_db g !! tname = Some t ->
        exists more, maps_db g' !! tname = Some (t ++ more))
  /\ (forall other, other <> get_current_table U maps g ->
        maps_db g' !! other = maps_db g !! other)
  /\ (dedup (maps_db g) -> dedup (maps_db g'))
  /\ (consecutive_ids (maps_db g) -> consecutive_ids (maps_db g')).

(** The number of links at the head of a list whose pages load. *)
Fixpoint loads_ok (host : Host) (ls : list pystr) : nat :=
  match ls with
  | [] => 0
  | url :: rest => if load_ok host url then S (loads_ok host rest) else 0
  end.

(** The line that ends a session, and the traces that carry it. *)
Definition finish_line : pystr := py "Scraping finished.".

Definition finished (out : list Effect) : Prop := finish_line ∈ log_lines maps out.

(** The value asked of the bar when one more place than there are links has
    been stored: above 100 for a list of up to 100 links, 100 for a longer
    one.  Checked for the lists of [m], [m + 1], ... links ([n] of them). *)
Fixpoint past_end_ok (m n : nat) : bool :=
  match n with
  | O => true
  | S n' =>
      (100 <=? pv m (S m)) && Bool.eqb (100 <? pv m (S m)) (m <=? 100)%nat
      && past_end_ok (S m) n'
  end.

(** The saves of a session all of whose pages load: the record of each link
    in turn, with the clock reading of the callback that stores it.  [step]
    counts the callbacks before the link is loaded; a link takes four. *)
Fixpoint visits (host : Host) (step : nat) (ls : list pystr) : list (option dict * pystr) :=
  match ls with
  | [] => []
  | url :: rest => (place_data host url, utcnow host (S (S step))) :: visits host (4 + step) rest
  end.

(** A host on which every page loads but B. *)
Definition second_page_fails : Host :=
  {| load_ok := fun url => negb (bool_decide (url = py "B"));
     place_data := place_data good_host;
     utcnow := utcnow good_host;
     flag_write := fun _ => None |}.

(** A string of code points, none of them a surrogate: what UTF-8 encodes. *)
Definition is_str (s : pystr) : Prop := Forall (fun c => (c < 0x110000)%N) s.

Definition surrogate (c : N) : bool := ((0xd800 <=? c) && (c <=? 0xdfff))%N.

(** The characters of a quoted string, and those of the search URL. *)
Definition quoted_char (c : N) : bool :=
  Urllib.always_safe c || (c =? 37)%N || (c =? 43)%N.

Definition url_char (c : N) : bool :=
  quoted_char c || (c =? 58)%N || (c =? 47)%N.

(** * Properties *)

(** ** Sanity checks *)

Example normalize_cafes_pune U :
  normalize_table_name U (py "Cafes") (py "Pune") = py "cafes_pune".
Proof. reflexivity. Qed.

Example str_int_samples :
  PyStr.str_int 0 = py "0" /\ PyStr.str_int 200 = py "200" /\
  PyStr.str_int 1024 = py "1024" /\ PyStr.str_int (-7) = py "-7".
Proof. repeat split; reflexivity. Qed.

Example percent_samples :
  PyFloat.percent 1 2 = inr 50 /\ PyFloat.percent 2 2 = inr 100 /\
  PyFloat.percent 1 3 = inr 33 /\ PyFloat.percent 29 100 = inr 28 /\
  PyFloat.percent 3 0 = inl ZeroDivisionError.
Proof. repeat split; vm_compute; reflexivity. Qed.

(** ** Table naming *)

(** Boolean comparisons on code points, turned into arithmetic. *)
Ltac code_points :=
  repeat match goal with
  | H : (_ && _) = true |- _ => apply andb_true_iff in H as [? ?]
  | H : (_ && _) = false |- _ => apply andb_false_iff in H as [?|?]
  | H : (_ <=? _)%N = true |- _ => apply N.leb_le in H
  | H : (_ <=? _)%N = false |- _ => apply N.leb_gt in H
  | H : (_ <? _)%N = true |- _ => apply N.ltb_lt in H
  | H : (_ <? _)%N = false |- _ => apply N.ltb_ge in H
  | H : (_ =? _)%N = true |- _ => apply N.eqb_eq in H
  | H : (_ =? _)%N = false |- _ => apply N.eqb_neq in H
  | |- (_ =? _)%N = false => apply N.eqb_neq
  | |- (_ =? _)%N = true => apply N.eqb_eq
  end.

Section Naming.

Variable U : UnicodeDB.

Lemma in_class_spec c :
  PyStr.in_class c = true <->
  (97 <= c <= 122 \/ 48 <= c <= 57 \/ c = 95)%N.
Proof.
  unfold PyStr.in_class.
  rewrite !orb_true_iff, !andb_true_iff, !N.leb_le, N.eqb_eq. lia.
Qed.

Lemma in_class_ascii c : PyStr.in_class c = true -> (c < 128)%N.
Proof. rewrite in_class_spec. lia. Qed.

Lemma in_class_lower c : PyStr.in_class c = true -> PyStr.ascii_lower c = c.
Proof.
  rewrite in_class_spec. unfold PyStr.ascii_lower. intros H.
  destruct ((65 <=? c) && (c <=? 90))%N eqn:E; [|done]. code_points. lia.
Qed.

(** Lower-casing distributes over concatenation, position by position. *)
Lemma do_lower_app s i a b :
  PyStr.do_lower U s i (a ++ b)
  = PyStr.do_lower U s i a ++ PyStr.do_lower U s (i + length a) b.
Proof.
  revert i. induction a as [|c a IH]; intros i; simpl.
  - by rewrite Nat.add_0_r.
  - rewrite IH, <- app_assoc. do 3 f_equal. lia.
Qed.

(** On ASCII text no table is consulted. *)
Lemma do_lower_ascii s i rest :
  Forall (fun c => (c < 128)%N) rest ->
  PyStr.do_lower U s i rest = PyStr.ascii_lower <$> rest.
Proof.
  intros H. revert i. induction H as [|c rest Hc _ IH]; intros i; simpl; [done|].
  unfold PyStr.lower_ucs4. apply N.ltb_lt in Hc. rewrite Hc. simpl. by rewrite IH.
Qed.

Lemma lower_in_class t :
  Forall (fun c => PyStr.in_class c = true) t -> PyStr.lower U t = t.
Proof.
  intros H. unfold PyStr.lower. rewrite do_lower_ascii.
  - induction H as [|c t Hc _ IH]; [done|].
    by rewrite fmap_cons, in_class_lower, IH.
  - eapply Forall_impl; [exact H|]. intros c. apply in_class_ascii.
Qed.

Lemma re_sub_strip_in_class s :
  Forall (fun c => PyStr.in_class c = true) (PyStr.re_sub_strip s).
Proof.
  apply Forall_forall. intros c Hc. unfold PyStr.re_sub_strip in Hc.
  by apply list_elem_of_filter in Hc as [Hc _].
Qed.

(** The joiner survives all three passes. *)
Lemma joiner_kept keyword location :
  95%N ∈ normalize_table_name U keyword location.
Proof.
  unfold normalize_table_name, PyStr.re_sub_strip, PyStr.replace_space, PyStr.lower.
  apply list_elem_of_filter. split; [reflexivity|].
  apply list_elem_of_fmap. exists 95%N. split; [reflexivity|].
  rewrite do_lower_app. apply elem_of_app. right. simpl. left.
Qed.

Lemma normalize_ascii keyword location :
  Forall (fun c => (c < 128)%N) (keyword ++ location) ->
  normalize_table_name U keyword location
  = (keyword ++ py "_" ++ location) ≫= normalize_code_point.
Proof.
  intros H. apply Forall_app in H as [Hk Hl].
  unfold normalize_table_name, PyStr.lower. rewrite do_lower_ascii.
  2:{ apply Forall_app. split; [done|]. apply Forall_cons. split; [reflexivity | done]. }
  generalize (keyword ++ py "_" ++ location). intros s.
  unfold PyStr.re_sub_strip, PyStr.replace_space.
  induction s as [|c s IH]; [done|].
  rewrite !fmap_cons, filter_cons, bind_cons, IH. f_equal.
  unfold normalize_code_point, PyStr.ascii_lower.
  destruct ((65 <=? c) && (c <=? 90))%N eqn:Hup.
  - assert ((c + 32 =? 32) = false)%N as -> by (code_points; lia).
    rewrite decide_True; [done|]. apply in_class_spec. code_points. lia.
  - destruct (c =? 32)%N eqn:Hsp.
    + by rewrite decide_True.
    + destruct (PyStr.in_class c) eqn:Hc.
      * by rewrite decide_True.
      * by rewrite decide_False.
Qed.

End Naming.

(** C2.  For every keyword and location, [normalize_table_name] is a function
    of its two arguments, its result lies in the class [a-z0-9_] and is
    unchanged by lower-casing; a space becomes an underscore and every other
    code point outside the class is dropped; ("Cafes", "Pune") gives
    "cafes_pune". *)
Theorem normalize_table_name_charset (U : UnicodeDB) (keyword location : pystr) :
  let t := normalize_table_name U keyword location in
  (forall k' l', k' = keyword -> l' = location -> normalize_table_name U k' l' = t)
  /\ Forall (fun c => (97 <= c <= 122 \/ 48 <= c <= 57 \/ c = 95)%N) t
  /\ PyStr.lower U t = t
  /\ t = PyStr.re_sub_strip (PyStr.replace_space (PyStr.lower U (keyword ++ py "_" ++ location)))
  /\ (Forall (fun c => (c < 128)%N) (keyword ++ location) ->
      t = (keyword ++ py "_" ++ location) ≫= normalize_code_point)
  /\ normalize_code_point 32 = py "_"
  /\ normalize_table_name U (py "Cafes") (py "Pune") = py "cafes_pune".
Proof.
  intros t. repeat split.
  - by intros k' l' -> ->.
  - eapply Forall_impl; [apply re_sub_strip_in_class|]. intros c. apply in_class_spec.
  - apply lower_in_class, re_sub_strip_in_class.
  - apply normalize_ascii.
Qed.

(** C10, as stated: no keyword and location, empty or not, normalise to
    the empty string. *)
Lemma normalize_table_name_empty_refuted :
  ~ exists (U : UnicodeDB) (keyword location : pystr),
      keyword <> [] /\ location <> [] /\ normalize_table_name U keyword location = [].
Proof.
  intros (U & keyword & location & _ & _ & H).
  pose proof (joiner_kept U keyword location) as Hin.
  rewrite H in Hin. by apply elem_of_nil in Hin.
Qed.

(** The three passes drop an ASCII code point that is no letter, digit,
    underscore or space. *)
Lemma normalize_code_point_other c :
  ascii_other c = true -> normalize_code_point c = [].
Proof.
  unfold ascii_other, normalize_code_point. intros H.
  apply andb_true_iff in H as [H Hc]. apply andb_true_iff in H as [H Hs].
  apply andb_true_iff in H as [_ Hu].
  apply negb_true_iff in Hc, Hs, Hu. by rewrite Hu, Hs, Hc.
Qed.

Lemma bind_other (s : pystr) :
  Forall (fun c => ascii_other c = true) s -> s ≫= normalize_code_point = [].
Proof.
  induction 1 as [|c s Hc _ IH]; [done|].
  by rewrite bind_cons, IH, normalize_code_point_other.
Qed.

(** C10, amended.  The result of [normalize_table_name] always holds the
    joining underscore, so it is never empty.  A keyword and a location made
    only of ASCII characters that are no letters, digits, underscores or
    spaces give the one-character name "_", "!!!" and "???" for example;
    capital letters are not among them: they are lowered and kept, so "ABC"
    and "DEF" give "abc_def". *)
Theorem normalize_table_name_nonempty (U : UnicodeDB) (keyword location : pystr) :
  95%N ∈ normalize_table_name U keyword location
  /\ normalize_table_name U keyword location <> []
  /\ (Forall (fun c => ascii_other c = true) (keyword ++ location) ->
      normalize_table_name U keyword location = py "_")
  /\ normalize_table_name U (py "!!!") (py "???") = py "_"
  /\ normalize_table_name U (py "ABC") (py "DEF") = py "abc_def".
Proof.
  split; [apply joiner_kept|]. split; [|split; [|split; reflexivity]].
  - intros H. pose proof (joiner_kept U keyword location) as Hin.
    rewrite H in Hin. by apply elem_of_nil in Hin.
  - intros H. rewrite normalize_ascii.
    + apply Forall_app in H as [Hk Hl].
      by rewrite !bind_app, (bind_other keyword), (bind_other location).
    + eapply Forall_impl; [exact H|]. intros c Hc. unfold ascii_other in Hc.
      repeat (apply andb_true_iff in Hc as [Hc _]). by apply N.ltb_lt.
Qed.

(** ** Sequential mode *)

(** Unfolding a method down to its state, trace and outcome. *)
Ltac run_method :=
  unfold bind, read, modify, emit, ret, raise, lift, log, refresh_keyword_tables,
    state_of, trace_of, outcome_of in *; simpl in *.

(** C7.  [start_scrape] with no collected links shows the "No links" message
    and does nothing else: the window's fields, the cursor and the running
    flag among them, and both databases are as before, no page is loaded, and
    no callback follows. *)
Theorem start_scrape_no_links (U : UnicodeDB) (sql_accepts : pystr -> bool) (g : Gui) :
  links g = [] ->
  start_scrape U sql_accepts g
    = (g, [MessageInfo (py "No links") (py "Collect links first.")], inr tt)
  /\ loaded (trace_of (start_scrape U sql_accepts g)) = []
  /\ (links (state_of (start_scrape U sql_accepts g)),
      links_index (state_of (start_scrape U sql_accepts g)),
      scraping (state_of (start_scrape U sql_accepts g)),
      maps_db (state_of (start_scrape U sql_accepts g)))
     = (links g, links_index g, scraping g, maps_db g)
  /\ forall host fuel,
       session U host sql_accepts fuel g
       = (g, [MessageInfo (py "No links") (py "Collect links first.")], Quiescent).
Proof.
  intros H.
  assert (start_scrape U sql_accepts g
          = (g, [MessageInfo (py "No links") (py "Collect links first.")], inr tt)) as E.
  { unfold start_scrape. run_method. by rewrite H. }
  split; [exact E|]. split; [by rewrite E|]. split; [by rewrite E|].
  intros host fuel. unfold session. rewrite E. simpl. by destruct fuel.
Qed.

Lemma start_scrape_no_links_witness :
  start_scrape basic_latin_db any_table idle_window
    = (idle_window, [MessageInfo (py "No links") (py "Collect links first.")], inr tt).
Proof.
  apply (start_scrape_no_links basic_latin_db any_table idle_window). reflexivity.
Defined.

Lemma percent_nonzero a b :
  b <> 0 -> PyFloat.percent a b = inr (PyFloat.percent_value a b).
Proof.
  intros H. unfold PyFloat.percent, PyFloat.truediv.
  apply Z.eqb_neq in H. by rewrite H.
Qed.

Section Cursor.

Variable U : UnicodeDB.

Lemma set_maps_db_same g : set_maps_db (maps_db g) g = g.
Proof. by destruct g. Qed.

Lemma set_scraping_same g : set_scraping (scraping g) g = g.
Proof. by destruct g. Qed.

(** A failed load schedules nothing and changes nothing. *)
Lemma on_load_finished_failed g : _on_load_finished false g = (g, [], inr tt).
Proof. unfold _on_load_finished. run_method. by destruct (_next_action g). Qed.

Lemma on_load_finished_ok g act :
  _next_action g = Some act ->
  _on_load_finished true g = (g, [SingleShot 600 act], inr tt).
Proof. intros H. unfold _on_load_finished. run_method. by rewrite H. Qed.

Lemma extract_place_runs g : _extract_place g = (g, [RunJavaScript PlaceScript], inr tt).
Proof. reflexivity. Qed.

(** The advance check reads the cursor and the list, nothing else. *)
Lemma process_next_link_load g url :
  links g !! links_index g = Some url ->
  _process_next_link g = (set_next_action (Some ExtractPlace) g, [WebLoad url], inr tt).
Proof.
  intros H. unfold _process_next_link. run_method.
  pose proof (lookup_lt_Some _ _ _ H) as Hlt.
  destruct (Nat.leb_spec (length (links g)) (links_index g)) as [Hle|_]; [lia|].
  by rewrite H.
Qed.

Lemma process_next_link_done g :
  (length (links g) <= links_index g)%nat ->
  _process_next_link g
  = (set_scraping false g, [Log maps (py "Scraping finished."); RefreshTables], inr tt).
Proof.
  intros H. unfold _process_next_link. run_method.
  by destruct (Nat.leb_spec (length (links g)) (links_index g)) as [_|Hlt]; [|lia].
Qed.

(** One store cycle: the row is written or skipped, the cursor moves on,
    the progress bar is set, the next advance is scheduled. *)
Lemma got_place_ok data now g t :
  maps_db g !! get_current_table U maps g = Some t ->
  links g <> [] ->
  exists db' msg,
    _got_place U data now g
    = (set_links_index (links_index g + 1) (set_maps_db db' g),
       [Log maps msg;
        SetProgress maps
          (PyFloat.percent_value (Z.of_nat (links_index g + 1)) (Z.of_nat (length (links g))));
        SingleShot 800 ProcessNextLink],
       inr tt)
    /\ is_Some (db' !! get_current_table U maps g).
Proof.
  intros Ht Hl.
  assert (Z.of_nat (length (links g)) <> 0) as Hn by (destruct (links g); [done | simpl; lia]).
  unfold _got_place. run_method. rewrite Ht.
  match goal with |- context [Sqlite.select_by_key t ?n ?a] =>
    destruct (Sqlite.select_by_key t n a) end; simpl; rewrite (percent_nonzero _ _ Hn).
  - eexists (maps_db g), _. split; [by rewrite set_maps_db_same | by rewrite Ht].
  - eexists _, _. split; [reflexivity|]. simpl. by rewrite lookup_insert_eq.
Qed.

End Cursor.

Section Session.

Variable U : UnicodeDB.
Variable host : Host.

Lemma outside_write_shape step g :
  exists b, outside_write host step g = set_scraping b g.
Proof.
  unfold outside_write. destruct (flag_write host step) as [b|].
  - by exists b.
  - exists (scraping g). by rewrite set_scraping_same.
Qed.

(** One turn of the loop whose callback returns. *)
Lemma event_loop_step fuel step page e queue g g1 out page1 queue1 :
  callback U host step (page_after page e) e (outside_write host step g)
    = (g1, out, inr tt) ->
  page_after page e = page1 ->
  queue ++ pending out = queue1 ->
  event_loop U host (S fuel) step page (e :: queue) g
  = let r := event_loop U host fuel (S step) page1 queue1 g1 in
    (r.1.1, out ++ r.1.2, r.2).
Proof.
  intros H <- <-. simpl. rewrite H.
  by destruct (event_loop U host fuel (S step) _ (queue ++ pending out) g1) as [[? ?] ?].
Qed.

(** Rewriting with [event_loop_step]; [tac] proves what the callback does. *)
Ltac turn tac :=
  erewrite event_loop_step; [ | simpl; tac | reflexivity | simpl; reflexivity ];
  cbn zeta.

Hypothesis all_load : forall url, load_ok host url = true.

(** One cycle: load finished, settle delay, extraction, store write.  The
    loop is left with the next advance check queued. *)
Lemma cycle_run fuel g step page url :
  _next_action g = Some ExtractPlace ->
  is_Some (maps_db g !! get_current_table U maps g) ->
  links g <> [] ->
  exists g3 msg,
    event_loop U host (S (S (S fuel))) step page [WebLoad url] g
    = (let r := event_loop U host fuel (S (S (S step))) url
                  [SingleShot 800 ProcessNextLink] g3 in
       (r.1.1,
        [SingleShot 600 ExtractPlace; RunJavaScript PlaceScript; Log maps msg;
         SetProgress maps
           (PyFloat.percent_value (Z.of_nat (links_index g + 1)) (Z.of_nat (length (links g))));
         SingleShot 800 ProcessNextLink] ++ r.1.2,
        r.2))
    /\ links g3 = links g
    /\ links_index g3 = (links_index g + 1)%nat
    /\ current_keyword g3 = current_keyword g
    /\ current_location g3 = current_location g
    /\ is_Some (maps_db g3 !! get_current_table U maps g).
Proof.
  intros Hact [t Ht] Hl.
  destruct (outside_write_shape step g) as [b0 Hb0].
  destruct (outside_write_shape (S step) (set_scraping b0 g)) as [b1 Hb1].
  destruct (outside_write_shape (S (S step)) (set_scraping b1 (set_scraping b0 g)))
    as [b2 Hb2].
  destruct (got_place_ok U (place_data host url) (utcnow host (S (S step)))
              (set_scraping b2 (set_scraping b1 (set_scraping b0 g))) t)
    as (db' & msg & Hgot & Hdb'); [exact Ht | exact Hl | ].
  eexists _, msg. split.
  - turn ltac:(rewrite all_load, Hb0; by apply on_load_finished_ok).
    turn ltac:(rewrite Hb1; apply extract_place_runs).
    turn ltac:(rewrite Hb2; exact Hgot).
    reflexivity.
  - simpl. repeat split; try done.
Qed.

(** From a load in flight to the end of the list: every remaining link is
    loaded in order, each with one extraction and one progress value. *)
Lemma cursor_run k : forall g step page url,
  links g !! links_index g = Some url ->
  length (links g) = (links_index g + S k)%nat ->
  _next_action g = Some ExtractPlace ->
  is_Some (maps_db g !! get_current_table U maps g) ->
  exists g' out,
    event_loop U host (4 * k + 4) step page [WebLoad url] g = (g', out, Quiescent)
    /\ loaded out = drop (S (links_index g)) (links g)
    /\ progress_values maps out
       = (fun i => PyFloat.percent_value (Z.of_nat i) (Z.of_nat (length (links g))))
           <$> seq (S (links_index g)) (S k)
    /\ extractions out = S k
    /\ store_cycles out = S k
    /\ links g' = links g
    /\ links_index g' = length (links g)
    /\ scraping g' = false.
Proof.
  induction k as [|k IH]; intros g step page url Hurl Hlen Hact Ht.
  - destruct (cycle_run 1 g step page url) as (g3 & msg & Hrun & Hl3 & Hi3 & Hk3 & Hc3 & Ht3);
      [done | done | by destruct (links g); [simpl in Hlen; lia|] | ].
    change (4 * 0 + 4)%nat with 4%nat. rewrite Hrun. clear Hrun.
    destruct (outside_write_shape (S (S (S step))) g3) as [b3 Hb3].
    turn ltac:(rewrite Hb3; apply process_next_link_done; simpl; rewrite Hl3, Hi3; lia).
    simpl.
    eexists _, _. split; [reflexivity|]. simpl.
    rewrite drop_ge by lia. rewrite Nat.add_1_r. repeat split; try done. lia.
  - destruct (cycle_run (4 * k + 4 + 1) g step page url)
      as (g3 & msg & Hrun & Hl3 & Hi3 & Hk3 & Hc3 & Ht3);
      [done | done | by destruct (links g); [simpl in Hlen; lia|] | ].
    replace (4 * S k + 4)%nat with (S (S (S (4 * k + 4 + 1)))) by lia.
    rewrite Hrun. clear Hrun.
    assert (is_Some (links g !! S (links_index g))) as [url' Hurl'].
    { apply lookup_lt_is_Some. lia. }
    destruct (outside_write_shape (S (S (S step))) g3) as [b3 Hb3].
    replace (4 * k + 4 + 1)%nat with (S (4 * k + 4)) by lia.
    turn ltac:(rewrite Hb3; apply process_next_link_load; simpl;
               rewrite Hl3, Hi3, Nat.add_1_r; exact Hurl').
    destruct (IH (set_next_action (Some ExtractPlace) (set_scraping b3 g3))
                (S (S (S (S step)))) url url')
      as (g' & out & Hrun & Hloaded & Hprog & Hext & Hsto & Hl & Hi & Hs).
    + simpl. by rewrite Hl3, Hi3, Nat.add_1_r.
    + simpl. rewrite Hl3, Hi3. lia.
    + reflexivity.
    + unfold get_current_table in *. simpl. by rewrite Hk3, Hc3.
    + simpl in Hrun. simpl. rewrite Hrun. simpl in *.
      rewrite Hl3, Hi3, Nat.add_1_r in *.
      eexists _, _. split; [reflexivity|].
      repeat split; try done.
      * simpl. rewrite Hloaded. symmetry. by apply drop_S.
      * simpl. by rewrite Hprog.
      * simpl. by rewrite Hext.
      * simpl. by rewrite Hsto.
Qed.

End Session.

Section StartedSession.

Variable U : UnicodeDB.
Variable host : Host.
Variable sql_accepts : pystr -> bool.

(** Start Scrape with links collected: the table is there afterwards, the
    cursor is at the first link and that link is being loaded. *)
Lemma start_scrape_ok g url rest :
  links g = url :: rest ->
  sql_accepts (get_current_table U maps g) = true ->
  exists g1,
    start_scrape U sql_accepts g = (g1, [SetProgress maps 0; WebLoad url], inr tt)
    /\ links g1 = links g
    /\ links_index g1 = 0%nat
    /\ scraping g1 = true
    /\ _next_action g1 = Some ExtractPlace
    /\ is_Some (maps_db g1 !! get_current_table U maps g1).
Proof.
  intros Hl Hsql. unfold start_scrape, ensure_table, _process_next_link.
  unfold get_current_table in Hsql. run_method. rewrite Hl, Hsql. simpl. rewrite Hl. simpl.
  eexists. split; [reflexivity|]. simpl. repeat split; try done.
  unfold get_current_table, create_if_missing. simpl.
  destruct (maps_db g !! _) eqn:E; [by rewrite E | by rewrite lookup_insert_eq].
Qed.

Hypothesis all_load : forall url, load_ok host url = true.

(** A session over [n] collected links, every page loading: [4 * n]
    callbacks bring it to rest, with every link loaded once, in order. *)
Lemma session_run g :
  links g <> [] ->
  sql_accepts (get_current_table U maps g) = true ->
  exists g' out,
    session U host sql_accepts (4 * length (links g)) g = (g', out, Quiescent)
    /\ loaded out = links g
    /\ progress_values maps out
       = 0 :: ((fun i => PyFloat.percent_value (Z.of_nat i) (Z.of_nat (length (links g))))
                 <$> seq 1 (length (links g)))
    /\ extractions out = length (links g)
    /\ store_cycles out = length (links g)
    /\ links_index g' = length (links g)
    /\ scraping g' = false.
Proof.
  intros Hne Hsql. destruct (links g) as [|url rest] eqn:Hl; [done|].
  destruct (start_scrape_ok g url rest Hl Hsql) as (g1 & Hstart & Hl1 & Hi1 & _ & Ha1 & Ht1).
  destruct (cursor_run U host all_load (length rest) g1 0%nat [] url)
    as (g' & out & Hrun & Hloaded & Hprog & Hext & Hsto & Hl' & Hi' & Hs');
    [by rewrite Hl1, Hi1, Hl | rewrite Hl1, Hi1, Hl; simpl; lia | done | done |].
  unfold session. rewrite Hstart. simpl pending.
  replace (4 * length (url :: rest))%nat with (4 * length rest + 4)%nat by (simpl; lia).
  rewrite Hrun. eexists _, _. split; [reflexivity|].
  rewrite Hl1, Hi1, Hl in *. simpl in *.
  repeat split; try done.
  - by rewrite Hloaded.
  - by rewrite Hprog.
Qed.

End StartedSession.

(** C4, the code at the failing input.  [_on_load_finished(False)] returns
    without scheduling anything and without touching the cursor.  With A and
    B collected and the load of A failing, the session comes to rest right
    after asking for A: no extraction, no row, the cursor still at 0, B never
    asked for, and the window still marked as scraping. *)
Theorem failed_load_stalls_session (g : Gui) :
  _on_load_finished false g = (g, [], inr tt)
  /\ (let r := session basic_latin_db failing_host any_table 100 window_AB in
      r.1.2 = [SetProgress maps 0; WebLoad (py "A")]
      /\ r.2 = Quiescent
      /\ loaded r.1.2 = [py "A"]
      /\ extractions r.1.2 = 0%nat
      /\ links_index r.1.1 = 0%nat
      /\ scraping r.1.1 = true
      /\ maps_db r.1.1 !! py "cafes_pune" = Some []).
Proof.
  split; [apply on_load_finished_failed|]. by vm_compute.
Qed.

(** ** The running flag *)

(** C8, as stated, fails: with the flag cleared while B is processed, the
    advance check that follows still loads C. *)
Lemma stop_during_B_still_loads_C :
  scraping window_after_B = false
  /\ _process_next_link window_after_B
     = (window_after_B, [WebLoad (py "C")], inr tt)
  /\ (let r := session basic_latin_db stopping_host any_table 12 window_ABC in
      loaded r.1.2 = [py "A"; py "B"; py "C"] /\ extractions r.1.2 = 3%nat /\ r.2 = Quiescent).
Proof. by vm_compute. Qed.

(** C8, amended.  The advance check never reads the running flag: it asks for
    [links[links_index]] whenever the cursor is inside the list and ends the
    session only when the cursor has reached the end.  Whatever is written to
    the flag during a session, every collected link is loaded. *)
Theorem running_flag_not_consulted (U : UnicodeDB) (host : Host)
    (sql_accepts : pystr -> bool) (g : Gui) :
  (forall url, load_ok host url = true) ->
  links g <> [] ->
  sql_accepts (get_current_table U maps g) = true ->
  (forall b url, links g !! links_index g = Some url ->
     _process_next_link (set_scraping b g)
     = (set_next_action (Some ExtractPlace) (set_scraping b g), [WebLoad url], inr tt))
  /\ (forall b, (length (links g) <= links_index g)%nat ->
        _process_next_link (set_scraping b g)
        = (set_scraping false g, [Log maps (py "Scraping finished."); RefreshTables], inr tt))
  /\ exists g' out,
       session U host sql_accepts (4 * length (links g)) g = (g', out, Quiescent)
       /\ loaded out = links g.
Proof.
  intros Hload Hne Hsql. split; [|split].
  - intros b url Hurl. by apply process_next_link_load.
  - intros b Hend. rewrite process_next_link_done by done. by destruct g.
  - destruct (session_run U host sql_accepts Hload g Hne Hsql) as (g' & out & Hrun & Hl & _).
    by exists g', out.
Qed.

Lemma running_flag_not_consulted_witness :
  exists g' out,
    session basic_latin_db stopping_host any_table 12 window_ABC = (g', out, Quiescent)
    /\ loaded out = [py "A"; py "B"; py "C"].
Proof.
  apply (running_flag_not_consulted basic_latin_db stopping_host any_table window_ABC);
    [intros; reflexivity | discriminate | reflexivity].
Defined.

(** ** The duplicate check *)

Section Store.

Context {R : Type} `{Keyed R}.

Lemma select_by_key_None (t : list R) name address :
  Sqlite.select_by_key t name address = None <-> (name, address) ∉ keys t.
Proof.
  unfold Sqlite.select_by_key, keys. rewrite head_None. split.
  - intros Hnil Hin. apply list_elem_of_fmap in Hin as (r & Hr & Hin).
    exact (filter_nil_not_elem_of _ _ _ Hnil (eq_sym Hr) Hin).
  - intros Hnot. destruct (filter _ t) as [|r rest] eqn:E; [done|].
    assert (r ∈ filter (fun r => row_key r = (name, address)) t) as Hr by (rewrite E; left).
    apply list_elem_of_filter in Hr as [Hk Hr]. destruct Hnot.
    apply list_elem_of_fmap. by exists r.
Qed.

Lemma select_by_key_Some (t : list R) name address :
  (name, address) ∈ keys t -> is_Some (Sqlite.select_by_key t name address).
Proof.
  intros Hin. destruct (Sqlite.select_by_key t name address) eqn:E; [done|].
  by apply select_by_key_None in E.
Qed.

(** Appending a row whose key is new keeps the keys distinct. *)
Lemma NoDup_keys_snoc (t : list R) (r : R) :
  NoDup (keys t) -> row_key r ∉ keys t -> NoDup (keys (t ++ [r])).
Proof.
  intros Hnd Hnew. unfold keys in *. rewrite fmap_app. apply NoDup_app.
  split; [done|]. split; [|apply NoDup_singleton].
  intros k Hk Hk'. apply list_elem_of_singleton in Hk'. by subst.
Qed.

Lemma dedup_insert (db : gmap pystr (list R)) tname (t : list R) (r : R) :
  dedup db -> db !! tname = Some t -> row_key r ∉ keys t ->
  dedup (<[tname := t ++ [r]]> db).
Proof.
  intros Hdb Ht Hnew tname' t' Hlook.
  destruct (decide (tname = tname')) as [<-|Hne].
  - rewrite lookup_insert_eq in Hlook. injection Hlook as <-.
    apply NoDup_keys_snoc; [by eapply Hdb | done].
  - rewrite lookup_insert_ne in Hlook by done. by eapply Hdb.
Qed.

End Store.

Section SavePaths.

Variable U : UnicodeDB.

Lemma maps_row_key t data g now : row_key (maps_row t data g now) = data_key data.
Proof. reflexivity. Qed.

Lemma justdial_row_key data g : row_key (justdial_row data g) = data_key data.
Proof. reflexivity. Qed.

Lemma got_place_dedup data now g :
  dedup (maps_db g) -> dedup (maps_db (state_of (_got_place U data now g))).
Proof.
  intros Hdb. unfold _got_place. run_method.
  destruct (maps_db g !! _) as [t|] eqn:Ht; [|done].
  match goal with |- context [Sqlite.select_by_key t ?n ?a] =>
    destruct (Sqlite.select_by_key t n a) eqn:Hsel end; simpl.
  - by destruct (PyFloat.percent _ _).
  - apply select_by_key_None in Hsel.
    destruct (PyFloat.percent _ _); simpl; by apply dedup_insert.
Qed.

Lemma save_justdial_data_dedup data g :
  dedup (justdial_db g) -> dedup (justdial_db (state_of (save_justdial_data U data g))).
Proof.
  intros Hdb. unfold save_justdial_data. run_method.
  destruct (justdial_db g !! _) as [t|] eqn:Ht; [|done].
  match goal with |- context [Sqlite.select_by_key t ?n ?a] =>
    destruct (Sqlite.select_by_key t n a) eqn:Hsel end; simpl; [done|].
  apply select_by_key_None in Hsel.
  destruct (Sqlite.id_taken t (data !! "id")); simpl; [done|]. by apply dedup_insert.
Qed.

Lemma got_places_dedup ops g :
  dedup (maps_db g) -> dedup (maps_db (got_places U ops g)).
Proof.
  revert g. induction ops as [|op ops IH]; intros g Hdb; [done|].
  simpl. apply IH. by apply got_place_dedup.
Qed.

Lemma saves_dedup ops g :
  dedup (justdial_db g) -> dedup (justdial_db (saves U ops g)).
Proof.
  revert g. induction ops as [|data ops IH]; intros g Hdb; [done|].
  simpl. apply IH. by apply save_justdial_data_dedup.
Qed.

(** A save of a pair the table holds writes nothing and logs the skip. *)
Lemma got_place_skip data now g t :
  maps_db g !! get_current_table U maps g = Some t ->
  data_key data ∈ keys t ->
  maps_db (state_of (_got_place U (Some data) now g)) = maps_db g
  /\ log_lines maps (trace_of (_got_place U (Some data) now g))
     = [py "Skipped duplicate: " ++ dict_get data "name" (py "")].
Proof.
  intros Ht Hin. apply select_by_key_Some in Hin as [r Hr].
  unfold data_key in Hr. simpl in Hr.
  unfold _got_place. run_method. rewrite Ht, Hr. simpl.
  by destruct (PyFloat.percent _ _).
Qed.

Lemma save_justdial_data_skip data g t :
  justdial_db g !! get_current_table U justdial g = Some t ->
  data_key data ∈ keys t ->
  save_justdial_data U data g
  = (g, [Log justdial (py "Skipped duplicate: " ++ dict_get data "name" (py ""))], inr tt).
Proof.
  intros Ht Hin. apply select_by_key_Some in Hin as [r Hr].
  unfold data_key in Hr. simpl in Hr.
  unfold save_justdial_data. run_method. by rewrite Ht, Hr.
Qed.

(** A save of a new pair appends one row with that pair. *)
Lemma got_place_insert data now g t :
  maps_db g !! get_current_table U maps g = Some t ->
  data_key data ∉ keys t ->
  maps_db (state_of (_got_place U (Some data) now g)) !! get_current_table U maps g
  = Some (t ++ [maps_row t data g now])
  /\ head (log_lines maps (trace_of (_got_place U (Some data) now g)))
     = Some (py "Saved: " ++ dict_get data "name" (py "")).
Proof.
  intros Ht Hnew. apply select_by_key_None in Hnew.
  unfold data_key in Hnew. simpl in Hnew.
  unfold _got_place. run_method. rewrite Ht, Hnew. simpl.
  destruct (PyFloat.percent _ _); simpl; by rewrite lookup_insert_eq.
Qed.

End SavePaths.

(** C1.  Whatever saves are run, in Maps mode through [_got_place] or in
    snapshot mode through [save_justdial_data], a database whose tables hold
    no [(name, address)] pair twice stays so; and a save whose pair is in the
    current table leaves the database as it is and logs "Skipped duplicate"
    and nothing else. *)
Theorem saves_keep_keys_unique (U : UnicodeDB) (g : Gui) :
  dedup (maps_db g) ->
  dedup (justdial_db g) ->
  (forall ops, dedup (maps_db (got_places U ops g)))
  /\ (forall ops, dedup (justdial_db (saves U ops g)))
  /\ (forall data now t,
        maps_db g !! get_current_table U maps g = Some t ->
        data_key data ∈ keys t ->
        maps_db (state_of (_got_place U (Some data) now g)) = maps_db g
        /\ log_lines maps (trace_of (_got_place U (Some data) now g))
           = [py "Skipped duplicate: " ++ dict_get data "name" (py "")])
  /\ (forall data t,
        justdial_db g !! get_current_table U justdial g = Some t ->
        data_key data ∈ keys t ->
        save_justdial_data U data g
        = (g, [Log justdial (py "Skipped duplicate: " ++ dict_get data "name" (py ""))],
           inr tt)).
Proof.
  intros Hm Hj. split; [|split; [|split]].
  - intros ops. by apply got_places_dedup.
  - intros ops. by apply saves_dedup.
  - intros data now t. apply got_place_skip.
  - intros data t. apply save_justdial_data_skip.
Qed.

Lemma dedup_empty {R} `{Keyed R} : dedup (∅ : gmap pystr (list R)).
Proof. intros tname t Hlook. by rewrite lookup_empty in Hlook. Qed.

Lemma dedup_singleton {R} `{Keyed R} tname (r : R) :
  dedup ({[ tname := [r] ]} : gmap pystr (list R)).
Proof.
  intros tname' t Hlook. apply lookup_singleton_Some in Hlook as [_ <-].
  apply NoDup_singleton.
Qed.

Lemma saves_keep_keys_unique_witness :
  (forall ops, dedup (maps_db (got_places basic_latin_db ops stocked_window)))
  /\ maps_db (state_of (_got_place basic_latin_db (Some joes_cafe) (py "2024-02-02T00:00:00")
                          stocked_window))
     = maps_db stocked_window
  /\ log_lines maps
       (trace_of (_got_place basic_latin_db (Some joes_cafe) (py "2024-02-02T00:00:00")
                    stocked_window))
     = [py "Skipped duplicate: Joe's Cafe"].
Proof.
  destruct (saves_keep_keys_unique basic_latin_db stocked_window) as (Hm & _ & Hskip & _).
  - apply dedup_singleton.
  - apply dedup_empty.
  - split; [exact Hm|].
    eapply Hskip; [reflexivity | by vm_compute; left].
Defined.

(** The specification's example: Joe's Cafe saved twice from an empty table
    is stored once, through either path. *)
Example joes_cafe_twice :
  let started := state_of (start_scrape basic_latin_db any_table window_AB) in
  let twice :=
    got_places basic_latin_db [(Some joes_cafe, py "t1"); (Some joes_cafe, py "t2")] started in
  (m_name <$> default [] (maps_db twice !! py "cafes_pune")) = [py "Joe's Cafe"]
  /\ let ready := state_of (start_justdial_scrape basic_latin_db any_table
                              (py "Cafes") (py "Pune") true idle_window) in
     let twice := saves basic_latin_db [joes_cafe; joes_cafe] ready in
     (j_name <$> default [] (justdial_db twice !! py "cafes_pune")) = [py "Joe's Cafe"].
Proof. by vm_compute. Qed.

(** ** Snapshot mode *)

(** *** Progress arithmetic

    For totals within the range of the cap's spin box (1 to 200) the float
    expression is checked value by value. *)

Lemma row_ok_spec m : forall n i prev,
  row_ok m prev i n = true ->
  forall j, (i <= j < i + n)%nat ->
    point_ok m j (pv m j) = true
    /\ (if (j =? i)%nat then prev else pv m (pred j)) <= pv m j.
Proof.
  induction n as [|n IH]; intros i prev H j Hj; [lia|].
  simpl in H. apply andb_true_iff in H as [H Hrest].
  apply andb_true_iff in H as [Hpoint Hprev]. apply Z.leb_le in Hprev.
  destruct (Nat.eqb_spec j i) as [->|Hne]; [done|].
  destruct (IH (S i) (pv m i) Hrest j) as [Hp Hle]; [lia|].
  split; [done|].
  destruct (Nat.eqb_spec j (S i)) as [->|_]; [by simpl|done].
Qed.

Lemma table_ok_spec : forall n m,
  table_ok m n = true ->
  forall m', (m <= m' < m + n)%nat -> row_ok m' 0 1 m' = true.
Proof.
  induction n as [|n IH]; intros m H m' Hm'; [lia|].
  simpl in H. apply andb_true_iff in H as [Hrow Hrest].
  destruct (decide (m' = m)) as [->|Hne]; [done|].
  apply (IH (S m) Hrest). lia.
Qed.

Lemma progress_table_200 : table_ok 1 200 = true.
Proof. vm_compute. reflexivity. Qed.

Lemma progress_facts (m i : nat) :
  (1 <= i <= m)%nat -> (m <= 200)%nat ->
  100 * Z.of_nat i / Z.of_nat m - 1 <= pv m i <= 100 * Z.of_nat i / Z.of_nat m
  /\ 0 <= pv m i <= 100
  /\ (pv m i = 100 <-> i = m)
  /\ ((2 <= i)%nat -> pv m (pred i) <= pv m i).
Proof.
  intros Hi Hm.
  pose proof (table_ok_spec 200 1 progress_table_200 m ltac:(lia)) as Hrow.
  destruct (row_ok_spec m m 1 0 Hrow i ltac:(lia)) as [Hpoint Hmono].
  unfold point_ok in Hpoint.
  repeat (apply andb_true_iff in Hpoint as [Hpoint ?]).
  apply Bool.eqb_prop in H.
  repeat match goal with
         | X : (_ <=? _) = true |- _ => apply Z.leb_le in X
         end.
  repeat split; try lia.
  - intros Hv. apply Nat.eqb_eq. rewrite <- H. by apply Z.eqb_eq.
  - intros ->. apply Z.eqb_eq. rewrite H. by apply Nat.eqb_eq.
  - intros Hi2. destruct (Nat.eqb_spec i 1) as [->|_]; [lia|done].
Qed.

Section WorkerFacts.

Variable w : JustDialScraper.

Lemma handled_le i items : (handled w i items <= length items)%nat.
Proof.
  revert i. induction items as [|d items IH]; intros i; simpl; [lia|].
  destruct (negb _ || _); [lia|]. specialize (IH (S i)). lia.
Qed.

(** The cap bounds the index of every item handled. *)
Lemma handled_cap i items :
  (0 < handled w i items)%nat -> Z.of_nat (i + handled w i items) <= max_listings w.
Proof.
  revert i. induction items as [|d items IH]; intros i; simpl; [lia|].
  destruct (negb _ || _) eqn:E; [lia|]. intros _.
  apply orb_false_iff in E as [_ E]. apply Z.leb_gt in E.
  destruct (handled w (S i) items) eqn:Hh; [lia|].
  specialize (IH (S i)). rewrite Hh in IH. lia.
Qed.

(** With the flag never cleared, only the batch and the cap end the loop. *)
Lemma handled_all i items :
  (forall j, _is_running w j = true) ->
  handled w i items = Nat.min (length items) (Z.to_nat (max_listings w) - i).
Proof.
  intros Hrun. revert i. induction items as [|d items IH]; intros i; [done|].
  cbn [handled length]. rewrite Hrun. cbn [negb orb].
  destruct (Z.leb_spec (max_listings w) (Z.of_nat i)); [lia|].
  rewrite IH. lia.
Qed.

(** A flag read as false at index [i + k] ends the loop there at the latest. *)
Lemma handled_stop i k items :
  _is_running w (i + k) = false -> (handled w i items <= k)%nat.
Proof.
  revert i k. induction items as [|d items IH]; intros i k Hstop; simpl; [lia|].
  destruct k as [|k].
  - rewrite Nat.add_0_r in Hstop. by rewrite Hstop.
  - destruct (negb _ || _); [lia|].
    specialize (IH (S i) k). rewrite <- Nat.add_succ_comm in Hstop.
    specialize (IH Hstop). lia.
Qed.

(** The loop's signals: for each item handled its record and then its
    progress value; no status line, no completion, no exception. *)
Lemma process_loop_ok n : (1 <= n)%nat -> forall items i,
  (process_loop w n i items).2 = None
  /\ progress_of (process_loop w n i items).1
     = (fun j => PyFloat.percent_value (Z.of_nat j) (shown_total w n))
         <$> seq (S i) (handled w i items)
  /\ data_of (process_loop w n i items).1
     = zip_with (data_with_meta w) (seq i (handled w i items)) items
  /\ status_of (process_loop w n i items).1 = []
  /\ finished_count (process_loop w n i items).1 = 0%nat.
Proof.
  intros Hn. induction items as [|d items IH]; intros i; simpl; [done|].
  destruct (negb _ || _) eqn:E; [done|].
  apply orb_false_iff in E as [_ E]. apply Z.leb_gt in E.
  rewrite percent_nonzero by (unfold shown_total; lia).
  destruct (IH (S i)) as (Hr & Hp & Hd & Hs & Hf).
  destruct (process_loop w n (S i) items) as [out r]. simpl in *.
  replace (Z.of_nat i + 1) with (Z.of_nat (S i)) by lia.
  by rewrite Hp, Hd.
Qed.

End WorkerFacts.

Lemma progress_of_app a b : progress_of (a ++ b) = progress_of a ++ progress_of b.
Proof. apply omap_app. Qed.

Lemma data_of_app a b : data_of (a ++ b) = data_of a ++ data_of b.
Proof. apply omap_app. Qed.

Lemma status_of_app a b : status_of (a ++ b) = status_of a ++ status_of b.
Proof. apply omap_app. Qed.


(** What [process_results] emits for a non-empty list. *)
Lemma process_results_nonempty w (items : list dict) :
  items <> [] ->
  process_results w (PyList items)
  = (status_signal (found_line (length items))
       :: (process_loop w (length items) 0 items).1
       ++ [status_signal (finished_line w (length items)); finished_signal],
     None).
Proof.
  intros Hne. destruct items as [|d rest]; [done|].
  destruct (process_loop_ok w (length (d :: rest)) ltac:(simpl; lia) (d :: rest) 0%nat)
    as (Hr & _).
  unfold process_results.
  destruct (process_loop w (length (d :: rest)) 0 (d :: rest)) as [out r].
  simpl in Hr. by subst r.
Qed.

(** C6, as stated, fails twice over.  A run halted by cancellation after two
    of five records has emitted 20 and 40 and completes without reaching
    100; and with 100 records under a cap of 100 the value after the 29th is
    28, not floor(100 * 29 / 100) = 29. *)
Lemma progress_claim_refuted :
  (let out := (run cancelled_worker (JsReturns (PyList five_items))).1 in
   progress_of out = [20; 40]
   /\ length (data_of out) = 2%nat
   /\ finished_count out = 1%nat)
  /\ (let out := (run (steady_worker 100) (JsReturns (PyList (numbered_items 100)))).1 in
      progress_of out !! 28%nat = Some 28
      /\ 100 * 29 / Z.min 100 100 = 29).
Proof. by vm_compute. Qed.

(** C6, amended.  For a batch of [n >= 1] records and a cap [c] from 1 to
    200, with [m = min(n, c)] and [k] the number of records handled: the
    value emitted after the i-th record is [int((i / m) * 100)], which is
    floor(100 * i / m) or one less and lies between 0 and 100; the values
    never decrease; 100 is emitted exactly when all [m] records were handled,
    which is so whenever the flag is never cleared; a run whose flag reads
    false before [m] records were handled never emits 100. *)
Theorem snapshot_progress (w : JustDialScraper) (items : list dict) :
  1 <= max_listings w <= 200 ->
  items <> [] ->
  let m := Z.to_nat (shown_total w (length items)) in
  let k := handled w 0 items in
  let ps := progress_of (process_results w (PyList items)).1 in
  ps = pv m <$> seq 1 k
  /\ (k <= m)%nat
  /\ Forall (fun v => 0 <= v <= 100) ps
  /\ (forall i v, ps !! i = Some v ->
        100 * Z.of_nat (S i) / Z.of_nat m - 1 <= v <= 100 * Z.of_nat (S i) / Z.of_nat m)
  /\ (forall i v v', ps !! i = Some v -> ps !! S i = Some v' -> v <= v')
  /\ (100 ∈ ps <-> k = m)
  /\ ((forall j, _is_running w j = true) -> k = m)
  /\ (forall j, (j < m)%nat -> _is_running w j = false -> (k <= j)%nat /\ 100 ∉ ps).
Proof.
  intros Hcap Hne m k ps.
  assert (1 <= length items)%nat as Hn by (destruct items; [done | simpl; lia]).
  assert (Z.of_nat m = shown_total w (length items)) as Hm
    by (subst m; unfold shown_total; lia).
  assert (1 <= m <= 200)%nat as Hm200 by (subst m; unfold shown_total; lia).
  assert (k <= m)%nat as Hkm.
  { subst k m. pose proof (handled_le w 0 items). pose proof (handled_cap w 0 items).
    unfold shown_total. lia. }
  assert (ps = pv m <$> seq 1 k) as Hps.
  { subst ps. rewrite process_results_nonempty by done. cbn [fst].
    change (progress_of (?s :: ?l)) with (progress_of ([s] ++ l)).
    rewrite !progress_of_app. simpl. rewrite app_nil_r.
    destruct (process_loop_ok w (length items) Hn items 0%nat) as (_ & Hp & _).
    rewrite Hp. unfold pv. by rewrite Hm. }
  assert (forall i v, ps !! i = Some v -> v = pv m (S i) /\ (S i <= k)%nat) as Hlook.
  { intros i v Hv. rewrite Hps, list_lookup_fmap in Hv.
    destruct (seq 1 k !! i) as [j|] eqn:Hj; [|done].
    apply lookup_seq in Hj as [-> Hj]. simpl in Hv. by injection Hv as <-. }
  assert (100 ∈ ps <-> k = m) as H100.
  { split.
    - intros Hin. apply list_elem_of_lookup in Hin as [i Hi].
      apply Hlook in Hi as [Hv Hi].
      destruct (progress_facts m (S i)) as (_ & _ & Hiff & _); [lia | lia |].
      symmetry in Hv. apply Hiff in Hv. lia.
    - intros Hk. rewrite Hps. apply list_elem_of_fmap. exists m. split.
      + symmetry. by apply (progress_facts m m); lia.
      + apply elem_of_seq. lia. }
  split; [exact Hps|]. split; [exact Hkm|]. split; [|split; [|split; [|split; [|split]]]].
  - apply Forall_lookup. intros i v Hv. apply Hlook in Hv as [-> Hi].
    by apply (progress_facts m (S i)); lia.
  - intros i v Hv. apply Hlook in Hv as [-> Hi].
    by apply (progress_facts m (S i)); lia.
  - intros i v v' Hv Hv'. apply Hlook in Hv as [-> _]. apply Hlook in Hv' as [-> Hi].
    destruct (progress_facts m (S (S i))) as (_ & _ & _ & Hmono); [lia | lia |].
    apply Hmono. lia.
  - exact H100.
  - intros Hrun. subst k m. rewrite handled_all by done. unfold shown_total. lia.
  - intros j Hj Hstop. pose proof (handled_stop w 0 j items Hstop) as Hle.
    split; [exact Hle|]. rewrite H100. fold k in Hle. lia.
Qed.

Lemma snapshot_progress_witness :
  progress_of (process_results cancelled_worker (PyList five_items)).1
  = pv 5 <$> seq 1 (handled cancelled_worker 0 five_items).
Proof.
  apply (snapshot_progress cancelled_worker five_items); [simpl; lia | discriminate].
Defined.



(** ** Records without a name *)

Lemma extract_has_name listing data :
  PageScript.extractListingData listing = Some data ->
  exists name, data !! "name" = Some name /\ proper_name name.
Proof.
  unfold PageScript.extractListingData.
  set (name := match PageScript.name_text listing with
               | Some t => PageScript.trim t
               | None => py "N/A"
               end).
  destruct (PageScript.is_empty name) eqn:Hempty; [done|].
  destruct (bool_decide (name = py "N/A")) eqn:Hna; [done|]. simpl.
  intros [= <-]. exists name. split; [reflexivity|]. split.
  - intros ->. done.
  - by apply bool_decide_eq_false in Hna.
Qed.

Lemma collect_has_name seen listings data :
  data ∈ PageScript.collect seen listings ->
  exists name, data !! "name" = Some name /\ proper_name name.
Proof.
  revert seen. induction listings as [|listing rest IH]; intros seen Hin; simpl in Hin.
  - by apply elem_of_nil in Hin.
  - destruct (PageScript.extractListingData listing) as [d|] eqn:Hd; [|by eapply IH].
    destruct (negb _ && negb _); [|by eapply IH].
    apply elem_of_cons in Hin as [->|Hin]; [by eapply extract_has_name | by eapply IH].
Qed.

(** The name a record carries once the worker has added its id and time. *)
Lemma data_with_meta_name w i data :
  dict_get (data_with_meta w i data) "name" (py "") = dict_get data "name" (py "N/A").
Proof. reflexivity. Qed.

(** C5, as stated, fails in Maps mode: the record of a place page without a
    heading has an empty name, and [_got_place] stores it. *)
Lemma nameless_place_is_stored :
  let started := state_of (start_scrape basic_latin_db any_table window_AB) in
  let r := _got_place basic_latin_db (Some no_heading) (py "2024-01-01T00:00:00") started in
  (m_name <$> default [] (maps_db (state_of r) !! py "cafes_pune")) = [py ""]
  /\ log_lines maps (trace_of r) = [py "Saved: "]
  /\ outcome_of r = inr tt.
Proof. by vm_compute. Qed.

(** * Further properties *)

(** ** Queries that share a table *)

Lemma normalize_code_point_lower c :
  (c < 128)%N -> normalize_code_point (PyStr.ascii_lower c) = normalize_code_point c.
Proof.
  intros Hc. unfold PyStr.ascii_lower.
  destruct ((65 <=? c) && (c <=? 90))%N eqn:Hup; [|done].
  unfold normalize_code_point. rewrite Hup.
  assert (((65 <=? c + 32) && (c + 32 <=? 90))%N = false) as ->.
  { code_points. apply andb_false_iff. right. apply N.leb_gt. lia. }
  assert ((c + 32 =? 32)%N = false) as -> by (code_points; lia).
  assert (PyStr.in_class (c + 32) = true) as ->; [|done].
  apply in_class_spec. code_points. lia.
Qed.

Lemma bind_lower (s : pystr) :
  Forall (fun c => (c < 128)%N) s ->
  (PyStr.ascii_lower <$> s) ≫= normalize_code_point = s ≫= normalize_code_point.
Proof.
  induction 1 as [|c s Hc _ IH]; [done|].
  by rewrite fmap_cons, !bind_cons, IH, normalize_code_point_lower.
Qed.

Lemma Forall_ascii_lower (s : pystr) :
  Forall (fun c => (c < 128)%N) s -> Forall (fun c => (c < 128)%N) (PyStr.ascii_lower <$> s).
Proof.
  intros H. apply Forall_fmap. eapply Forall_impl; [exact H|].
  intros c Hc. simpl. unfold PyStr.ascii_lower.
  destruct ((65 <=? c) && (c <=? 90))%N eqn:Hup; [|done]. code_points. lia.
Qed.

(** X1.  On ASCII text, a word moved across the boundary between keyword
    and location, and a change of letter case, give the same table name. *)
Theorem normalize_table_name_collides (U : UnicodeDB) (a b c : pystr) :
  Forall (fun x => (x < 128)%N) (a ++ b ++ c) ->
  normalize_table_name U (a ++ py " " ++ b) c = normalize_table_name U a (b ++ py " " ++ c)
  /\ normalize_table_name U (PyStr.ascii_lower <$> a) (PyStr.ascii_lower <$> c)
     = normalize_table_name U a c.
Proof.
  intros H. apply Forall_app in H as [Ha H]. apply Forall_app in H as [Hb Hc].
  assert (Forall (fun x => (x < 128)%N) (py " ")) as Hsp by (repeat constructor).
  split.
  - rewrite !normalize_ascii by (repeat (apply Forall_app; split); done).
    rewrite !bind_app. simpl. by rewrite <- !app_assoc.
  - rewrite !normalize_ascii
      by (apply Forall_app; split; [try apply Forall_ascii_lower|try apply Forall_ascii_lower]; done).
    rewrite !bind_app, !bind_lower by done. done.
Qed.

Lemma normalize_table_name_collides_witness :
  normalize_table_name basic_latin_db (py "Foo Bar") (py "Baz")
  = normalize_table_name basic_latin_db (py "Foo") (py "Bar Baz").
Proof.
  apply (normalize_table_name_collides basic_latin_db (py "Foo") (py "Bar") (py "Baz")).
  apply (bool_decide_unpack _). reflexivity.
Defined.

(** ** The extraction script *)

Lemma extract_name listing data :
  PageScript.extractListingData listing = Some data ->
  dict_get data "name" [] = listing_name listing /\ proper_name (listing_name listing).
Proof.
  unfold PageScript.extractListingData. fold (listing_name listing).
  destruct (PageScript.is_empty (listing_name listing)) eqn:Hempty; [done|].
  destruct (bool_decide (listing_name listing = py "N/A")) eqn:Hna; [done|]. simpl.
  intros [= <-]. split; [reflexivity|]. split.
  - intros E. by rewrite E in Hempty.
  - by apply bool_decide_eq_false in Hna.
Qed.

Lemma extract_proper listing :
  proper_name (listing_name listing) -> is_Some (PageScript.extractListingData listing).
Proof.
  intros [Hne Hna]. unfold PageScript.extractListingData. fold (listing_name listing).
  destruct (listing_name listing) as [|c s] eqn:E; [done|]. simpl.
  rewrite bool_decide_eq_false_2 by done. done.
Qed.

(** Names already seen are not returned again; names returned are new. *)
Lemma collect_names seen listings :
  NoDup (names_of (PageScript.collect seen listings))
  /\ (forall n, n ∈ names_of (PageScript.collect seen listings) ->
        (n ∉ seen) /\ exists l, l ∈ listings /\ listing_name l = n /\ proper_name n)
  /\ (forall l, l ∈ listings -> proper_name (listing_name l) -> listing_name l ∉ seen ->
        listing_name l ∈ names_of (PageScript.collect seen listings)).
Proof.
  revert seen. induction listings as [|l rest IH]; intros seen.
  { split; [constructor|]. split; intros ? Hin; by apply elem_of_nil in Hin. }
  cbn [PageScript.collect]. destruct (PageScript.extractListingData l) as [data|] eqn:Hd.
  - destruct (extract_name l data Hd) as [Hname Hproper]. rewrite Hname.
    rewrite (bool_decide_eq_false_2 _ (proj2 Hproper)). cbn [negb andb].
    destruct (bool_decide (listing_name l ∈ seen)) eqn:Hseen; cbn [negb].
    + apply bool_decide_eq_true in Hseen.
      destruct (IH seen) as (Hnd & Hin & Hall). split; [done|]. split.
      * intros n Hn. destruct (Hin n Hn) as (? & l' & ? & ? & ?).
        split; [done|]. exists l'. by rewrite elem_of_cons; auto.
      * intros l' Hl' Hp Hns. apply elem_of_cons in Hl' as [->|Hl']; [done|]. by apply Hall.
    + apply bool_decide_eq_false in Hseen.
      destruct (IH ({[listing_name l]} ∪ seen)) as (Hnd & Hin & Hall).
      unfold names_of in *. rewrite fmap_cons, Hname. split; [|split].
      * apply NoDup_cons. split; [|done]. intros Hn. apply Hin in Hn as [Hn _].
        apply Hn, elem_of_union. left. by apply elem_of_singleton.
      * intros n Hn. apply elem_of_cons in Hn as [->|Hn].
        -- split; [done|]. exists l. split; [left|done].
        -- destruct (Hin n Hn) as (Hns & l' & ? & ? & ?).
           split; [intros ?; apply Hns, elem_of_union; by right|].
           exists l'. by rewrite elem_of_cons; auto.
      * intros l' Hl' Hp Hns. apply elem_of_cons in Hl' as [->|Hl']; [left|].
        destruct (decide (listing_name l' = listing_name l)) as [->|Hne]; [left|].
        right. apply Hall; [done | done |].
        intros [Hs|Hs]%elem_of_union; [by apply elem_of_singleton in Hs | done].
  - destruct (IH seen) as (Hnd & Hin & Hall). split; [done|]. split.
    + intros n Hn. destruct (Hin n Hn) as (? & l' & ? & ? & ?).
      split; [done|]. exists l'. by rewrite elem_of_cons; auto.
    + intros l' Hl' Hp Hns. apply elem_of_cons in Hl' as [->|Hl']; [|by apply Hall].
      apply extract_proper in Hp. rewrite Hd in Hp. by destruct Hp.
Qed.

(** [drop_spaces] leaves a suffix that does not start with white space. *)
Lemma drop_spaces_suffix s : exists pre, s = pre ++ PageScript.drop_spaces s.
Proof.
  induction s as [|c s [pre IH]]; [by exists []|]. simpl.
  destruct (PageScript.is_space c); [|by exists []].
  exists (c :: pre). simpl. by rewrite <- IH.
Qed.

Lemma drop_spaces_head s c rest :
  PageScript.drop_spaces s = c :: rest -> PageScript.is_space c = false.
Proof.
  induction s as [|x s IH]; simpl; [done|].
  destruct (PageScript.is_space x) eqn:E; [done|]. by intros [= <- _].
Qed.

(** A trimmed text neither starts nor ends with white space. *)
Lemma trim_ends s :
  (forall c rest, PageScript.trim s = c :: rest -> PageScript.is_space c = false)
  /\ (forall c front, PageScript.trim s = front ++ [c] -> PageScript.is_space c = false).
Proof.
  unfold PageScript.trim.
  set (u := PageScript.drop_spaces (rev (PageScript.drop_spaces s))).
  split.
  - intros c rest Hrev.
    destruct (drop_spaces_suffix (rev (PageScript.drop_spaces s))) as [pre Hpre].
    fold u in Hpre.
    assert (PageScript.drop_spaces s = rev u ++ rev pre) as Hs.
    { rewrite <- rev_app_distr, <- Hpre. by rewrite rev_involutive. }
    rewrite Hrev in Hs. simpl in Hs. by eapply drop_spaces_head.
  - intros c front Hrev.
    assert (u = c :: rev front) as Hu.
    { rewrite <- (rev_involutive u), Hrev, rev_app_distr. done. }
    by eapply drop_spaces_head.
Qed.

Lemma trim_idempotent s : PageScript.trim (PageScript.trim s) = PageScript.trim s.
Proof.
  destruct (trim_ends s) as [Hhead Hlast].
  unfold PageScript.trim at 1.
  assert (PageScript.drop_spaces (PageScript.trim s) = PageScript.trim s) as ->.
  { destruct (PageScript.trim s) as [|c rest] eqn:E; [done|]. simpl.
    by rewrite (Hhead c rest eq_refl). }
  assert (PageScript.drop_spaces (rev (PageScript.trim s)) = rev (PageScript.trim s)) as ->.
  { destruct (rev (PageScript.trim s)) as [|c rest] eqn:E; [done|]. simpl.
    rewrite (Hlast c (rev rest)); [done|].
    by rewrite <- (rev_involutive (PageScript.trim s)), E. }
  apply rev_involutive.
Qed.

(** X2.  The names of the records the script returns are pairwise distinct,
    each is the trimmed text of a listing's name element, non-empty, not
    "N/A" and free of white space at either end; and every listing with such
    a name has it among them. *)
Theorem script_names_distinct_and_trimmed (listings : list PageScript.Listing) :
  let names := names_of (PageScript.results listings) in
  NoDup names
  /\ (forall n, n ∈ names ->
        proper_name n /\ PageScript.trim n = n
        /\ exists l, l ∈ listings /\ listing_name l = n)
  /\ (forall l, l ∈ listings -> proper_name (listing_name l) -> listing_name l ∈ names).
Proof.
  intros names. destruct (collect_names ∅ listings) as (Hnd & Hin & Hall).
  split; [exact Hnd|]. split.
  - intros n Hn. destruct (Hin n Hn) as (_ & l & Hl & Hname & Hp).
    split; [done|]. split; [|by exists l].
    subst n. unfold listing_name in *. destruct (PageScript.name_text l) as [t|].
    + apply trim_idempotent.
    + by destruct Hp.
  - intros l Hl Hp. apply Hall; [done | done | apply not_elem_of_empty].
Qed.

(** ** Creating tables *)

Lemma create_if_missing_lookup {R} (tname other : pystr) (db : gmap pystr (list R)) :
  create_if_missing tname db !! other
  = if decide (other = tname) then Some (default [] (db !! tname)) else db !! other.
Proof.
  unfold create_if_missing. destruct (db !! tname) as [t|] eqn:E.
  - destruct (decide (other = tname)) as [->|]; [by rewrite E | done].
  - destruct (decide (other = tname)) as [->|Hne].
    + by rewrite lookup_insert_eq.
    + by rewrite lookup_insert_ne.
Qed.

Lemma create_if_missing_twice {R} (tname : pystr) (db : gmap pystr (list R)) :
  create_if_missing tname (create_if_missing tname db) = create_if_missing tname db.
Proof.
  unfold create_if_missing at 1. rewrite create_if_missing_lookup.
  by rewrite decide_True.
Qed.

(** X3.  [ensure_table] creates the query's table, empty, only when it is
    missing: an existing table keeps its rows, every other table and the
    other database are untouched, nothing is logged, and a second call
    changes nothing.  A name the storage engine rejects raises
    [OperationalError] with the window unchanged. *)
Theorem ensure_table_creates_once (U : UnicodeDB) (sql_accepts : pystr -> bool)
    (keyword location : pystr) (which : Scraper) (g : Gui) :
  let tname := normalize_table_name U keyword location in
  let r := ensure_table U sql_accepts keyword location which g in
  if sql_accepts tname then
    outcome_of r = inr tname
    /\ trace_of r = []
    /\ stored which (state_of r) tname
       = Some (default (no_rows which) (stored which g tname))
    /\ (forall other, other <> tname ->
          stored which (state_of r) other = stored which g other)
    /\ (forall w other, w <> which -> stored w (state_of r) other = stored w g other)
    /\ ensure_table U sql_accepts keyword location which (state_of r)
       = (state_of r, [], inr tname)
  else r = (g, [], inl (OperationalError tname)).
Proof.
  intros tname r. subst r. unfold ensure_table. fold tname.
  destruct (sql_accepts tname) eqn:Hsql; [|done].
  unfold bind, modify, ret, state_of, trace_of, outcome_of. simpl.
  split; [done|]. split; [done|].
  destruct which; simpl.
  - rewrite create_if_missing_lookup, decide_True by done.
    split; [by destruct (maps_db g !! tname)|]. split; [|split].
    + intros other Hne. by rewrite create_if_missing_lookup, decide_False.
    + intros [] other Hw; [done | done].
    + rewrite create_if_missing_twice. by destruct g.
  - rewrite create_if_missing_lookup, decide_True by done.
    split; [by destruct (justdial_db g !! tname)|]. split; [|split].
    + intros other Hne. by rewrite create_if_missing_lookup, decide_False.
    + intros [] other Hw; [done | done].
    + rewrite create_if_missing_twice. by destruct g.
Qed.

(** ** Collecting links *)

(** X4.  [_got_links] keeps the first [max_links] links of the page, in
    order, and puts the cursor at 0; an empty or missing result leaves the
    links collected before in place and only logs "No links found.". *)
Theorem got_links_keeps_first (hrefs : option (list pystr)) (g : Gui) :
  0 <= max_links_input g ->
  let r := _got_links hrefs g in
  outcome_of r = inr tt
  /\ match hrefs with
     | None | Some [] =>
         state_of r = g /\ trace_of r = [Log maps (py "No links found.")]
     | Some found =>
         links (state_of r) = take (Z.to_nat (max_links_input g)) found
         /\ Z.of_nat (length (links (state_of r)))
            = Z.min (max_links_input g) (Z.of_nat (length found))
         /\ links_index (state_of r) = 0%nat
         /\ trace_of r
            = [Log maps (py "Collected "
                           ++ PyStr.str_int (Z.min (max_links_input g) (Z.of_nat (length found)))
                           ++ py " links. Ready to scrape.")]
         /\ (scraping (state_of r), _next_action (state_of r),
             current_keyword (state_of r), current_location (state_of r),
             maps_db (state_of r), justdial_db (state_of r))
            = (scraping g, _next_action g, current_keyword g, current_location g,
               maps_db g, justdial_db g)
     end.
Proof.
  intros Hmax r. subst r. destruct hrefs as [[|h found]|]; [done| |done].
  unfold _got_links. run_method. unfold slice_to.
  destruct (Z.leb_spec 0 (max_links_input g)) as [_|]; [|lia].
  assert (Z.of_nat (length (take (Z.to_nat (max_links_input g)) (h :: found)))
          = Z.min (max_links_input g) (Z.of_nat (length (h :: found)))) as Hlen.
  { rewrite length_take. lia. }
  split; [done|]. split; [done|]. split; [exact Hlen|]. split; [done|].
  split; [|done]. by rewrite Hlen.
Qed.

Lemma got_links_keeps_first_witness :
  links (state_of (_got_links (Some [py "A"; py "B"; py "C"]) idle_window))
  = take 2 [py "A"; py "B"; py "C"].
Proof.
  apply (got_links_keeps_first (Some [py "A"; py "B"; py "C"]) idle_window). by simpl.
Defined.

(** ** Starting a snapshot run *)

(** X5.  [start_justdial_scrape] turns down an empty keyword or location
    with a warning and a page that is not on the site with a log line, in
    both cases leaving the window as it is.  Otherwise it makes the typed
    query the current one and sees to its table, so that the records of the
    run go to the table named after that query; if the storage engine
    rejects the name, the query is already changed when the error is
    raised. *)
Theorem start_justdial_scrape_checks (U : UnicodeDB) (sql_accepts : pystr -> bool)
    (k l : pystr) (on_justdial : bool) (g : Gui) :
  let r := start_justdial_scrape U sql_accepts k l on_justdial g in
  let tname := normalize_table_name U k l in
  ((k = [] \/ l = []) ->
     r = (g, [MessageWarning (py "Missing Input") (py "Enter keyword and location.")],
          inr false))
  /\ (k <> [] -> l <> [] -> on_justdial = false ->
        r = (g, [Log justdial
                   (py "Please load a JustDial page first by clicking 'Load JustDial'.")],
             inr false))
  /\ (k <> [] -> l <> [] -> on_justdial = true -> sql_accepts tname = true ->
        outcome_of r = inr true
        /\ trace_of r = [ScrapeButtons false true]
        /\ get_current_table U justdial (state_of r) = tname
        /\ justdial_db (state_of r) !! tname
           = Some (default [] (justdial_db g !! tname))
        /\ (forall other, other <> tname ->
              justdial_db (state_of r) !! other = justdial_db g !! other)
        /\ maps_db (state_of r) = maps_db g)
  /\ (k <> [] -> l <> [] -> on_justdial = true -> sql_accepts tname = false ->
        r = (set_justdial_query k l g, [], inl (OperationalError tname))).
Proof.
  intros r tname. subst r. unfold start_justdial_scrape.
  split; [|split; [|split]].
  - intros [-> | ->]; [done|]. by destruct k.
  - intros Hk Hl ->. by destruct k, l.
  - intros Hk Hl -> Hsql. destruct k as [|a k]; [done|]. destruct l as [|b l]; [done|].
    simpl. unfold ensure_table. fold tname. rewrite Hsql. run_method.
    split; [done|]. split; [done|]. split; [done|].
    rewrite create_if_missing_lookup, decide_True by done.
    split; [done|]. split; [|done].
    intros other Hne. by rewrite create_if_missing_lookup, decide_False.
  - intros Hk Hl -> Hsql. destruct k as [|a k]; [done|]. destruct l as [|b l]; [done|].
    simpl. unfold ensure_table. fold tname. rewrite Hsql. by run_method.
Qed.

(** ** What a snapshot run stores *)

Lemma extract_record l :
  proper_name (listing_name l) -> PageScript.extractListingData l = Some (listing_record l).
Proof.
  intros [Hne Hna]. unfold PageScript.extractListingData. fold (listing_name l).
  destruct (listing_name l) as [|c s] eqn:E; [done|]. simpl.
  rewrite bool_decide_eq_false_2 by done. unfold listing_record. by rewrite E.
Qed.

Lemma extract_improper l :
  ~ proper_name (listing_name l) -> PageScript.extractListingData l = None.
Proof.
  intros Hn. destruct (PageScript.extractListingData l) as [data|] eqn:E; [|done].
  apply extract_name in E as [_ Hp]. by destruct Hn.
Qed.

(** The script returns the records of the listings with a proper name, in
    page order, when no two of them share a name. *)
Lemma collect_named page : forall seen,
  NoDup (listing_name <$> named_listings page) ->
  (forall l, l ∈ named_listings page -> listing_name l ∉ seen) ->
  PageScript.collect seen page = listing_record <$> named_listings page.
Proof.
  unfold named_listings.
  induction page as [|l page IH]; intros seen Hnd Hseen; [done|].
  cbn [PageScript.collect].
  destruct (decide (proper_name (listing_name l))) as [Hp|Hp].
  - rewrite filter_cons_True in * by done.
    rewrite extract_record by done.
    assert (dict_get (listing_record l) "name" [] = listing_name l) as -> by reflexivity.
    rewrite fmap_cons in *. apply NoDup_cons in Hnd as [Hnew Hnd].
    rewrite (bool_decide_eq_false_2 (listing_name l = py "N/A")) by (by destruct Hp).
    rewrite (bool_decide_eq_false_2 (listing_name l ∈ seen)) by (apply Hseen; left).
    cbn [negb andb]. f_equal. apply IH; [done|].
    intros l' Hl'. apply not_elem_of_union. split.
    + intros E. apply elem_of_singleton in E. apply Hnew. rewrite <- E.
      apply list_elem_of_fmap. by exists l'.
    + apply Hseen. by right.
  - rewrite filter_cons_False in * by done.
    rewrite extract_improper by done. by apply IH.
Qed.

Section SnapshotStore.

Variable U : UnicodeDB.

(** A save of a record whose pair and id are new. *)
Lemma save_fresh data g t :
  justdial_db g !! get_current_table U justdial g = Some t ->
  (data_key data ∉ keys t) ->
  (data !! "id" ∉ j_id <$> t) ->
  save_justdial_data U data g
  = (set_justdial_db
       (<[get_current_table U justdial g := t ++ [justdial_row data g]]> (justdial_db g)) g,
     [Log justdial (py "Saved: " ++ dict_get data "name" (py ""))], inr tt).
Proof.
  intros Ht Hkey Hid. apply select_by_key_None in Hkey.
  unfold data_key in Hkey. simpl in Hkey.
  assert (Sqlite.id_taken t (data !! "id") = false) as Hfree.
  { unfold Sqlite.id_taken. destruct (data !! "id"); [|done]. by apply bool_decide_eq_false_2. }
  unfold save_justdial_data. run_method. unfold get_current_table in Ht.
  by rewrite Ht, Hkey, Hfree.
Qed.

(** The signals of a run, delivered: each record with a new pair and id
    becomes a row, in order; nothing raises. *)
Lemma deliver_fresh sigs : forall g t,
  justdial_db g !! get_current_table U justdial g = Some t ->
  NoDup (data_key <$> data_of sigs) ->
  (forall d, d ∈ data_of sigs -> data_key d ∉ keys t) ->
  NoDup ((fun d : dict => d !! "id") <$> data_of sigs) ->
  (forall d, d ∈ data_of sigs -> d !! "id" ∉ j_id <$> t) ->
  outcome_of (deliver U sigs g) = inr tt
  /\ justdial_db (state_of (deliver U sigs g)) !! get_current_table U justdial g
     = Some (t ++ ((fun d => justdial_row d g) <$> data_of sigs)).
Proof.
  induction sigs as [|s sigs IH]; intros g t Ht Hnk Hk Hni Hi.
  { simpl. by rewrite app_nil_r. }
  destruct s as [msg|d|v|].
  - specialize (IH g t Ht Hnk Hk Hni Hi). revert IH.
    cbn [deliver on_signal]. unfold bind, log, emit, outcome_of, state_of. simpl.
    by destruct (deliver U sigs g) as [[g2 out2] r2].
  - change (data_of (data_signal d :: sigs)) with (d :: data_of sigs) in *.
    rewrite fmap_cons in *.
    apply NoDup_cons in Hnk as [Hknew Hnk]. apply NoDup_cons in Hni as [Hinew Hni].
    pose proof (save_fresh d g t Ht (Hk d ltac:(left)) (Hi d ltac:(left))) as Hsave.
    set (g1 := set_justdial_db _ g) in Hsave.
    assert (get_current_table U justdial g1 = get_current_table U justdial g) as HT by done.
    destruct (IH g1 (t ++ [justdial_row d g])) as [Hout Hdb].
    + rewrite HT. subst g1. simpl. by rewrite lookup_insert_eq.
    + done.
    + intros d' Hd'. unfold keys. rewrite fmap_app. intros Hin.
      apply elem_of_app in Hin as [Hin|Hin]; [by apply (Hk d' ltac:(by right))|].
      apply list_elem_of_singleton in Hin. apply Hknew. rewrite justdial_row_key in Hin.
      rewrite <- Hin. apply list_elem_of_fmap. by exists d'.
    + done.
    + intros d' Hd'. rewrite fmap_app. intros Hin.
      apply elem_of_app in Hin as [Hin|Hin]; [by apply (Hi d' ltac:(by right))|].
      apply list_elem_of_singleton in Hin. apply Hinew. simpl in Hin.
      rewrite <- Hin. apply list_elem_of_fmap. by exists d'.
    + revert Hout Hdb. cbn [deliver on_signal]. unfold bind. rewrite Hsave.
      unfold outcome_of, state_of.
      destruct (deliver U sigs g1) as [[g2 out2] r2]. cbn [fst snd].
      intros -> Hdb. split; [done|]. rewrite HT in Hdb. rewrite Hdb.
      rewrite <- app_assoc. reflexivity.
  - specialize (IH g t Ht Hnk Hk Hni Hi). revert IH.
    cbn [deliver on_signal]. unfold bind, emit, outcome_of, state_of. simpl.
    by destruct (deliver U sigs g) as [[g2 out2] r2].
  - specialize (IH g t Ht Hnk Hk Hni Hi). revert IH.
    cbn [deliver on_signal]. unfold justdial_scraping_finished, refresh_keyword_tables,
      bind, emit, outcome_of, state_of. simpl.
    by destruct (deliver U sigs g) as [[g2 out2] r2].
Qed.

End SnapshotStore.

(** A run that is not cancelled and whose cap the batch does not exceed
    emits every record of the batch. *)
Lemma data_of_run (w : JustDialScraper) (batch : list dict) :
  (forall i, _is_running w i = true) ->
  Z.of_nat (length batch) <= max_listings w ->
  data_of (run w (JsReturns (PyList batch))).1
  = zip_with (data_with_meta w) (seq 0 (length batch)) batch.
Proof.
  intros Hrun Hcap. unfold run. destruct batch as [|d rest] eqn:E; [done|].
  rewrite <- E in *.
  assert (batch <> []) as Hne by (by rewrite E).
  rewrite process_results_nonempty by done. cbn [fst].
  change (data_of (_ :: _ :: ?loop ++ ?l)) with (data_of (loop ++ l)).
  destruct (process_loop_ok w (length batch) ltac:(rewrite E; simpl; lia) batch 0%nat)
    as (_ & _ & Hd & _).
  rewrite data_of_app, Hd. simpl data_of. rewrite app_nil_r.
  rewrite handled_all by done. by rewrite Nat.min_l by lia.
Qed.

Section SnapshotRun.

Variable U : UnicodeDB.
Variable sql_accepts : pystr -> bool.
Variable w : JustDialScraper.

Lemma start_justdial_scrape_ok k l g :
  k <> [] -> l <> [] -> sql_accepts (normalize_table_name U k l) = true ->
  start_justdial_scrape U sql_accepts k l true g
  = (set_justdial_db (create_if_missing (normalize_table_name U k l) (justdial_db g))
       (set_justdial_query k l g),
     [ScrapeButtons false true], inr true).
Proof.
  intros Hk Hl Hsql. unfold start_justdial_scrape.
  destruct k as [|a k]; [done|]. destruct l as [|b l]; [done|].
  simpl. unfold ensure_table. rewrite Hsql. by run_method.
Qed.

(** The records of the kept listings as the worker emits them, read three
    ways: by pair, by id, and as rows. *)
Lemma meta_keys ls : forall i,
  data_key <$> zip_with (data_with_meta w) (seq i (length ls)) (listing_record <$> ls)
  = (fun x => (listing_name x, PageScript.address x)) <$> ls.
Proof.
  induction ls as [|x ls IH]; intros i; [done|].
  simpl. f_equal. apply IH.
Qed.

Lemma meta_ids ls : forall i,
  (fun d : dict => d !! "id")
    <$> zip_with (data_with_meta w) (seq i (length ls)) (listing_record <$> ls)
  = Some <$> (uuid4 w <$> seq i (length ls)).
Proof.
  induction ls as [|x ls IH]; intros i; [done|].
  simpl. f_equal. apply IH.
Qed.

Lemma meta_rows g ls : forall i,
  (fun d => justdial_row d g)
    <$> zip_with (data_with_meta w) (seq i (length ls)) (listing_record <$> ls)
  = snapshot_rows w g i ls.
Proof.
  unfold snapshot_rows. induction ls as [|x ls IH]; intros i; [done|].
  simpl. f_equal. apply IH.
Qed.

(** A snapshot run on any page: when the kept listings have distinct names
    and their pairs and ids are new to the table, each becomes a row, in page
    order, after the rows the table had. *)
Lemma snapshot_stores k l page g :
  let tname := normalize_table_name U k l in
  let t0 := default [] (justdial_db g !! tname) in
  let ls := named_listings page in
  k <> [] -> l <> [] -> sql_accepts tname = true ->
  NoDup (listing_name <$> ls) ->
  Z.of_nat (length ls) <= max_listings w ->
  (forall i, _is_running w i = true) ->
  NoDup (uuid4 w <$> seq 0 (length ls)) ->
  (forall i, (i < length ls)%nat -> Some (uuid4 w i) ∉ j_id <$> t0) ->
  (forall x, x ∈ ls -> (listing_name x, PageScript.address x) ∉ keys t0) ->
  let r := snapshot U sql_accepts w k l page g in
  outcome_of r = inr tt
  /\ justdial_db (state_of r) !! tname
     = Some (t0 ++ snapshot_rows w (set_justdial_query k l g) 0 ls).
Proof.
  intros tname t0 ls Hk Hl Hsql Hnames Hcap Hrun Hids Hfresh Hkeys r.
  subst r. unfold snapshot, bind.
  rewrite start_justdial_scrape_ok by done. fold tname.
  set (g1 := set_justdial_db _ _).
  assert (PageScript.results page = listing_record <$> ls) as Hbatch.
  { unfold PageScript.results. apply collect_named; [done|].
    intros x _. apply not_elem_of_empty. }
  rewrite Hbatch.
  set (sigs := (run w (JsReturns (PyList (listing_record <$> ls)))).1).
  assert (data_of sigs
          = zip_with (data_with_meta w) (seq 0 (length ls)) (listing_record <$> ls)) as Hd.
  { subst sigs. rewrite data_of_run; [by rewrite length_fmap | done | by rewrite length_fmap]. }
  assert (justdial_db g1 !! get_current_table U justdial g1 = Some t0) as Ht.
  { subst g1. unfold get_current_table. simpl. fold tname.
    by rewrite create_if_missing_lookup, decide_True. }
  destruct (deliver_fresh U sigs g1 t0 Ht) as [Hout Hdb].
  - rewrite Hd, meta_keys.
    apply (NoDup_fmap_1 fst). by rewrite <- list_fmap_compose.
  - intros d Hin.
    assert (data_key d ∈ data_key <$> data_of sigs) as Hk'
      by (apply list_elem_of_fmap; by exists d).
    rewrite Hd, meta_keys in Hk'. apply list_elem_of_fmap in Hk' as (x & -> & Hx).
    by apply Hkeys.
  - rewrite Hd, meta_ids. by apply (NoDup_fmap_2 Some).
  - intros d Hin.
    assert (d !! "id" ∈ (fun d : dict => d !! "id") <$> data_of sigs) as Hi'
      by (apply list_elem_of_fmap; by exists d).
    rewrite Hd, meta_ids in Hi'. apply list_elem_of_fmap in Hi' as (u & -> & Hu).
    apply list_elem_of_fmap in Hu as (i & -> & Hi). apply elem_of_seq in Hi.
    apply Hfresh. lia.
  - revert Hout Hdb. unfold outcome_of, state_of.
    destruct (deliver U sigs g1) as [[g2 out2] r2]. cbn [fst snd].
    intros -> Hdb. split; [done|].
    assert (get_current_table U justdial g1 = tname) as HT by done.
    rewrite HT, Hd, meta_rows in Hdb. exact Hdb.
Qed.

End SnapshotRun.

(** C5, amended.  In snapshot mode the script drops a listing whose name is
    empty or "N/A" before the batch is returned, so no record the worker
    emits, and none that reaches [save_justdial_data], lacks a proper name.
    Of five listings whose third has no proper name, the other four having
    proper names that differ, four rows are stored, one for each of the four
    in page order, when their pairs and the ids the worker draws are new to
    the table, the cap is at least 4 and the run is not cancelled.  Maps mode
    has no such check: [_got_place] stores the record of a page without a
    name under the empty name. *)
Theorem nameless_listings_dropped_by_script (U : UnicodeDB) (w : JustDialScraper)
    (listings : list PageScript.Listing) :
  let batch := PageScript.results listings in
  let out := (run w (JsReturns (PyList batch))).1 in
  (forall data, data ∈ batch -> proper_name (dict_get data "name" (py "N/A")))
  /\ (forall data, data ∈ data_of out -> proper_name (dict_get data "name" (py "")))
  /\ (forall (sql_accepts : pystr -> bool) (k l : pystr)
        (l1 l2 l3 l4 l5 : PageScript.Listing) (g : Gui),
        let tname := normalize_table_name U k l in
        let t0 := default [] (justdial_db g !! tname) in
        let rows := snapshot_rows w (set_justdial_query k l g) 0 [l1; l2; l4; l5] in
        k <> [] -> l <> [] -> sql_accepts tname = true ->
        ~ proper_name (listing_name l3) ->
        (forall x, x ∈ [l1; l2; l4; l5] -> proper_name (listing_name x)) ->
        NoDup (listing_name <$> [l1; l2; l4; l5]) ->
        4 <= max_listings w ->
        (forall i, _is_running w i = true) ->
        NoDup (uuid4 w <$> seq 0 4) ->
        (forall i, (i < 4)%nat -> Some (uuid4 w i) ∉ j_id <$> t0) ->
        (forall x, x ∈ [l1; l2; l4; l5] ->
           (listing_name x, PageScript.address x) ∉ keys t0) ->
        let r := snapshot U sql_accepts w k l [l1; l2; l3; l4; l5] g in
        outcome_of r = inr tt
        /\ justdial_db (state_of r) !! tname = Some (t0 ++ rows)
        /\ length rows = 4%nat
        /\ j_name <$> rows = listing_name <$> [l1; l2; l4; l5]
        /\ j_id <$> rows = Some <$> (uuid4 w <$> seq 0 4))
  /\ (forall g now t,
        maps_db g !! get_current_table U maps g = Some t ->
        data_key no_heading ∉ keys t ->
        maps_db (state_of (_got_place U (Some no_heading) now g)) !! get_current_table U maps g
        = Some (t ++ [maps_row t no_heading g now])
        /\ m_name (maps_row t no_heading g now) = py "").
Proof.
  intros batch out.
  assert (forall data, data ∈ batch -> proper_name (dict_get data "name" (py "N/A"))) as Hbatch.
  { intros data Hin. apply collect_has_name in Hin as (name & Hname & Hproper).
    unfold dict_get. by rewrite Hname. }
  split; [exact Hbatch|]. split; [|split].
  - intros data Hin. subst out. unfold run in Hin.
    destruct batch as [|d rest] eqn:Hb.
    { simpl in Hin. by apply elem_of_nil in Hin. }
    rewrite process_results_nonempty in Hin by done. cbn [fst] in Hin.
    change (data_of (_ :: _ :: ?loop ++ ?l)) with (data_of (loop ++ l)) in Hin.
    destruct (process_loop_ok w (length (d :: rest)) ltac:(simpl; lia) (d :: rest) 0%nat)
      as (_ & _ & Hd & _).
    rewrite data_of_app, Hd in Hin. simpl data_of in Hin. rewrite app_nil_r in Hin.
    apply list_elem_of_lookup in Hin as [i Hi].
    apply lookup_zip_with_Some in Hi as (j & item & -> & _ & Hitem).
    rewrite data_with_meta_name. apply Hbatch.
    apply list_elem_of_lookup. by exists i.
  - intros sql_accepts k l l1 l2 l3 l4 l5 g tname t0 rows
      Hk Hl Hsql H3 Hproper Hnames Hcap Hrun Hids Hfresh Hkeys r.
    assert (named_listings [l1; l2; l3; l4; l5] = [l1; l2; l4; l5]) as Hkept.
    { unfold named_listings.
      rewrite filter_cons_True by (apply Hproper; set_solver).
      rewrite filter_cons_True by (apply Hproper; set_solver).
      rewrite filter_cons_False by done.
      rewrite filter_cons_True by (apply Hproper; set_solver).
      rewrite filter_cons_True by (apply Hproper; set_solver).
      done. }
    destruct (snapshot_stores U sql_accepts w k l [l1; l2; l3; l4; l5] g) as [Hout Hdb];
      try done; rewrite ?Hkept; try done.
    rewrite Hkept in Hdb.
    split; [exact Hout|]. split; [exact Hdb|]. by repeat split.
  - intros g now t Ht Hnew. split; [|reflexivity].
    by apply (got_place_insert U no_heading now g t).
Qed.

Lemma nameless_listings_dropped_by_script_witness :
  let r := snapshot basic_latin_db any_table (steady_worker 10) (py "Cafes") (py "Pune")
             five_listings idle_window in
  outcome_of r = inr tt
  /\ (j_name <$> default [] (justdial_db (state_of r) !! py "cafes_pune"))
     = [py "Alpha"; py "Bravo"; py "Delta"; py "Echo"].
Proof.
  intros r. subst r. unfold five_listings.
  change (py "cafes_pune") with (normalize_table_name basic_latin_db (py "Cafes") (py "Pune")).
  destruct (nameless_listings_dropped_by_script basic_latin_db (steady_worker 10) five_listings)
    as (_ & _ & H & _).
  destruct (H any_table (py "Cafes") (py "Pune")
              (listing "Alpha") (listing "Bravo") (listing "N/A") (listing "Delta")
              (listing "Echo") idle_window) as (Hout & Hdb & _ & Hnames & _).
  - done.
  - done.
  - reflexivity.
  - intros [_ Hna]. by apply Hna.
  - intros x Hx. repeat (apply elem_of_cons in Hx as [->|Hx]; [by split|]).
    by apply elem_of_nil in Hx.
  - apply (bool_decide_unpack _). reflexivity.
  - simpl. lia.
  - done.
  - apply (bool_decide_unpack _). reflexivity.
  - intros i Hi. simpl. apply not_elem_of_nil.
  - intros x Hx. simpl. apply not_elem_of_nil.
  - split; [exact Hout|]. rewrite Hdb. exact Hnames.
Defined.


(** ** Storage errors *)

(** X6.  A save into a table that does not exist raises [OperationalError]
    and a JustDial save whose id is already a row's raises [IntegrityError];
    in each case nothing is written or logged and the window is as before,
    so in Maps mode the cursor does not move and no further advance is
    scheduled. *)
Theorem failed_save_writes_nothing (U : UnicodeDB) (g : Gui) :
  (forall data now,
     maps_db g !! get_current_table U maps g = None ->
     _got_place U data now g = (g, [], inl (OperationalError (get_current_table U maps g))))
  /\ (forall data,
        justdial_db g !! get_current_table U justdial g = None ->
        save_justdial_data U data g
        = (g, [], inl (OperationalError (get_current_table U justdial g))))
  /\ (forall data t,
        justdial_db g !! get_current_table U justdial g = Some t ->
        data_key data ∉ keys t ->
        Sqlite.id_taken t (data !! "id") = true ->
        save_justdial_data U data g
        = (g, [], inl (IntegrityError (get_current_table U justdial g)))).
Proof.
  split; [|split].
  - intros data now Ht. unfold _got_place. run_method. by rewrite Ht.
  - intros data Ht. unfold save_justdial_data. run_method. by rewrite Ht.
  - intros data t Ht Hnew Hid. apply select_by_key_None in Hnew.
    unfold data_key in Hnew. simpl in Hnew.
    unfold save_justdial_data. run_method. by rewrite Ht, Hnew, Hid.
Qed.

(** ** Row ids in Maps mode *)

Lemma foldr_max_seq a n :
  foldr Z.max 0 (Z.of_nat <$> seq a n) = if (n =? 0)%nat then 0 else Z.of_nat (a + n - 1).
Proof.
  revert a. induction n as [|n IH]; intros a; [done|].
  cbn [seq fmap list_fmap foldr]. rewrite IH.
  destruct n; simpl; lia.
Qed.

Lemma next_rowid_consecutive (t : list MapsRow) :
  m_id <$> t = Z.of_nat <$> seq 1 (length t) ->
  Sqlite.next_rowid t = Z.of_nat (S (length t)).
Proof.
  intros Hids. unfold Sqlite.next_rowid. destruct t as [|r t]; [done|].
  rewrite Hids, foldr_max_seq. change (length (r :: t)) with (S (length t)).
  cbn [Nat.eqb]. lia.
Qed.

Lemma consecutive_snoc (t : list MapsRow) (r : MapsRow) :
  m_id <$> t = Z.of_nat <$> seq 1 (length t) ->
  m_id r = Sqlite.next_rowid t ->
  m_id <$> (t ++ [r]) = Z.of_nat <$> seq 1 (length (t ++ [r])).
Proof.
  intros Hids Hr. rewrite fmap_app, length_app, Hids. simpl length.
  rewrite Nat.add_1_r, seq_S, fmap_app. simpl.
  by rewrite Hr, (next_rowid_consecutive t Hids).
Qed.

Lemma got_place_consecutive U data now g :
  consecutive_ids (maps_db g) ->
  consecutive_ids (maps_db (state_of (_got_place U data now g))).
Proof.
  intros Hdb. unfold _got_place. run_method.
  destruct (maps_db g !! _) as [t|] eqn:Ht; [|done].
  match goal with |- context [Sqlite.select_by_key t ?n ?a] =>
    destruct (Sqlite.select_by_key t n a) eqn:Hsel end; simpl.
  - by destruct (PyFloat.percent _ _).
  - assert (consecutive_ids
              (<[normalize_table_name U (current_keyword g) (current_location g) :=
                   t ++ [maps_row t (default ∅ data) g now]]> (maps_db g))) as Hnew.
    { intros tname' t' Hlook.
      destruct (decide (normalize_table_name U (current_keyword g) (current_location g)
                        = tname')) as [<-|Hne].
      - rewrite lookup_insert_eq in Hlook. injection Hlook as <-.
        apply consecutive_snoc; [by eapply Hdb | done].
      - rewrite lookup_insert_ne in Hlook by done. by eapply Hdb. }
    destruct data; destruct (PyFloat.percent _ _); simpl; exact Hnew.
Qed.

(** X7.  In Maps mode the ids of a table are 1, 2, ..., n in the order the
    rows were inserted: a database that is so, the empty one for example,
    stays so under any run of saves, and each new row gets the number of rows
    plus one. *)
Theorem maps_ids_are_consecutive (U : UnicodeDB) (g : Gui) :
  consecutive_ids (maps_db g) ->
  (forall ops, consecutive_ids (maps_db (got_places U ops g)))
  /\ (forall data now t,
        maps_db g !! get_current_table U maps g = Some t ->
        data_key data ∉ keys t ->
        m_id (maps_row t data g now) = Z.of_nat (length t) + 1
        /\ maps_db (state_of (_got_place U (Some data) now g)) !! get_current_table U maps g
           = Some (t ++ [maps_row t data g now])).
Proof.
  intros Hdb. split.
  - intros ops. revert g Hdb. induction ops as [|op ops IH]; intros g Hdb; [done|].
    simpl. apply IH. by apply got_place_consecutive.
  - intros data now t Ht Hnew. split.
    + simpl. rewrite (next_rowid_consecutive t) by (by eapply Hdb). lia.
    + by apply (got_place_insert U data now g t).
Qed.

Lemma maps_ids_are_consecutive_witness :
  consecutive_ids (maps_db stocked_window)
  /\ consecutive_ids
       (maps_db (got_places basic_latin_db
                   [(Some (named "Alpha"), py "t1"); (Some joes_cafe, py "t2");
                    (Some (named "Bravo"), py "t3")] stocked_window)).
Proof.
  assert (consecutive_ids (maps_db stocked_window)) as H.
  { intros tname t Hlook. unfold stocked_window in Hlook. cbn [maps_db set_maps_db] in Hlook.
    apply lookup_singleton_Some in Hlook as [_ <-]. reflexivity. }
  split; [exact H|].
  by apply (maps_ids_are_consecutive basic_latin_db stocked_window H).
Defined.

(** ** The worker's records *)

(** X8.  The records the worker emits are the first records of the batch, in
    the batch's order and none left out, each with the id and the time drawn
    at its index and the batch's own fields ("N/A" or "Unknown" for a missing
    one); there are never more of them than the cap allows, whatever the
    flag reads. *)
Theorem worker_emits_a_prefix (w : JustDialScraper) (items : list dict) :
  items <> [] ->
  let out := (process_results w (PyList items)).1 in
  length (data_of out) = handled w 0 items
  /\ (length (data_of out) <= length items)%nat
  /\ Z.of_nat (length (data_of out)) <= Z.max 0 (max_listings w)
  /\ (forall i d, data_of out !! i = Some d ->
        exists item, items !! i = Some item
          /\ d = data_with_meta w i item
          /\ d !! "id" = Some (uuid4 w i)
          /\ d !! "scraped_at" = Some (now w i)
          /\ d !! "name" = Some (dict_get item "name" (py "N/A"))
          /\ d !! "address" = Some (dict_get item "address" (py "N/A"))
          /\ d !! "website_status" = Some (dict_get item "website_status" (py "Unknown"))).
Proof.
  intros Hne out.
  assert (data_of out = zip_with (data_with_meta w) (seq 0 (handled w 0 items)) items) as Hd.
  { subst out. rewrite process_results_nonempty by done. cbn [fst].
    change (data_of (?s :: ?l)) with (data_of ([s] ++ l)).
    rewrite !data_of_app. simpl. rewrite app_nil_r.
    destruct items as [|d rest]; [done|].
    by destruct (process_loop_ok w (length (d :: rest)) ltac:(simpl; lia) (d :: rest) 0%nat)
      as (_ & _ & Hd & _). }
  pose proof (handled_le w 0 items) as Hle.
  assert (length (data_of out) = handled w 0 items) as Hlen.
  { rewrite Hd, length_zip_with, length_seq. lia. }
  split; [exact Hlen|]. split; [lia|]. split.
  - rewrite Hlen. destruct (handled w 0 items) as [|k] eqn:Hk; [lia|].
    pose proof (handled_cap w 0 items) as Hcap. rewrite Hk in Hcap.
    specialize (Hcap ltac:(lia)). lia.
  - intros i d Hi. rewrite Hd in Hi.
    apply lookup_zip_with_Some in Hi as (j & item & -> & Hj & Hitem).
    apply lookup_seq in Hj as [-> _]. exists item. by repeat split.
Qed.

Lemma worker_emits_a_prefix_witness :
  length (data_of (process_results cancelled_worker (PyList five_items)).1)
  = handled cancelled_worker 0 five_items.
Proof. apply (worker_emits_a_prefix cancelled_worker five_items). discriminate. Defined.

(** ** Saving again *)

Section Again.

Variable U : UnicodeDB.

Lemma save_settled data g :
  settled U data g -> save_justdial_data U data g = (g, (save_justdial_data U data g).1.2,
                                                     (save_justdial_data U data g).2).
Proof.
  unfold settled, save_justdial_data. run_method.
  destruct (justdial_db g !! _) as [t|] eqn:Ht; [|done].
  intros [Hin|Hid].
  - apply select_by_key_Some in Hin as [r Hr]. unfold data_key in Hr. simpl in Hr.
    by rewrite Hr.
  - match goal with |- context [Sqlite.select_by_key t ?n ?a] =>
      destruct (Sqlite.select_by_key t n a) end; [done|]. by rewrite Hid.
Qed.

Lemma elem_of_keys_snoc {R} `{Keyed R} (t : list R) (r : R) k :
  k ∈ keys (t ++ [r]) <-> k ∈ keys t \/ k = row_key r.
Proof.
  unfold keys. rewrite fmap_app, elem_of_app. simpl.
  by rewrite list_elem_of_singleton.
Qed.

Lemma id_taken_snoc t r i :
  Sqlite.id_taken t i = true -> Sqlite.id_taken (t ++ [r]) i = true.
Proof.
  unfold Sqlite.id_taken. destruct i as [i|]; [|done].
  rewrite !bool_decide_eq_true, fmap_app, elem_of_app. by left.
Qed.

(** What a JustDial save does to the window: nothing, or one row more in
    the current table. *)
Lemma save_shape data g :
  state_of (save_justdial_data U data g) = g
  \/ exists t,
       justdial_db g !! get_current_table U justdial g = Some t
       /\ (data_key data ∉ keys t)
       /\ state_of (save_justdial_data U data g)
          = set_justdial_db
              (<[get_current_table U justdial g := t ++ [justdial_row data g]]> (justdial_db g)) g.
Proof.
  unfold save_justdial_data. run_method.
  destruct (justdial_db g !! _) as [t|] eqn:Ht; [|by left].
  match goal with |- context [Sqlite.select_by_key t ?n ?a] =>
    destruct (Sqlite.select_by_key t n a) eqn:Hsel end; [by left|].
  destruct (Sqlite.id_taken t (data !! "id")); [by left|].
  right. exists t. split; [done|]. split; [|done]. by apply select_by_key_None in Hsel.
Qed.

Lemma save_settles data g : settled U data (state_of (save_justdial_data U data g)).
Proof.
  unfold settled, save_justdial_data, get_current_table. run_method.
  destruct (justdial_db g !! _) as [t|] eqn:Ht; [|simpl; by rewrite Ht].
  match goal with |- context [Sqlite.select_by_key t ?n ?a] =>
    destruct (Sqlite.select_by_key t n a) eqn:Hsel end; simpl.
  - rewrite Ht. left. destruct (decide (data_key data ∈ keys t)) as [|Hnot]; [done|].
    apply select_by_key_None in Hnot. unfold data_key in Hnot. simpl in Hnot.
    by rewrite Hnot in Hsel.
  - destruct (Sqlite.id_taken t (data !! "id")) eqn:Hid; simpl.
    + rewrite Ht. by right.
    + rewrite lookup_insert_eq. left. apply elem_of_keys_snoc. by right.
Qed.

Lemma save_keeps_settled data other g :
  settled U data g -> settled U data (state_of (save_justdial_data U other g)).
Proof.
  intros Hs. destruct (save_shape other g) as [Hsame|(t & Ht & Hnew & Hst)].
  - by rewrite Hsame.
  - rewrite Hst. unfold settled, get_current_table in *. simpl.
    rewrite lookup_insert_eq. rewrite Ht in Hs. destruct Hs as [Hin|Hid].
    + left. apply elem_of_keys_snoc. by left.
    + right. by apply id_taken_snoc.
Qed.

Lemma saves_keep_settled data ops g :
  settled U data g -> settled U data (saves U ops g).
Proof.
  revert g. induction ops as [|d ops IH]; intros g Hs; [done|].
  simpl. apply IH. by apply save_keeps_settled.
Qed.

Lemma saves_settle ops g data : data ∈ ops -> settled U data (saves U ops g).
Proof.
  revert g. induction ops as [|d ops IH]; intros g Hin; [by apply elem_of_nil in Hin|].
  simpl. apply elem_of_cons in Hin as [->|Hin].
  - apply saves_keep_settled, save_settles.
  - by apply IH.
Qed.

Lemma saves_of_settled ops g :
  (forall data, data ∈ ops -> settled U data g) -> saves U ops g = g.
Proof.
  induction ops as [|d ops IH]; intros Hall; [done|].
  simpl. assert (state_of (save_justdial_data U d g) = g) as ->.
  { rewrite (save_settled d g) at 1; [done|]. apply Hall. left. }
  apply IH. intros data Hin. apply Hall. by right.
Qed.

End Again.

Section AgainMaps.

Variable U : UnicodeDB.

(** What a Maps save does to the database: nothing, or one row more in the
    current table; the query is as before. *)
Lemma place_shape data now g :
  get_current_table U maps (state_of (_got_place U data now g)) = get_current_table U maps g
  /\ (maps_db (state_of (_got_place U data now g)) = maps_db g
      \/ exists t,
           maps_db g !! get_current_table U maps g = Some t
           /\ (place_key data ∉ keys t)
           /\ maps_db (state_of (_got_place U data now g))
              = <[get_current_table U maps g := t ++ [maps_row t (default ∅ data) g now]]>
                  (maps_db g)).
Proof.
  unfold _got_place, get_current_table. run_method.
  destruct (maps_db g !! _) as [t|] eqn:Ht; [|by split; [|left]].
  match goal with |- context [Sqlite.select_by_key t ?n ?a] =>
    destruct (Sqlite.select_by_key t n a) eqn:Hsel end; simpl.
  - destruct (PyFloat.percent _ _); by split; [|left].
  - apply select_by_key_None in Hsel.
    destruct (PyFloat.percent _ _); simpl; (split; [done|]); right; exists t;
      (split; [done|]); (split; [|by destruct data]); by destruct data.
Qed.

Lemma place_settled data now g :
  settled_place U (place_key data) g ->
  maps_db (state_of (_got_place U data now g)) = maps_db g.
Proof.
  intros Hs. destruct (place_shape data now g) as [_ [Hsame|(t & Ht & Hnew & _)]]; [done|].
  unfold settled_place in Hs. by rewrite Ht in Hs.
Qed.

Lemma place_settles data now g :
  settled_place U (place_key data) (state_of (_got_place U data now g)).
Proof.
  destruct (place_shape data now g) as [Htn [Hsame|(t & Ht & Hnew & Hdb)]];
    unfold settled_place; rewrite Htn.
  - rewrite Hsame. destruct (maps_db g !! _) as [t|] eqn:Ht; [|done].
    destruct (decide (place_key data ∈ keys t)) as [|Hnot]; [done|]. exfalso.
    destruct (got_place_insert U (default ∅ data) now g t Ht Hnot) as [Hins _].
    assert (_got_place U (Some (default ∅ data)) now g = _got_place U data now g) as E
      by (by destruct data).
    rewrite E, Hsame, Ht in Hins. injection Hins as Hins.
    apply (f_equal length) in Hins. rewrite length_app in Hins. simpl in Hins. lia.
  - rewrite Hdb, lookup_insert_eq. apply elem_of_keys_snoc. by right.
Qed.

Lemma place_keeps_settled key data now g :
  settled_place U key g -> settled_place U key (state_of (_got_place U data now g)).
Proof.
  intros Hs. destruct (place_shape data now g) as [Htn [Hsame|(t & Ht & Hnew & Hdb)]];
    unfold settled_place in *; rewrite Htn.
  - by rewrite Hsame.
  - rewrite Hdb, lookup_insert_eq. rewrite Ht in Hs. apply elem_of_keys_snoc. by left.
Qed.

Lemma got_places_keep_settled key ops g :
  settled_place U key g -> settled_place U key (got_places U ops g).
Proof.
  revert g. induction ops as [|op ops IH]; intros g Hs; [done|].
  simpl. apply IH. by apply place_keeps_settled.
Qed.

Lemma got_places_settle ops g op :
  op ∈ ops -> settled_place U (place_key op.1) (got_places U ops g).
Proof.
  revert g. induction ops as [|o ops IH]; intros g Hin; [by apply elem_of_nil in Hin|].
  simpl. apply elem_of_cons in Hin as [->|Hin].
  - apply got_places_keep_settled, place_settles.
  - by apply IH.
Qed.

Lemma got_places_of_settled ops g :
  (forall op, op ∈ ops -> settled_place U (place_key op.1) g) ->
  maps_db (got_places U ops g) = maps_db g.
Proof.
  revert g. induction ops as [|o ops IH]; intros g Hall; [done|].
  simpl. rewrite IH.
  - apply place_settled, Hall. left.
  - intros op Hin. apply place_keeps_settled, Hall. by right.
Qed.

End AgainMaps.

(** X9.  Saving again what was saved writes nothing.  In snapshot mode a
    second delivery of the same records leaves the window exactly as the
    first left it.  In Maps mode any further saves whose [(name, address)]
    pairs are among those of the first run leave the database as it is,
    whatever their other fields and times. *)
Theorem saving_again_writes_nothing (U : UnicodeDB) (g : Gui) :
  (forall ops, saves U ops (saves U ops g) = saves U ops g)
  /\ (forall ops ops',
        (forall op', op' ∈ ops' -> exists op, op ∈ ops /\ place_key op'.1 = place_key op.1) ->
        maps_db (got_places U ops' (got_places U ops g)) = maps_db (got_places U ops g)).
Proof.
  split.
  - intros ops. apply saves_of_settled. intros data Hin. by apply saves_settle.
  - intros ops ops' Hkeys. apply got_places_of_settled.
    intros op' Hin. destruct (Hkeys op' Hin) as (op & Hop & ->).
    by apply got_places_settle.
Qed.

Section Kept.

Variable U : UnicodeDB.

Lemma kept_same_store g g' :
  links g' = links g -> current_keyword g' = current_keyword g ->
  current_location g' = current_location g -> max_links_input g' = max_links_input g ->
  justdial_keyword g' = justdial_keyword g -> justdial_location g' = justdial_location g ->
  justdial_db g' = justdial_db g -> maps_db g' = maps_db g ->
  kept U g g'.
Proof.
  intros ? ? ? ? ? ? ? Hdb. unfold kept. rewrite Hdb. repeat split; try done.
  intros tname t Ht. exists []. by rewrite app_nil_r.
Qed.

Lemma kept_refl g : kept U g g.
Proof. by apply kept_same_store. Qed.

Lemma kept_trans g1 g2 g3 : kept U g1 g2 -> kept U g2 g3 -> kept U g1 g3.
Proof.
  intros (Hl & Hk & Hc & Hm & Hjk & Hjl & Hj & Hrows & Hother & Hd & Hi)
         (Hl' & Hk' & Hc' & Hm' & Hjk' & Hjl' & Hj' & Hrows' & Hother' & Hd' & Hi').
  unfold kept. repeat split; try congruence.
  - intros tname t Ht. destruct (Hrows tname t Ht) as [more Hmore].
    destruct (Hrows' tname _ Hmore) as [more' Hmore'].
    exists (more ++ more'). by rewrite app_assoc.
  - intros other Hne. rewrite Hother', Hother; [done | done |].
    unfold get_current_table in *. by rewrite Hk, Hc.
  - auto.
  - auto.
Qed.

Lemma kept_got_place data now g : kept U g (state_of (_got_place U data now g)).
Proof.
  pose proof (got_place_dedup U data now g) as Hd.
  pose proof (got_place_consecutive U data now g) as Hi.
  revert Hd Hi. unfold _got_place. run_method.
  destruct (maps_db g !! _) as [t|] eqn:Ht; [|intros; apply kept_refl].
  match goal with |- context [Sqlite.select_by_key t ?n ?a] =>
    destruct (Sqlite.select_by_key t n a) eqn:Hsel end; simpl.
  - destruct (PyFloat.percent _ _); simpl; intros; by apply kept_same_store.
  - assert (forall g', links g' = links g -> current_keyword g' = current_keyword g ->
              current_location g' = current_location g ->
              max_links_input g' = max_links_input g ->
              justdial_keyword g' = justdial_keyword g ->
              justdial_location g' = justdial_location g ->
              justdial_db g' = justdial_db g ->
              maps_db g' = <[normalize_table_name U (current_keyword g) (current_location g) :=
                               t ++ [maps_row t (default ∅ data) g now]]> (maps_db g) ->
              (dedup (maps_db g) -> dedup (maps_db g')) ->
              (consecutive_ids (maps_db g) -> consecutive_ids (maps_db g')) ->
              kept U g g') as Hkept.
    { intros g' ? ? ? ? ? ? ? Hdb ? ?. unfold kept. repeat split; try done.
      - intros tname t' Ht'. rewrite Hdb.
        destruct (decide (normalize_table_name U (current_keyword g) (current_location g)
                          = tname)) as [<-|Hne].
        + rewrite lookup_insert_eq. rewrite Ht in Ht'. injection Ht' as <-. by eexists.
        + rewrite lookup_insert_ne by done. exists []. by rewrite app_nil_r.
      - intros other Hne. rewrite Hdb. by rewrite lookup_insert_ne. }
    destruct data; destruct (PyFloat.percent _ _); simpl; intros; by apply Hkept.
Qed.

Lemma kept_callback host step page e g :
  kept U g (state_of (callback U host step page e g)).
Proof.
  destruct e as [| | | |url|ms act|js| |]; try apply kept_refl.
  - simpl. unfold _on_load_finished. run_method.
    destruct (load_ok host url), (_next_action g); apply kept_refl.
  - simpl. destruct act; simpl.
    + apply kept_refl.
    + unfold _process_next_link. run_method.
      destruct (length (links g) <=? links_index g)%nat; simpl.
      * by apply kept_same_store.
      * destruct (links g !! links_index g); simpl; [by apply kept_same_store | apply kept_refl].
  - destruct js; [apply kept_got_place | apply kept_refl].
Qed.

Lemma kept_outside_write host step g : kept U g (outside_write host step g).
Proof.
  unfold outside_write. destruct (flag_write host step); [by apply kept_same_store | apply kept_refl].
Qed.

Lemma kept_event_loop host fuel : forall step page queue g,
  kept U g (event_loop U host fuel step page queue g).1.1.
Proof.
  induction fuel as [|fuel IH]; intros step page queue g.
  - destruct queue; apply kept_refl.
  - destruct queue as [|e queue]; [apply kept_refl|]. simpl.
    pose proof (kept_callback host step (page_after page e) e (outside_write host step g)) as Hc.
    pose proof (kept_outside_write host step g) as Ho.
    destruct (callback U host step (page_after page e) e (outside_write host step g))
      as [[g1 out] [ex|[]]]; simpl in *.
    + by eapply kept_trans.
    + specialize (IH (S step) (page_after page e) (queue ++ pending out) g1).
      destruct (event_loop U host fuel (S step) (page_after page e) (queue ++ pending out) g1)
        as [[g2 out2] ending]. simpl in *.
      eapply kept_trans; [exact Ho|]. by eapply kept_trans.
Qed.

Lemma dedup_create_if_missing {R} `{Keyed R} (tname : pystr) (db : gmap pystr (list R)) :
  dedup db -> dedup (create_if_missing tname db).
Proof.
  intros Hdb. unfold create_if_missing. destruct (db !! tname) eqn:E; [done|].
  intros tname' t Hlook. destruct (decide (tname = tname')) as [<-|Hne].
  - rewrite lookup_insert_eq in Hlook. injection Hlook as <-. constructor.
  - rewrite lookup_insert_ne in Hlook by done. by eapply Hdb.
Qed.

Lemma consecutive_create_if_missing (tname : pystr) (db : gmap pystr (list MapsRow)) :
  consecutive_ids db -> consecutive_ids (create_if_missing tname db).
Proof.
  intros Hdb. unfold create_if_missing. destruct (db !! tname) eqn:E; [done|].
  intros tname' t Hlook. destruct (decide (tname = tname')) as [<-|Hne].
  - rewrite lookup_insert_eq in Hlook. by injection Hlook as <-.
  - rewrite lookup_insert_ne in Hlook by done. by eapply Hdb.
Qed.

Lemma kept_start_scrape sql_accepts g :
  kept U g (state_of (start_scrape U sql_accepts g)).
Proof.
  unfold start_scrape, ensure_table, _process_next_link. run_method.
  destruct (links g) as [|url rest] eqn:Hl; [apply kept_refl|].
  destruct (sql_accepts _); simpl; [|apply kept_refl].
  rewrite Hl. simpl.
  unfold kept. simpl. rewrite Hl. repeat split; try done.
  - intros tname t Ht. exists []. rewrite app_nil_r.
    unfold create_if_missing. destruct (maps_db g !! normalize_table_name U _ _) eqn:E; [done|].
    rewrite lookup_insert_ne; [done|]. intros <-. by rewrite E in Ht.
  - intros other Hne. unfold create_if_missing.
    destruct (maps_db g !! normalize_table_name U _ _) eqn:E; [done|].
    by rewrite lookup_insert_ne.
  - apply dedup_create_if_missing.
  - apply consecutive_create_if_missing.
Qed.

End Kept.

(** X10.  A Maps session, whatever the host answers and however long it is
    let run, leaves the collected links, both queries and the JustDial
    database as they were and touches no Maps table but the current one; rows
    stored before stay, in place and unchanged, with new rows only after
    them; stored pairs stay distinct and ids consecutive. *)
Theorem session_keeps_the_rest (U : UnicodeDB) (host : Host) (sql_accepts : pystr -> bool)
    (fuel : nat) (g : Gui) :
  kept U g (session U host sql_accepts fuel g).1.1.
Proof.
  unfold session.
  pose proof (kept_start_scrape U sql_accepts g) as Hs.
  destruct (start_scrape U sql_accepts g) as [[g1 out] [ex|[]]]; simpl in *; [done|].
  pose proof (kept_event_loop U host fuel 0 [] (pending out) g1) as He.
  destruct (event_loop U host fuel 0 [] (pending out) g1) as [[g2 out2] ending]. simpl in *.
  by eapply kept_trans.
Qed.

(** ** Sessions under any host *)

Section AnyHost.

Variable U : UnicodeDB.
Variable host : Host.

Ltac turn tac :=
  erewrite event_loop_step; [ | simpl; tac | reflexivity | simpl; reflexivity ];
  cbn zeta.

(** One store cycle, with the pair it looked up stored afterwards. *)
Lemma got_place_stores data now g :
  is_Some (maps_db g !! get_current_table U maps g) ->
  links g <> [] ->
  exists g3 msg t3,
    _got_place U data now g
    = (g3,
       [Log maps msg;
        SetProgress maps
          (PyFloat.percent_value (Z.of_nat (links_index g + 1)) (Z.of_nat (length (links g))));
        SingleShot 800 ProcessNextLink],
       inr tt)
    /\ links g3 = links g
    /\ links_index g3 = (links_index g + 1)%nat
    /\ current_keyword g3 = current_keyword g
    /\ current_location g3 = current_location g
    /\ _next_action g3 = _next_action g
    /\ maps_db g3 !! get_current_table U maps g = Some t3
    /\ place_key data ∈ keys t3.
Proof.
  intros [t Ht] Hl.
  destruct (got_place_ok U data now g t Ht Hl) as (db' & msg & Hgot & [t3 Ht3]).
  pose proof (place_settles U data now g) as Hs.
  rewrite Hgot in Hs. unfold settled_place, get_current_table, state_of in Hs. simpl in Hs.
  unfold get_current_table in Ht3. rewrite Ht3 in Hs.
  eexists _, msg, t3. split; [exact Hgot|]. simpl. by repeat split.
Qed.

Lemma cycle_stores fuel g step page url :
  load_ok host url = true ->
  _next_action g = Some ExtractPlace ->
  is_Some (maps_db g !! get_current_table U maps g) ->
  links g <> [] ->
  exists g3 msg t3,
    event_loop U host (S (S (S fuel))) step page [WebLoad url] g
    = (let r := event_loop U host fuel (S (S (S step))) url
                  [SingleShot 800 ProcessNextLink] g3 in
       (r.1.1,
        [SingleShot 600 ExtractPlace; RunJavaScript PlaceScript; Log maps msg;
         SetProgress maps
           (PyFloat.percent_value (Z.of_nat (links_index g + 1)) (Z.of_nat (length (links g))));
         SingleShot 800 ProcessNextLink] ++ r.1.2,
        r.2))
    /\ msg <> py "Scraping finished."
    /\ links g3 = links g
    /\ links_index g3 = (links_index g + 1)%nat
    /\ current_keyword g3 = current_keyword g
    /\ current_location g3 = current_location g
    /\ _next_action g3 = Some ExtractPlace
    /\ maps_db g3 !! get_current_table U maps g = Some t3
    /\ place_key (place_data host url) ∈ keys t3.
Proof.
  intros Hok Hact Ht Hl.
  destruct (outside_write_shape host step g) as [b0 Hb0].
  destruct (outside_write_shape host (S step) (set_scraping b0 g)) as [b1 Hb1].
  destruct (outside_write_shape host (S (S step)) (set_scraping b1 (set_scraping b0 g)))
    as [b2 Hb2].
  destruct (got_place_stores (place_data host url) (utcnow host (S (S step)))
              (set_scraping b2 (set_scraping b1 (set_scraping b0 g))))
    as (g3 & msg & t3 & Hgot & Hl3 & Hi3 & Hk3 & Hc3 & Ha3 & Ht3 & Hkey); [exact Ht | exact Hl | ].
  assert (msg <> py "Scraping finished.") as Hmsg.
  { intros ->. revert Hgot. unfold _got_place. run_method.
    destruct (maps_db g !! _); [|done].
    match goal with |- context [Sqlite.select_by_key ?t ?n ?a] =>
      destruct (Sqlite.select_by_key t n a) end; simpl;
      destruct (PyFloat.percent _ _); simpl; intros [= ? E]; discriminate E. }
  eexists g3, msg, t3. split.
  - turn ltac:(rewrite Hok, Hb0; by apply on_load_finished_ok).
    turn ltac:(rewrite Hb1; apply extract_place_runs).
    turn ltac:(rewrite Hb2; exact Hgot).
    reflexivity.
  - simpl in *. rewrite Ha3. by repeat split.
Qed.

Lemma failed_load_rests fuel g step page url :
  load_ok host url = false ->
  exists b,
    event_loop U host (S fuel) step page [WebLoad url] g = (set_scraping b g, [], Quiescent).
Proof.
  intros Hok. destruct (outside_write_shape host step g) as [b Hb]. exists b.
  turn ltac:(rewrite Hok, Hb; apply on_load_finished_failed).
  simpl. by destruct fuel.
Qed.

(** From a load in flight on, under any host: the links are visited in order
    as far as their pages load, each visited one stored; the session ends
    with the list, or rests at the first page that fails. *)
Lemma cursor_any k : forall g step page url,
  links g !! links_index g = Some url ->
  length (links g) = (links_index g + S k)%nat ->
  _next_action g = Some ExtractPlace ->
  is_Some (maps_db g !! get_current_table U maps g) ->
  let p := loads_ok host (drop (links_index g) (links g)) in
  exists g' out t',
    event_loop U host (4 * k + 4) step page [WebLoad url] g = (g', out, Quiescent)
    /\ loaded out = take p (drop (S (links_index g)) (links g))
    /\ extractions out = p
    /\ store_cycles out = p
    /\ progress_values maps out
       = (fun i => PyFloat.percent_value (Z.of_nat i) (Z.of_nat (length (links g))))
           <$> seq (S (links_index g)) p
    /\ links_index g' = (links_index g + p)%nat
    /\ (p = S k -> scraping g' = false)
    /\ _next_action g' = Some ExtractPlace
    /\ (finished out <-> p = S k)
    /\ maps_db g' !! get_current_table U maps g = Some t'
    /\ (forall j u, (links_index g <= j < links_index g + p)%nat -> links g !! j = Some u ->
          place_key (place_data host u) ∈ keys t').
Proof.
  induction k as [|k IH]; intros g step page url Hurl Hlen Hact Ht p.
  all: assert (drop (links_index g) (links g) = url :: drop (S (links_index g)) (links g))
         as Hdrop by (by apply drop_S).
  all: assert (links g <> []) as Hne by (destruct (links g); [simpl in Hlen; lia | done]).
  all: destruct (load_ok host url) eqn:Hok.
  all: try (
    (* the page fails to load *)
    assert (p = 0%nat) as -> by (subst p; rewrite Hdrop; simpl; by rewrite Hok);
    match goal with |- context [event_loop U host (4 * ?n + 4)] =>
      destruct (failed_load_rests (4 * n + 3) g step page url Hok) as [b Hrest];
      replace (4 * n + 4)%nat with (S (4 * n + 3)) by lia end; rewrite Hrest;
    destruct Ht as [t Ht]; exists (set_scraping b g), [], t;
    split; [reflexivity|]; simpl; rewrite Nat.add_0_r;
    repeat split; try done; try lia;
    intros Hin; by apply elem_of_nil in Hin).
  - (* last link, loaded *)
    assert (p = 1%nat) as Hp.
    { subst p. rewrite Hdrop. simpl. rewrite Hok.
      rewrite drop_ge by lia. done. }
    rewrite Hp.
    destruct (cycle_stores 1 g step page url Hok Hact Ht Hne)
      as (g3 & msg & t3 & Hrun & Hmsg & Hl3 & Hi3 & Hk3 & Hc3 & Ha3 & Ht3 & Hkey).
    change (4 * 0 + 4)%nat with 4%nat. rewrite Hrun. clear Hrun.
    destruct (outside_write_shape host (S (S (S step))) g3) as [b3 Hb3].
    turn ltac:(rewrite Hb3; apply process_next_link_done; simpl; rewrite Hl3, Hi3; lia).
    simpl. eexists _, _, t3. split; [reflexivity|]. simpl.
    rewrite Nat.add_1_r in *. repeat split; try done.
    + rewrite drop_ge by lia. done.
    + intros _. unfold finished, finish_line. simpl. do 1 right. left.
    + intros j u Hj Hu. assert (j = links_index g) as -> by lia.
      rewrite Hurl in Hu. by injection Hu as <-.
  - (* a link loaded, more to come *)
    destruct (cycle_stores (4 * k + 4 + 1) g step page url Hok Hact Ht Hne)
      as (g3 & msg & t3 & Hrun & Hmsg & Hl3 & Hi3 & Hk3 & Hc3 & Ha3 & Ht3 & Hkey).
    replace (4 * S k + 4)%nat with (S (S (S (4 * k + 4 + 1)))) by lia.
    rewrite Hrun. clear Hrun.
    assert (is_Some (links g !! S (links_index g))) as [url' Hurl'].
    { apply lookup_lt_is_Some. lia. }
    destruct (outside_write_shape host (S (S (S step))) g3) as [b3 Hb3].
    replace (4 * k + 4 + 1)%nat with (S (4 * k + 4)) by lia.
    turn ltac:(rewrite Hb3; apply process_next_link_load; simpl;
               rewrite Hl3, Hi3, Nat.add_1_r; exact Hurl').
    destruct (IH (set_next_action (Some ExtractPlace) (set_scraping b3 g3))
                (S (S (S (S step)))) url url')
      as (g' & out & t' & Hrun & Hloaded & Hext & Hsto & Hprog & Hi & Hs & Ha & Hfin & Ht' & Hkeys).
    + simpl. by rewrite Hl3, Hi3, Nat.add_1_r.
    + simpl. rewrite Hl3, Hi3. lia.
    + reflexivity.
    + unfold get_current_table in *. simpl. rewrite Hk3, Hc3. by eexists.
    + pose proof (kept_event_loop U host (4 * k + 4) (S (S (S (S step)))) url [WebLoad url']
                    (set_next_action (Some ExtractPlace) (set_scraping b3 g3))) as Hkept.
      rewrite Hrun in Hkept.
      destruct Hkept as (_ & _ & _ & _ & _ & _ & _ & Hrows & _).
      cbn [fst snd] in Hrows.
      simpl in Hrun. simpl. rewrite Hrun. clear Hrun.
      simpl in Hloaded, Hext, Hsto, Hprog, Hi, Hs, Ha, Hfin, Ht', Hkeys, Hrows.
      cbn [fst snd].
      rewrite Hl3, Hi3, Nat.add_1_r in *.
      set (p' := loads_ok host (drop (S (links_index g)) (links g))) in *.
      assert (p = S p') as Hp by (subst p p'; rewrite Hdrop; simpl; by rewrite Hok).
      rewrite Hp.
      unfold get_current_table in Ht', Ht3. simpl in Ht'. rewrite Hk3, Hc3 in Ht'.
      (* the rows of the cycle are still there at the end *)
      destruct (Hrows _ _ Ht3) as [more Hmore].
      rewrite Ht' in Hmore. injection Hmore as ->.
      eexists _, _, _. split; [reflexivity|].
      repeat split; try done.
      * simpl. rewrite Hloaded.
        rewrite (drop_S _ _ _ Hurl'). done.
      * simpl. by rewrite Hext.
      * simpl. by rewrite Hsto.
      * simpl. by rewrite Hprog.
      * lia.
      * intros Hq. apply Hs. lia.
      * unfold finished. simpl. intros Hin.
        apply elem_of_cons in Hin as [E|Hin]; [by destruct Hmsg|].
        apply Hfin in Hin. lia.
      * intros Hq. unfold finished. simpl. right. apply Hfin. lia.
      * intros j u Hj Hu. destruct (decide (j = links_index g)) as [->|Hnj].
        -- rewrite Hurl in Hu. injection Hu as <-.
           unfold keys. rewrite fmap_app. apply elem_of_app. by left.
        -- apply Hkeys with j; [lia | done].
Qed.

End AnyHost.

Lemma finished_app out1 out2 : finished (out1 ++ out2) <-> finished out1 \/ finished out2.
Proof. unfold finished, log_lines. rewrite omap_app. apply elem_of_app. Qed.

Lemma finished_nil : ~ finished [].
Proof. unfold finished. simpl. apply not_elem_of_nil. Qed.

Section Flag.

Variable U : UnicodeDB.
Variable host : Host.
Hypothesis quiet : forall n, flag_write host n = None.

(** A callback clears the flag when it logs the finish line and leaves it
    alone otherwise. *)
Lemma flag_callback step page e g :
  let r := callback U host step page e g in
  (finished r.1.2 -> scraping r.1.1 = false)
  /\ (~ finished r.1.2 -> scraping r.1.1 = scraping g).
Proof.
  assert (forall g' res, let r : Gui * list Effect * (exn + unit) := (g', [], res) in
            scraping g' = scraping g ->
            (finished r.1.2 -> scraping r.1.1 = false)
            /\ (~ finished r.1.2 -> scraping r.1.1 = scraping g)) as Hnone.
  { intros g' res r Hs. split; [intros Hf; by destruct finished_nil | done]. }
  destruct e as [| | | |url|ms act|js| |]; try (by apply Hnone).
  - simpl. unfold _on_load_finished. run_method.
    destruct (load_ok host url), (_next_action g); simpl; split; try done.
    all: unfold finished; simpl; intros Hf; by apply elem_of_nil in Hf.
  - simpl. destruct act; simpl.
    + unfold _extract_place. run_method. split; [|done].
      unfold finished. simpl. intros Hf. by apply elem_of_nil in Hf.
    + unfold _process_next_link. run_method.
      destruct (length (links g) <=? links_index g)%nat; simpl.
      * split; [done|]. intros Hf. destruct Hf. unfold finished. simpl. left.
      * destruct (links g !! links_index g); simpl; split; try done.
        all: unfold finished; simpl; intros Hf; by apply elem_of_nil in Hf.
  - destruct js; [|by apply Hnone]. simpl.
    unfold _got_place. run_method.
    destruct (maps_db g !! _);
      [|simpl; split; [intros Hf; by destruct finished_nil | done]].
    match goal with |- context [Sqlite.select_by_key ?t ?n ?a] =>
      destruct (Sqlite.select_by_key t n a) end; simpl;
      destruct (PyFloat.percent _ _); simpl; split; try done.
    all: unfold finished, finish_line; simpl; intros Hf.
    all: repeat (apply elem_of_cons in Hf as [Hf|Hf]; [discriminate Hf|]).
    all: by apply elem_of_nil in Hf.
Qed.

Lemma flag_event_loop fuel : forall step page queue g,
  let r := event_loop U host fuel step page queue g in
  (finished r.1.2 -> scraping r.1.1 = false)
  /\ (~ finished r.1.2 -> scraping r.1.1 = scraping g).
Proof.
  induction fuel as [|fuel IH]; intros step page queue g.
  - destruct queue; simpl; (split; [intros Hf; by destruct finished_nil | done]).
  - destruct queue as [|e queue]; [simpl; split; [intros Hf; by destruct finished_nil | done]|].
    simpl. unfold outside_write. rewrite quiet.
    pose proof (flag_callback step (page_after page e) e g) as Hc.
    destruct (callback U host step (page_after page e) e g) as [[g1 out] [ex|[]]];
      simpl in *; [done|].
    specialize (IH (S step) (page_after page e) (queue ++ pending out) g1).
    destruct (event_loop U host fuel (S step) (page_after page e) (queue ++ pending out) g1)
      as [[g2 out2] ending]. simpl in *.
    destruct Hc as [Hc1 Hc2], IH as [IH1 IH2].
    split.
    + intros Hf. destruct (decide (finished out2)) as [H2|H2]; [by apply IH1|].
      apply finished_app in Hf as [Hf|Hf]; [|done].
      rewrite IH2 by done. by apply Hc1.
    + intros Hf. rewrite IH2, Hc2; [done | |]; intros H'; apply Hf, finished_app; tauto.
Qed.

End Flag.

(** A session under any host, with the state it ends in. *)
Lemma session_any (U : UnicodeDB) (host : Host)
    (sql_accepts : pystr -> bool) (g : Gui) :
  links g <> [] ->
  sql_accepts (get_current_table U maps g) = true ->
  let n := length (links g) in
  let p := loads_ok host (links g) in
  exists g' out t',
    session U host sql_accepts (4 * n) g = (g', out, Quiescent)
    /\ loaded out = take (S p) (links g)
    /\ extractions out = p
    /\ store_cycles out = p
    /\ progress_values maps out = 0 :: (pv n <$> seq 1 p)
    /\ links_index g' = p
    /\ (finished out <-> p = n)
    /\ (p = n -> scraping g' = false)
    /\ ((forall i, flag_write host i = None) -> (p < n)%nat -> scraping g' = true)
    /\ maps_db g' !! get_current_table U maps g = Some t'
    /\ (forall u, u ∈ take p (links g) -> place_key (place_data host u) ∈ keys t')
    /\ _next_action g' = Some ExtractPlace
    /\ kept U g g'.
Proof.
  intros Hne Hsql n p. destruct (links g) as [|url rest] eqn:Hl; [done|].
  destruct (start_scrape_ok U sql_accepts g url rest Hl Hsql)
    as (g1 & Hstart & Hl1 & Hi1 & Hs1 & Ha1 & Ht1).
  pose proof (kept_start_scrape U sql_accepts g) as Hkept. rewrite Hstart in Hkept.
  pose proof (kept_event_loop U host (4 * length rest + 4) 0%nat [] [WebLoad url] g1) as Hkept2.
  pose proof Hkept as Hkept1.
  destruct Hkept as (_ & Hk1 & Hc1 & _). unfold state_of in Hk1, Hc1. simpl in Hk1, Hc1.
  assert (get_current_table U maps g1 = get_current_table U maps g) as HT
    by (unfold get_current_table; by rewrite Hk1, Hc1).
  destruct (cursor_any U host (length rest) g1 0%nat [] url)
    as (g' & out & t' & Hrun & Hloaded & Hext & Hsto & Hprog & Hi & Hs & Ha & Hfin & Ht' & Hkeys);
    [by rewrite Hl1, Hi1, Hl | rewrite Hl1, Hi1, Hl; simpl; lia | done | done |].
  pose proof (fun quiet => flag_event_loop U host quiet (4 * length rest + 4) 0%nat [] [WebLoad url] g1)
    as Hflag.
  unfold session. rewrite Hstart. simpl pending.
  replace (4 * n)%nat with (4 * length rest + 4)%nat by (subst n; simpl; lia).
  rewrite Hrun in Hflag, Hkept2 |- *. cbn [fst snd] in Hflag, Hkept2.
  unfold state_of in Hkept1. cbn [fst snd] in Hkept1.
  pose proof (kept_trans U _ _ _ Hkept1 Hkept2) as Hkept.
  clear Hkept1 Hkept2.
  rewrite Hl1, Hi1, Hl, HT in *. rewrite drop_0 in *. fold p in Hloaded, Hext, Hsto, Hprog, Hi, Hs, Hfin, Hkeys.
  exists g', ([SetProgress maps 0; WebLoad url] ++ out), t'. split; [reflexivity|].
  assert (finished ([SetProgress maps 0; WebLoad url] ++ out) <-> finished out) as Hfo.
  { rewrite finished_app. split; [intros [Hf|Hf]; [|done] | by right].
    unfold finished in Hf. simpl in Hf. by apply elem_of_nil in Hf. }
  remember (kept U g g') as K eqn:HK.
  repeat split.
  - simpl. by rewrite Hloaded.
  - done.
  - done.
  - simpl. by rewrite Hprog.
  - done.
  - intros Hf. apply Hfo, Hfin in Hf. subst n. simpl. done.
  - intros Hp. apply Hfo, Hfin. subst n. simpl in Hp. done.
  - intros Hp. apply Hs. subst n. simpl in Hp. done.
  - intros quiet Hp. destruct (Hflag quiet) as [_ Hkeep]. rewrite Hkeep, Hs1; [done|].
    intros Hf. apply Hfin in Hf. subst n. simpl in Hp. lia.
  - done.
  - intros u Hu. apply list_elem_of_lookup in Hu as [j Hj].
    apply lookup_take_Some in Hj as [Hj Hlt].
    apply Hkeys with j; [lia | done].
  - done.
  - by subst K.
Qed.

(** *** What a session stores *)

Section Stores.

Variable U : UnicodeDB.
Variable host : Host.

Ltac turn tac :=
  erewrite event_loop_step; [ | simpl; tac | reflexivity | simpl; reflexivity ];
  cbn zeta.

(** What a save does to the database depends on the database and the
    current query only. *)
Lemma got_place_db_congr data now g h :
  maps_db g = maps_db h ->
  current_keyword g = current_keyword h ->
  current_location g = current_location h ->
  maps_db (state_of (_got_place U data now g)) = maps_db (state_of (_got_place U data now h)).
Proof.
  intros Hdb Hk Hc. unfold _got_place. run_method. rewrite Hdb, Hk, Hc.
  destruct (maps_db h !! _) as [t|]; [|done].
  unfold maps_row. rewrite Hk, Hc.
  match goal with |- context [Sqlite.select_by_key t ?n ?a] =>
    destruct (Sqlite.select_by_key t n a) end; simpl;
    do 2 destruct (PyFloat.percent _ _); simpl; by rewrite ?Hdb.
Qed.

Lemma got_places_db_congr ops : forall g h,
  maps_db g = maps_db h ->
  current_keyword g = current_keyword h ->
  current_location g = current_location h ->
  maps_db (got_places U ops g) = maps_db (got_places U ops h).
Proof.
  induction ops as [|op ops IH]; intros g h Hdb Hk Hc; [done|].
  simpl. apply IH.
  - by apply got_place_db_congr.
  - destruct (kept_got_place U op.1 op.2 g) as (_ & Hkg & _).
    destruct (kept_got_place U op.1 op.2 h) as (_ & Hkh & _). congruence.
  - destruct (kept_got_place U op.1 op.2 g) as (_ & _ & Hcg & _).
    destruct (kept_got_place U op.1 op.2 h) as (_ & _ & Hch & _). congruence.
Qed.

(** One store cycle, with the database it leaves. *)
Lemma cycle_db fuel g step page url :
  load_ok host url = true ->
  _next_action g = Some ExtractPlace ->
  is_Some (maps_db g !! get_current_table U maps g) ->
  links g <> [] ->
  exists g3 out3,
    event_loop U host (S (S (S fuel))) step page [WebLoad url] g
    = (let r := event_loop U host fuel (S (S (S step))) url
                  [SingleShot 800 ProcessNextLink] g3 in
       (r.1.1, out3 ++ r.1.2, r.2))
    /\ links g3 = links g
    /\ links_index g3 = (links_index g + 1)%nat
    /\ current_keyword g3 = current_keyword g
    /\ current_location g3 = current_location g
    /\ _next_action g3 = Some ExtractPlace
    /\ is_Some (maps_db g3 !! get_current_table U maps g)
    /\ maps_db g3
       = maps_db (state_of (_got_place U (place_data host url) (utcnow host (S (S step))) g)).
Proof.
  intros Hok Hact [t Ht] Hl.
  destruct (outside_write_shape host step g) as [b0 Hb0].
  destruct (outside_write_shape host (S step) (set_scraping b0 g)) as [b1 Hb1].
  destruct (outside_write_shape host (S (S step)) (set_scraping b1 (set_scraping b0 g)))
    as [b2 Hb2].
  pose (gb := set_scraping b2 (set_scraping b1 (set_scraping b0 g))).
  destruct (got_place_ok U (place_data host url) (utcnow host (S (S step))) gb t)
    as (db' & msg & Hgot & Hdb'); [exact Ht | exact Hl | ].
  pose proof (got_place_db_congr (place_data host url) (utcnow host (S (S step))) gb g
                eq_refl eq_refl eq_refl) as Hdb.
  rewrite Hgot in Hdb. unfold state_of in Hdb at 1. simpl in Hdb.
  eexists _,
    [SingleShot 600 ExtractPlace; RunJavaScript PlaceScript; Log maps msg;
     SetProgress maps
       (PyFloat.percent_value (Z.of_nat (links_index g + 1)) (Z.of_nat (length (links g))));
     SingleShot 800 ProcessNextLink].
  split.
  - turn ltac:(rewrite Hok, Hb0; by apply on_load_finished_ok).
    turn ltac:(rewrite Hb1; apply extract_place_runs).
    turn ltac:(rewrite Hb2; exact Hgot).
    reflexivity.
  - simpl. repeat split; try done.
Qed.

Hypothesis all_load : forall url, load_ok host url = true.

Lemma loads_ok_all ls : loads_ok host ls = length ls.
Proof. induction ls as [|url ls IH]; [done|]. simpl. by rewrite all_load, IH. Qed.

(** From a load in flight on, every page loading: the database at the end
    is what the saves of the remaining links, in order, make of it. *)
Lemma cursor_db k : forall g step page url,
  links g !! links_index g = Some url ->
  length (links g) = (links_index g + S k)%nat ->
  _next_action g = Some ExtractPlace ->
  is_Some (maps_db g !! get_current_table U maps g) ->
  maps_db (event_loop U host (4 * k + 4) step page [WebLoad url] g).1.1
  = maps_db (got_places U (visits host step (drop (links_index g) (links g))) g).
Proof.
  induction k as [|k IH]; intros g step page url Hurl Hlen Hact Ht.
  all: assert (drop (links_index g) (links g) = url :: drop (S (links_index g)) (links g))
         as Hdrop by (by apply drop_S).
  all: assert (links g <> []) as Hne by (destruct (links g); [simpl in Hlen; lia | done]).
  - destruct (cycle_db 1 g step page url (all_load url) Hact Ht Hne)
      as (g3 & out3 & Hrun & Hl3 & Hi3 & Hk3 & Hc3 & Ha3 & Ht3 & Hdb3).
    change (4 * 0 + 4)%nat with 4%nat. rewrite Hrun. clear Hrun.
    destruct (outside_write_shape host (S (S (S step))) g3) as [b3 Hb3].
    turn ltac:(rewrite Hb3; apply process_next_link_done; simpl; rewrite Hl3, Hi3; lia).
    rewrite Hdrop, drop_ge by lia. simpl. exact Hdb3.
  - destruct (cycle_db (4 * k + 4 + 1) g step page url (all_load url) Hact Ht Hne)
      as (g3 & out3 & Hrun & Hl3 & Hi3 & Hk3 & Hc3 & Ha3 & Ht3 & Hdb3).
    replace (4 * S k + 4)%nat with (S (S (S (4 * k + 4 + 1)))) by lia.
    rewrite Hrun. clear Hrun.
    assert (is_Some (links g !! S (links_index g))) as [url' Hurl'].
    { apply lookup_lt_is_Some. lia. }
    destruct (outside_write_shape host (S (S (S step))) g3) as [b3 Hb3].
    replace (4 * k + 4 + 1)%nat with (S (4 * k + 4)) by lia.
    turn ltac:(rewrite Hb3; apply process_next_link_load; simpl;
               rewrite Hl3, Hi3, Nat.add_1_r; exact Hurl').
    pose (g4 := set_next_action (Some ExtractPlace) (set_scraping b3 g3)).
    pose proof (IH g4 (S (S (S (S step)))) url url') as Hrest.
    cbn [fst snd page_after]. simpl app.
    change (maps_db (event_loop U host (4 * k + 4) (S (S (S (S step)))) url [WebLoad url'] g4).1.1
            = maps_db (got_places U (visits host step (drop (links_index g) (links g))) g)).
    rewrite Hrest.
    + subst g4. simpl. rewrite Hl3, Hi3, Nat.add_1_r, Hdrop. simpl.
      apply got_places_db_congr; simpl.
      * exact Hdb3.
      * rewrite Hk3. by destruct (kept_got_place U (place_data host url)
                                    (utcnow host (S (S step))) g) as (_ & -> & _).
      * rewrite Hc3. by destruct (kept_got_place U (place_data host url)
                                    (utcnow host (S (S step))) g) as (_ & _ & -> & _).
    + subst g4. simpl. by rewrite Hl3, Hi3, Nat.add_1_r.
    + subst g4. simpl. rewrite Hl3, Hi3. lia.
    + reflexivity.
    + subst g4. unfold get_current_table in *. simpl. by rewrite Hk3, Hc3.
Qed.

(** A session all of whose pages load stores the record of each link, in
    order, in the database Start Scrape left. *)
Lemma session_db (sql_accepts : pystr -> bool) g :
  links g <> [] ->
  sql_accepts (get_current_table U maps g) = true ->
  maps_db (session U host sql_accepts (4 * length (links g)) g).1.1
  = maps_db (got_places U (visits host 0 (links g)) (state_of (start_scrape U sql_accepts g))).
Proof.
  intros Hne Hsql. destruct (links g) as [|url rest] eqn:Hl; [done|].
  destruct (start_scrape_ok U sql_accepts g url rest Hl Hsql)
    as (g1 & Hstart & Hl1 & Hi1 & Hs1 & Ha1 & Ht1).
  pose proof (cursor_db (length rest) g1 0%nat [] url) as Hdb.
  rewrite Hl1, Hi1, Hl in Hdb. rewrite drop_0 in Hdb.
  unfold session. rewrite Hstart. simpl pending. unfold state_of at 1. cbn [fst snd].
  replace (4 * length (url :: rest))%nat with (4 * length rest + 4)%nat by (simpl; lia).
  destruct (event_loop U host (4 * length rest + 4) 0 [] [WebLoad url] g1)
    as [[g2 out2] ending]. cbn [fst snd] in *.
  apply Hdb; [done | simpl; lia | done | done].
Qed.

End Stores.

(** The database Start Scrape leaves: the table of the query is there,
    created empty if it was missing. *)
Lemma start_scrape_db (U : UnicodeDB) (sql_accepts : pystr -> bool) (g : Gui) :
  links g <> [] ->
  sql_accepts (get_current_table U maps g) = true ->
  maps_db (state_of (start_scrape U sql_accepts g))
  = create_if_missing (get_current_table U maps g) (maps_db g).
Proof.
  intros Hne Hsql. destruct (links g) as [|url rest] eqn:Hl; [done|].
  unfold start_scrape, ensure_table, _process_next_link.
  unfold get_current_table in *. run_method. rewrite Hl, Hsql. simpl. rewrite Hl. by simpl.
Qed.

Lemma got_place_default (U : UnicodeDB) data now g :
  _got_place U data now g = _got_place U (Some (default ∅ data)) now g.
Proof. by destruct data. Qed.

(** Two saves of new, different pairs append two rows. *)
Lemma two_places_stored (U : UnicodeDB) (dA dB : option dict) (nA nB : pystr) (g : Gui) t0 :
  maps_db g !! get_current_table U maps g = Some t0 ->
  (place_key dA ∉ keys t0) -> (place_key dB ∉ keys t0) -> place_key dA <> place_key dB ->
  let rowA := maps_row t0 (default ∅ dA) g nA in
  let rowB := maps_row (t0 ++ [rowA]) (default ∅ dB) g nB in
  maps_db (got_places U [(dA, nA); (dB, nB)] g) !! get_current_table U maps g
  = Some (t0 ++ [rowA; rowB]).
Proof.
  intros Ht HA HB Hne rowA rowB. cbn [got_places foldl fst snd].
  pose proof (kept_got_place U dA nA g) as (_ & Hk & Hc & _).
  set (gA := state_of (_got_place U dA nA g)) in *.
  assert (get_current_table U maps gA = get_current_table U maps g) as HT
    by (unfold get_current_table; by rewrite Hk, Hc).
  assert (maps_db gA !! get_current_table U maps gA = Some (t0 ++ [rowA])) as HtA.
  { rewrite HT. subst gA. rewrite got_place_default.
    by apply (got_place_insert U (default ∅ dA) nA g t0). }
  rewrite <- HT, got_place_default.
  assert (maps_row (t0 ++ [rowA]) (default ∅ dB) gA nB = rowB) as HrowB
    by (subst rowB; unfold maps_row; by rewrite Hk, Hc).
  rewrite <- HrowB.
  replace (t0 ++ [rowA; maps_row (t0 ++ [rowA]) (default ∅ dB) gA nB])
    with ((t0 ++ [rowA]) ++ [maps_row (t0 ++ [rowA]) (default ∅ dB) gA nB])
    by (by rewrite <- app_assoc).
  apply (got_place_insert U (default ∅ dB) nB gA (t0 ++ [rowA]) HtA).
  unfold keys. rewrite fmap_app. intros Hin. apply elem_of_app in Hin as [Hin|Hin]; [done|].
  apply list_elem_of_singleton in Hin. by destruct Hne.
Qed.

(** C3.  With the links A, B, C returned by the page and a cap of 2, the
    window keeps A and B.  The session that follows, every page loading, comes
    to rest after loading A and then B and nothing else, with two extractions
    and two store cycles, and sets the progress bar to 50 and then to 100
    after the reset to 0 that Start Scrape makes.  The store cycles are those
    of A and of B: the database at the end is what saving the record of A's
    page and then that of B's page makes of the database Start Scrape left;
    the pairs of both are in the query's table, and when they are new to it
    and differ the table has gained exactly their two rows, A's first. *)
Theorem sequential_cap_two (U : UnicodeDB) (host : Host) (sql_accepts : pystr -> bool)
    (g : Gui) (A B C : pystr) :
  (forall url, load_ok host url = true) ->
  max_links_input g = 2 ->
  sql_accepts (get_current_table U maps g) = true ->
  let g1 := state_of (_got_links (Some [A; B; C]) g) in
  let tname := get_current_table U maps g in
  let t0 := default [] (maps_db g !! tname) in
  let rowA := maps_row t0 (default ∅ (place_data host A)) g (utcnow host 2) in
  let rowB := maps_row (t0 ++ [rowA]) (default ∅ (place_data host B)) g (utcnow host 6) in
  links g1 = [A; B]
  /\ links_index g1 = 0%nat
  /\ exists g' out,
       session U host sql_accepts 8 g1 = (g', out, Quiescent)
       /\ loaded out = [A; B]
       /\ extractions out = 2%nat
       /\ store_cycles out = 2%nat
       /\ progress_values maps out = [0; 50; 100]
       /\ links_index g' = 2%nat
       /\ scraping g' = false
       /\ maps_db g'
          = maps_db (got_places U [(place_data host A, utcnow host 2);
                                   (place_data host B, utcnow host 6)]
                       (state_of (start_scrape U sql_accepts g1)))
       /\ (exists t', maps_db g' !! tname = Some t'
                      /\ place_key (place_data host A) ∈ keys t'
                      /\ place_key (place_data host B) ∈ keys t')
       /\ ((place_key (place_data host A) ∉ keys t0) ->
           (place_key (place_data host B) ∉ keys t0) ->
           place_key (place_data host A) <> place_key (place_data host B) ->
           maps_db g' !! tname = Some (t0 ++ [rowA; rowB])).
Proof.
  intros Hload Hmax Hsql g1 tname t0 rowA rowB.
  assert (links g1 = [A; B]) as Hl.
  { subst g1. unfold _got_links. run_method. by rewrite Hmax. }
  assert (maps_db g1 = maps_db g /\ current_keyword g1 = current_keyword g
          /\ current_location g1 = current_location g) as (Hdb1 & Hk1 & Hc1)
    by (by subst g1; unfold _got_links; run_method).
  assert (get_current_table U maps g1 = tname) as HT1
    by (subst tname; unfold get_current_table; by rewrite Hk1, Hc1).
  split; [exact Hl|]. split; [by subst g1; unfold _got_links; run_method|].
  assert (links g1 <> []) as Hne by (by rewrite Hl).
  assert (sql_accepts (get_current_table U maps g1) = true) as Hsql1 by (by rewrite HT1).
  destruct (session_any U host sql_accepts g1 Hne Hsql1)
    as (g' & out & t' & Hrun & Hloaded & Hext & Hsto & Hprog & Hi & _ & Hs & _ & Ht' & Hkeys & _).
  pose proof (session_db U host Hload sql_accepts g1 Hne Hsql1) as Hdb.
  rewrite (loads_ok_all host Hload) in *. rewrite Hl, HT1 in *.
  cbn [length Nat.mul Nat.add] in Hrun, Hdb. rewrite Hrun in Hdb.
  cbn [fst snd visits Nat.add] in Hdb.
  exists g', out. split; [exact Hrun|].
  split; [exact Hloaded|]. split; [exact Hext|]. split; [exact Hsto|].
  split; [exact Hprog|]. split; [exact Hi|]. split; [by apply Hs|].
  split; [exact Hdb|]. split.
  - exists t'. split; [exact Ht'|]. split; apply Hkeys; simpl; [left | right; left].
  - intros HA HB Hne'. rewrite Hdb.
    set (gs := state_of (start_scrape U sql_accepts g1)) in *.
    pose proof (kept_start_scrape U sql_accepts g1) as (_ & Hks & Hcs & _). fold gs in Hks, Hcs.
    assert (get_current_table U maps gs = tname) as HTs
      by (rewrite <- HT1; unfold get_current_table; by rewrite Hks, Hcs).
    assert (maps_db gs !! get_current_table U maps gs = Some t0) as Hts.
    { rewrite HTs. subst gs. rewrite start_scrape_db; [ | by rewrite Hl | by rewrite HT1 ].
      rewrite HT1, create_if_missing_lookup, decide_True by done. by rewrite Hdb1. }
    pose proof (two_places_stored U (place_data host A) (place_data host B)
                  (utcnow host 2) (utcnow host 6) gs t0 Hts HA HB Hne') as Hrows.
    cbv zeta in Hrows. rewrite HTs in Hrows. rewrite Hrows.
    unfold rowA, rowB, maps_row. by rewrite Hks, Hcs, Hk1, Hc1.
Qed.

Lemma sequential_cap_two_witness :
  let g1 := state_of (_got_links (Some [py "A"; py "B"; py "C"]) idle_window) in
  let rowA := maps_row [] (default ∅ (place_data good_host (py "A"))) idle_window
                (utcnow good_host 2) in
  let rowB := maps_row [rowA] (default ∅ (place_data good_host (py "B"))) idle_window
                (utcnow good_host 6) in
  links g1 = [py "A"; py "B"]
  /\ links_index g1 = 0%nat
  /\ exists g' out,
       session basic_latin_db good_host any_table 8 g1 = (g', out, Quiescent)
       /\ loaded out = [py "A"; py "B"]
       /\ extractions out = 2%nat
       /\ store_cycles out = 2%nat
       /\ progress_values maps out = [0; 50; 100]
       /\ links_index g' = 2%nat
       /\ scraping g' = false
       /\ maps_db g'
          = maps_db (got_places basic_latin_db
                       [(place_data good_host (py "A"), utcnow good_host 2);
                        (place_data good_host (py "B"), utcnow good_host 6)]
                       (state_of (start_scrape basic_latin_db any_table g1)))
       /\ (exists t', maps_db g' !! py "cafes_pune" = Some t'
                      /\ place_key (place_data good_host (py "A")) ∈ keys t'
                      /\ place_key (place_data good_host (py "B")) ∈ keys t')
       /\ ((place_key (place_data good_host (py "A")) ∉ keys ([] : list MapsRow)) ->
           (place_key (place_data good_host (py "B")) ∉ keys ([] : list MapsRow)) ->
           place_key (place_data good_host (py "A")) <> place_key (place_data good_host (py "B")) ->
           maps_db g' !! py "cafes_pune" = Some [rowA; rowB]).
Proof.
  apply (sequential_cap_two basic_latin_db good_host any_table idle_window
           (py "A") (py "B") (py "C")); reflexivity.
Defined.

(** X11.  A session under any host.  Start Scrape on a non-empty list visits
    the links in order for as long as their pages load and then comes to rest:
    the pages asked for are the links up to and including the first one that
    fails, each page that loaded is extracted and stored once and moves the
    bar, and the pair of each is in the table at the end.  The finish line is
    logged exactly when every page loaded; the flag is then cleared, and
    otherwise, nothing else writing it, still set. *)
Theorem session_stops_at_first_failed_load (U : UnicodeDB) (host : Host)
    (sql_accepts : pystr -> bool) (g : Gui) :
  links g <> [] ->
  sql_accepts (get_current_table U maps g) = true ->
  let n := length (links g) in
  let p := loads_ok host (links g) in
  exists g' out t',
    session U host sql_accepts (4 * n) g = (g', out, Quiescent)
    /\ loaded out = take (S p) (links g)
    /\ extractions out = p
    /\ store_cycles out = p
    /\ progress_values maps out = 0 :: (pv n <$> seq 1 p)
    /\ links_index g' = p
    /\ (finished out <-> p = n)
    /\ (p = n -> scraping g' = false)
    /\ ((forall i, flag_write host i = None) -> (p < n)%nat -> scraping g' = true)
    /\ maps_db g' !! get_current_table U maps g = Some t'
    /\ (forall u, u ∈ take p (links g) -> place_key (place_data host u) ∈ keys t').
Proof.
  intros Hne Hsql n p.
  destruct (session_any U host sql_accepts g Hne Hsql)
    as (g' & out & t' & Hrun & Hloaded & Hext & Hsto & Hprog & Hi & Hfin & Hs & Hq & Ht' & Hkeys & _).
  exists g', out, t'. repeat split; try done; by apply Hfin.
Qed.

Lemma session_stops_at_first_failed_load_witness :
  exists g' out t',
    session basic_latin_db second_page_fails any_table 12 window_ABC = (g', out, Quiescent)
    /\ loaded out = [py "A"; py "B"]
    /\ extractions out = 1%nat
    /\ store_cycles out = 1%nat
    /\ progress_values maps out = [0; 33]
    /\ links_index g' = 1%nat
    /\ (finished out <-> 1%nat = 3%nat)
    /\ (1%nat = 3%nat -> scraping g' = false)
    /\ ((forall i, flag_write second_page_fails i = None) -> (1 < 3)%nat -> scraping g' = true)
    /\ maps_db g' !! py "cafes_pune" = Some t'
    /\ (forall u, u ∈ [py "A"] -> place_key (place_data second_page_fails u) ∈ keys t').
Proof.
  apply (session_stops_at_first_failed_load basic_latin_db second_page_fails any_table
           window_ABC); [done | reflexivity].
Defined.

Lemma past_end_ok_spec : forall n m,
  past_end_ok m n = true ->
  forall i, (m <= i < m + n)%nat ->
    100 <= pv i (S i) /\ (100 < pv i (S i) <-> (i <= 100)%nat).
Proof.
  induction n as [|n IH]; intros m H i Hi; [lia|].
  cbn [past_end_ok] in H. apply andb_true_iff in H as [H Hrest].
  apply andb_true_iff in H as [Hge Heq].
  destruct (decide (i = m)) as [->|Hne]; [|apply (IH (S m) Hrest); lia].
  apply Z.leb_le in Hge. apply Bool.eqb_prop in Heq. split; [done|].
  rewrite <- Z.ltb_lt, Heq. apply Nat.leb_le.
Qed.

Lemma past_end_200 : past_end_ok 1 200 = true.
Proof. vm_compute. reflexivity. Qed.

(** X12.  The action a session loads its pages with outlives the session.
    Once every link has been visited, the next page that loads in the Maps
    view, whatever it is, is extracted and stored as one more place: the
    cursor moves past the end of the list, the bar is asked for a value above
    100 if the list has at most 100 links and for 100 otherwise, and the
    finish line is logged again. *)
Theorem load_after_session_scrapes_again (U : UnicodeDB) (host : Host)
    (sql_accepts : pystr -> bool) (g : Gui) (step : nat) (page url : pystr) :
  links g <> [] ->
  (length (links g) <= 200)%nat ->
  sql_accepts (get_current_table U maps g) = true ->
  loads_ok host (links g) = length (links g) ->
  load_ok host url = true ->
  let n := length (links g) in
  let g1 := (session U host sql_accepts (4 * n) g).1.1 in
  exists g2 out t,
    event_loop U host 4 step page [WebLoad url] g1 = (g2, out, Quiescent)
    /\ extractions out = 1%nat
    /\ store_cycles out = 1%nat
    /\ progress_values maps out = [pv n (S n)]
    /\ 100 <= pv n (S n)
    /\ (100 < pv n (S n) <-> (n <= 100)%nat)
    /\ finished out
    /\ links_index g2 = S n
    /\ scraping g2 = false
    /\ maps_db g2 !! get_current_table U maps g = Some t
    /\ place_key (place_data host url) ∈ keys t.
Proof.
  intros Hne Hcap Hsql Hall Hok n g1.
  destruct (session_any U host sql_accepts g Hne Hsql)
    as (g' & out & t' & Hrun & _ & _ & _ & _ & Hi & _ & _ & _ & Ht' & _ & Ha & Hkept).
  destruct Hkept as (Hl & Hk & Hc & _).
  subst g1. fold n in Hrun. rewrite Hrun. cbn [fst snd].
  rewrite Hall in Hi.
  assert (get_current_table U maps g' = get_current_table U maps g) as HT
    by (unfold get_current_table; by rewrite Hk, Hc).
  destruct (cycle_stores U host 1 g' step page url Hok Ha)
    as (g3 & msg & t3 & Hcyc & Hmsg & Hl3 & Hi3 & Hk3 & Hc3 & Ha3 & Ht3 & Hkey);
    [rewrite HT; by eexists | by rewrite Hl |].
  rewrite Hcyc. clear Hcyc.
  destruct (outside_write_shape host (S (S (S step))) g3) as [b3 Hb3].
  erewrite event_loop_step;
    [ | simpl; rewrite Hb3; apply process_next_link_done; simpl; rewrite Hl3, Hi3, Hl, Hi; lia
      | reflexivity | simpl; reflexivity ].
  cbn zeta. simpl.
  rewrite HT in Ht3. rewrite Hl, Hi, Nat.add_1_r. fold n.
  eexists _, _, t3. split; [reflexivity|]. simpl.
  assert (1 <= n < 1 + 200)%nat as Hn
    by (subst n; destruct (links g); [done | simpl in *; lia]).
  destruct (past_end_ok_spec 200 1 past_end_200 n Hn) as [Hge Hover].
  repeat split; try done; try apply Hover.
  - unfold finished, finish_line. simpl. right. left.
  - rewrite Hi3, Hi. lia.
Qed.

Lemma load_after_session_scrapes_again_witness :
  let g1 := (session basic_latin_db good_host any_table 8 window_AB).1.1 in
  exists g2 out t,
    event_loop basic_latin_db good_host 4 8 (py "B") [WebLoad (py "C")] g1 = (g2, out, Quiescent)
    /\ extractions out = 1%nat
    /\ store_cycles out = 1%nat
    /\ progress_values maps out = [150]
    /\ 100 <= 150
    /\ (100 < 150 <-> (2 <= 100)%nat)
    /\ finished out
    /\ links_index g2 = 3%nat
    /\ scraping g2 = false
    /\ maps_db g2 !! py "cafes_pune" = Some t
    /\ place_key (place_data good_host (py "C")) ∈ keys t.
Proof.
  apply (load_after_session_scrapes_again basic_latin_db good_host any_table window_AB
           8 (py "B") (py "C")); [done | simpl; lia | reflexivity | reflexivity | reflexivity].
Defined.

(** ** The search URL *)

Lemma lor_byte (a b : N) : (a < 256)%N -> (b < 256)%N -> (N.lor a b < 256)%N.
Proof.
  intros Ha Hb.
  destruct (N.eq_dec (N.lor a b) 0%N) as [->|Hne]; [lia|].
  apply N.log2_lt_pow2 with (b := 8%N); [lia|].
  rewrite N.log2_lor.
  destruct (N.eq_dec a 0%N) as [->|Ha0], (N.eq_dec b 0%N) as [->|Hb0]; simpl; try lia.
  - apply N.max_lub_lt; [simpl; lia|]. apply N.log2_lt_pow2; simpl; lia.
  - apply N.max_lub_lt; [|simpl; lia]. apply N.log2_lt_pow2; simpl; lia.
  - apply N.max_lub_lt; apply N.log2_lt_pow2; simpl; lia.
Qed.

Lemma land_3f (a : N) : (N.land a 0x3f < 256)%N.
Proof.
  change 0x3f%N with (N.ones 6). rewrite N.land_ones.
  pose proof (N.mod_upper_bound a (2 ^ 6)%N ltac:(simpl; lia)). simpl in *. lia.
Qed.

Lemma shiftr_bound (a n m : N) : (a < 2 ^ (n + m))%N -> (N.shiftr a n < 2 ^ m)%N.
Proof.
  intros H. rewrite N.shiftr_div_pow2.
  apply N.Div0.div_lt_upper_bound. by rewrite <- N.pow_add_r.
Qed.

Lemma utf8_char_bytes ch bs :
  (ch < 0x110000)%N -> Urllib.utf8_char ch = Some bs -> Forall (fun b => (b < 256)%N) bs.
Proof.
  intros Hch. unfold Urllib.utf8_char.
  destruct (N.ltb_spec ch 0x80%N); [intros [= <-]; repeat constructor; lia|].
  destruct (N.ltb_spec ch 0x800%N).
  { intros [= <-]. repeat constructor; apply lor_byte; try lia; try apply land_3f.
    pose proof (shiftr_bound ch 6%N 5%N ltac:(simpl; lia)). simpl in *. lia. }
  destruct ((0xd800 <=? ch) && (ch <=? 0xdfff))%N; [done|].
  destruct (N.ltb_spec ch 0x10000%N).
  { intros [= <-]. repeat constructor; apply lor_byte; try lia; try apply land_3f.
    pose proof (shiftr_bound ch 12%N 4%N ltac:(simpl; lia)). simpl in *. lia. }
  intros [= <-]. repeat constructor; apply lor_byte; try lia; try apply land_3f.
  pose proof (shiftr_bound ch 18%N 3%N ltac:(simpl; lia)). simpl in *. lia.
Qed.

Lemma utf8_bytes s : forall bs,
  is_str s -> Urllib.utf8 s = Some bs -> Forall (fun b => (b < 256)%N) bs.
Proof.
  induction s as [|ch s IH]; intros bs Hs; simpl; [by intros [= <-]|].
  apply Forall_cons in Hs as [Hch Hs].
  destruct (Urllib.utf8_char ch) as [b1|] eqn:H1; [|done].
  destruct (Urllib.utf8 s) as [b2|]; [|done]. intros [= <-].
  apply Forall_app. split; [by eapply utf8_char_bytes | by apply IH].
Qed.

Lemma utf8_defined s :
  Urllib.utf8 s = None <-> Exists (fun c => surrogate c = true) s.
Proof.
  induction s as [|ch s IH]; simpl.
  - split; [done | intros H; by apply Exists_nil in H].
  - rewrite Exists_cons, <- IH. unfold Urllib.utf8_char, surrogate.
    destruct (ch <? 0x80)%N eqn:H1.
    { apply N.ltb_lt in H1.
      assert ((0xd800 <=? ch)%N = false) as -> by (apply N.leb_gt; lia). simpl.
      destruct (Urllib.utf8 s); intuition congruence. }
    destruct (ch <? 0x800)%N eqn:H2.
    { apply N.ltb_lt in H2.
      assert ((0xd800 <=? ch)%N = false) as -> by (apply N.leb_gt; lia). simpl.
      destruct (Urllib.utf8 s); intuition congruence. }
    destruct ((0xd800 <=? ch) && (ch <=? 0xdfff))%N; [split; [by left | done]|].
    destruct (ch <? 0x10000)%N;
      destruct (Urllib.utf8 s); intuition congruence.
Qed.

Lemma hex_digit_safe d : (d < 16)%N -> Urllib.always_safe (Urllib.hex_digit d) = true.
Proof.
  intros Hd. assert (d ∈ N.of_nat <$> seq 0 16) as Hin.
  { apply list_elem_of_fmap. exists (N.to_nat d). split; [lia|]. apply elem_of_seq. lia. }
  simpl in Hin. repeat (apply elem_of_cons in Hin as [->|Hin]; [reflexivity|]).
  by apply elem_of_nil in Hin.
Qed.

Lemma quoter_chars b :
  (b < 256)%N ->
  Forall (fun c => quoted_char c = true)
    ((fun c => if (c =? 32)%N then 43%N else c) <$> Urllib.quoter true b)
  /\ Forall (fun c => quoted_char c = true) (Urllib.quoter false b).
Proof.
  intros Hb. unfold Urllib.quoter.
  assert (Urllib.always_safe (Urllib.hex_digit (b / 16)%N) = true) as Hhi.
  { apply hex_digit_safe. apply N.Div0.div_lt_upper_bound. lia. }
  assert (Urllib.always_safe (Urllib.hex_digit (b mod 16)%N) = true) as Hlo.
  { apply hex_digit_safe. apply N.mod_upper_bound. lia. }
  assert (forall c, Urllib.always_safe c = true ->
            quoted_char (if (c =? 32)%N then 43%N else c) = true) as Hsafe.
  { intros c Hc. destruct (c =? 32)%N; [done|]. unfold quoted_char. by rewrite Hc. }
  destruct (Urllib.always_safe b) eqn:Hs; simpl;
    [|destruct (N.eqb_spec b 32%N) as [->|Hne]; simpl];
    split; try done;
    repeat constructor; try (by apply Hsafe);
    unfold quoted_char; by rewrite ?Hs, ?Hhi, ?Hlo.
Qed.

Lemma quote_plus_chars s q :
  is_str s -> Urllib.quote_plus s = Some q -> Forall (fun c => quoted_char c = true) q.
Proof.
  intros Hs. unfold Urllib.quote_plus, Urllib.quote.
  destruct (Urllib.utf8 s) as [bs|] eqn:Hbs; [|by destruct (Urllib.has_space s)].
  pose proof (utf8_bytes s bs Hs Hbs) as Hbytes. clear Hbs.
  destruct (Urllib.has_space s); intros [= <-].
  - induction Hbytes as [|b bs Hb _ IH]; [constructor|].
    cbn [mbind list_bind]. change (foldr _ _ _) with (Urllib.quoter true b ++ (bs ≫= Urllib.quoter true)).
    rewrite fmap_app. apply Forall_app. split; [by apply quoter_chars | exact IH].
  - induction Hbytes as [|b bs Hb _ IH]; [constructor|].
    change (Forall (λ c, quoted_char c = true) (Urllib.quoter false b ++ (bs ≫= Urllib.quoter false))).
    apply Forall_app. split; [by apply quoter_chars | exact IH].
Qed.

Lemma quote_plus_defined s :
  Urllib.quote_plus s = None <-> Exists (fun c => surrogate c = true) s.
Proof.
  rewrite <- utf8_defined. unfold Urllib.quote_plus, Urllib.quote.
  destruct (Urllib.has_space s), (Urllib.utf8 s); split; done.
Qed.

(** X13.  [load_maps] turns down an empty keyword or location with a warning
    and leaves the window as it is.  Otherwise it makes the typed query the
    current one and touches nothing else: the links collected for the query
    before, the cursor and the pending action stay.  If the query holds a
    surrogate, building the URL raises after that, and nothing is loaded or
    logged; if not, the search page is loaded from an address under
    [https://www.google.com/maps/search/] made of letters, digits and
    [_ . - ~ % + : /] only. *)
Theorem load_maps_checks (k l : pystr) (g : Gui) :
  is_str k -> is_str l ->
  let warned :=
    (g, [MessageWarning (py "Missing Input") (py "Enter both keyword and location.")], inr tt) in
  let r := load_maps k l g in
  load_maps [] l g = warned
  /\ load_maps k [] g = warned
  /\ (k <> [] -> l <> [] ->
      r.1.1 = set_maps_query k l g
      /\ if existsb surrogate (k ++ l)
         then r.1.2 = [] /\ exists s, r.2 = inl (SurrogatesNotAllowed s)
         else exists url,
                r.1.2 = [WebLoad url; Log maps (py "Loaded Maps for " ++ k ++ py " in " ++ l)]
                /\ r.2 = inr tt
                /\ take 35 url = py "https://www.google.com/maps/search/"
                /\ Forall (fun c => url_char c = true) url).
Proof.
  intros Hk Hl warned r. split; [done|]. split; [by destruct k|].
  intros Hk0 Hl0. subst r. unfold load_maps.
  destruct k as [|k0 k']; [done|]. destruct l as [|l0 l']; [done|].
  cbn [PageScript.is_empty orb].
  destruct (existsb surrogate ((k0 :: k') ++ l0 :: l')) eqn:Hsur.
  - apply existsb_exists in Hsur as (c & Hc & Hs).
    apply in_app_or in Hc.
    destruct (Urllib.quote_plus (k0 :: k')) as [qk|] eqn:Hqk; [|by eauto].
    destruct (Urllib.quote_plus (l0 :: l')) as [ql|] eqn:Hql; [|by eauto].
    exfalso. destruct Hc as [Hc|Hc].
    + assert (Urllib.quote_plus (k0 :: k') = None) as E; [|by rewrite E in Hqk].
      apply quote_plus_defined, Exists_exists. exists c. split; [by apply list_elem_of_In|done].
    + assert (Urllib.quote_plus (l0 :: l') = None) as E; [|by rewrite E in Hql].
      apply quote_plus_defined, Exists_exists. exists c. split; [by apply list_elem_of_In|done].
  - assert (forall s, (forall c, In c s -> In c ((k0 :: k') ++ l0 :: l')) ->
              is_Some (Urllib.quote_plus s)) as Hdef.
    { intros s Hs. destruct (Urllib.quote_plus s) eqn:Hq; [by eexists|].
      apply quote_plus_defined, Exists_exists in Hq as (c & Hc & Hsc).
      assert (existsb surrogate ((k0 :: k') ++ l0 :: l') = true) as E; [|by rewrite E in Hsur].
      apply existsb_exists. exists c. split; [|done]. by apply Hs, list_elem_of_In. }
    destruct (Hdef (k0 :: k')) as [qk Hqk]; [intros c Hc; apply in_or_app; by left|].
    destruct (Hdef (l0 :: l')) as [ql Hql]; [intros c Hc; apply in_or_app; by right|].
    rewrite Hqk, Hql. split; [done|]. eexists. split; [done|]. split; [done|]. split; [done|].
    assert (forall q, Forall (fun c => quoted_char c = true) q ->
              Forall (fun c => url_char c = true) q) as Hup.
    { intros q Hq. eapply Forall_impl; [exact Hq|]. intros c Hc. unfold url_char. by rewrite Hc. }
    repeat (apply Forall_app; split).
    + repeat constructor.
    + by apply Hup, (quote_plus_chars (k0 :: k')).
    + repeat constructor.
    + by apply Hup, (quote_plus_chars (l0 :: l')).
Qed.

Lemma load_maps_checks_witness :
  let warned :=
    (idle_window,
     [MessageWarning (py "Missing Input") (py "Enter both keyword and location.")], inr tt) in
  let r := load_maps (py "Cafes") (py "New Delhi") idle_window in
  load_maps [] (py "New Delhi") idle_window = warned
  /\ load_maps (py "Cafes") [] idle_window = warned
  /\ (py "Cafes" <> [] -> py "New Delhi" <> [] ->
      r.1.1 = set_maps_query (py "Cafes") (py "New Delhi") idle_window
      /\ exists url,
           r.1.2 = [WebLoad url; Log maps (py "Loaded Maps for Cafes in New Delhi")]
           /\ r.2 = inr tt
           /\ take 35 url = py "https://www.google.com/maps/search/"
           /\ Forall (fun c => url_char c = true) url).
Proof.
  apply (load_maps_checks (py "Cafes") (py "New Delhi") idle_window);
    unfold is_str; apply (bool_decide_unpack _); reflexivity.
Defined.

Lemma got_place_missing (U : UnicodeDB) data now g :
  maps_db g !! get_current_table U maps g = None ->
  _got_place U data now g = (g, [], inl (OperationalError (get_current_table U maps g))).
Proof.
  intros H. unfold _got_place. run_method. unfold get_current_table in H. by rewrite H.
Qed.

(** X14.  Load Maps after a session that visited every link.  The search
    page it loads sets off the action the session left behind, so the search
    page is extracted as if it were a place.  If the new query has no table
    yet, storing it raises [OperationalError] inside the callback; if it has
    one, the search page is stored there as one more place, the cursor moves
    past the end of the list and the finish line is logged again. *)
Theorem load_maps_after_session (U : UnicodeDB) (host : Host) (sql_accepts : pystr -> bool)
    (g g2 : Gui) (k l url : pystr) (line : Effect) (step : nat) (page : pystr) :
  links g <> [] ->
  sql_accepts (get_current_table U maps g) = true ->
  loads_ok host (links g) = length (links g) ->
  load_maps k l (session U host sql_accepts (4 * length (links g)) g).1.1
  = (g2, [WebLoad url; line], inr tt) ->
  load_ok host url = true ->
  let tname := normalize_table_name U k l in
  let r := event_loop U host 4 step page [WebLoad url] g2 in
  match maps_db g2 !! tname with
  | None =>
      r.1.2 = [SingleShot 600 ExtractPlace; RunJavaScript PlaceScript]
      /\ r.2 = Crashed (OperationalError tname)
  | Some _ =>
      r.2 = Quiescent
      /\ extractions r.1.2 = 1%nat
      /\ store_cycles r.1.2 = 1%nat
      /\ finished r.1.2
      /\ links_index r.1.1 = S (length (links g))
      /\ exists t, maps_db r.1.1 !! tname = Some t /\ place_key (place_data host url) ∈ keys t
  end.
Proof.
  intros Hne Hsql Hall Hload Hok tname r.
  destruct (session_any U host sql_accepts g Hne Hsql)
    as (g1 & out & t' & Hrun & _ & _ & _ & _ & Hi & _ & _ & _ & _ & _ & Ha & Hkept).
  destruct Hkept as (Hl & _).
  cbv zeta in Hrun. rewrite Hrun in Hload. cbn [fst snd] in Hload. rewrite Hall in Hi.
  assert (g2 = set_maps_query k l g1) as ->.
  { revert Hload. unfold load_maps.
    destruct (PageScript.is_empty k || PageScript.is_empty l); [intros [= ? ?]; discriminate|].
    destruct (Urllib.quote_plus k); [|intros [= ? ?]; discriminate].
    destruct (Urllib.quote_plus l); [|intros [= ? ?]; discriminate].
    by intros [= <- _ _]. }
  clear Hload.
  assert (get_current_table U maps (set_maps_query k l g1) = tname) as HT by done.
  assert (links (set_maps_query k l g1) <> []) as Hne2 by (simpl; by rewrite Hl).
  subst r. destruct (maps_db (set_maps_query k l g1) !! tname) as [t|] eqn:Ht.
  - destruct (cycle_stores U host 1 (set_maps_query k l g1) step page url Hok Ha)
      as (g3 & msg & t3 & Hcyc & Hmsg & Hl3 & Hi3 & Hk3 & Hc3 & Ha3 & Ht3 & Hkey);
      [rewrite HT, Ht; by eexists | done |].
    rewrite Hcyc. clear Hcyc.
    destruct (outside_write_shape host (S (S (S step))) g3) as [b3 Hb3].
    erewrite event_loop_step;
      [ | simpl; rewrite Hb3; apply process_next_link_done; simpl; rewrite Hl3, Hi3; simpl;
          rewrite Hl, Hi; lia
        | reflexivity | simpl; reflexivity ].
    cbn zeta. simpl. rewrite HT in Ht3. simpl in Hi3.
    repeat split; try done.
    + unfold finished, finish_line. simpl. right. left.
    + rewrite Hi3, Hi. lia.
    + by exists t3.
  - destruct (outside_write_shape host step (set_maps_query k l g1)) as [b0 Hb0].
    destruct (outside_write_shape host (S step) (set_scraping b0 (set_maps_query k l g1)))
      as [b1 Hb1].
    destruct (outside_write_shape host (S (S step))
                (set_scraping b1 (set_scraping b0 (set_maps_query k l g1)))) as [b2 Hb2].
    erewrite event_loop_step;
      [ | simpl; rewrite Hok, Hb0; by apply on_load_finished_ok
        | reflexivity | simpl; reflexivity ].
    cbn zeta.
    erewrite event_loop_step;
      [ | simpl; rewrite Hb1; apply extract_place_runs | reflexivity | simpl; reflexivity ].
    cbn zeta.
    cbn [event_loop page_after callback]. rewrite Hb2.
    rewrite got_place_missing by (simpl; exact Ht).
    simpl. done.
Qed.

Lemma load_maps_after_session_witness :
  let r := event_loop basic_latin_db good_host 4 8 (py "B")
             [WebLoad (py "https://www.google.com/maps/search/Bars+in+Pune")]
             (set_maps_query (py "Bars") (py "Pune")
                (session basic_latin_db good_host any_table 8 window_AB).1.1) in
  r.1.2 = [SingleShot 600 ExtractPlace; RunJavaScript PlaceScript]
  /\ r.2 = Crashed (OperationalError (py "bars_pune")).
Proof.
  apply (load_maps_after_session basic_latin_db good_host any_table window_AB
           (set_maps_query (py "Bars") (py "Pune")
              (session basic_latin_db good_host any_table 8 window_AB).1.1)
           (py "Bars") (py "Pune") (py "https://www.google.com/maps/search/Bars+in+Pune")
           (Log maps (py "Loaded Maps for Bars in Pune")) 8 (py "B"));
    [done | reflexivity | reflexivity | reflexivity | reflexivity].
Defined.

(** ** The viewer *)

Lemma insert_desc_least r t :
  Forall (fun r' => m_id r < m_id r') t -> insert_desc r t = t ++ [r].
Proof.
  induction 1 as [|r' t Hr' _ IH]; [done|]. simpl.
  destruct (Z.ltb_spec (m_id r') (m_id r)); [lia|]. by rewrite IH.
Qed.

Lemma order_by_id_desc_consecutive (t : list MapsRow) : forall start,
  m_id <$> t = Z.of_nat <$> seq start (length t) ->
  order_by_id_desc t = reverse t
  /\ Forall (fun r => Z.of_nat start <= m_id r) t.
Proof.
  induction t as [|r t IH]; intros start H; [split; [done | constructor]|].
  simpl in H. injection H as Hr Ht.
  destruct (IH (S start) Ht) as [Hs Hall].
  split.
  - unfold order_by_id_desc in *. simpl. rewrite Hs, reverse_cons.
    apply insert_desc_least, Forall_reverse.
    eapply Forall_impl; [exact Hall|]. intros r'. simpl. lia.
  - constructor; [lia|]. eapply Forall_impl; [exact Hall|]. intros r'. simpl. lia.
Qed.

(** X15.  The viewer on a Maps table lists the places newest first: with the
    ids the saves hand out, the rows shown are the stored rows in reverse
    order of insertion, under the eight column names.  With no table selected
    nothing is shown, and a name that is no table of the database raises
    [OperationalError]. *)
Theorem viewer_lists_newest_first (tname : pystr) (g : Gui) :
  consecutive_ids (maps_db g) ->
  load_selected_table [] g = inr None
  /\ (tname <> [] ->
      load_selected_table tname g
      = match maps_db g !! tname with
        | None => inl (OperationalError tname)
        | Some t => inr (Some (maps_columns, reverse (maps_cells <$> t)))
        end).
Proof.
  intros Hids. split; [done|]. intros Hne. unfold load_selected_table.
  destruct tname as [|c tname]; [done|]. cbn [PageScript.is_empty].
  destruct (maps_db g !! (c :: tname)) as [t|] eqn:Ht; [|done].
  destruct (order_by_id_desc_consecutive t 1 (Hids _ _ Ht)) as [-> _].
  by rewrite fmap_reverse.
Qed.

Lemma viewer_lists_newest_first_witness :
  load_selected_table [] stocked_window = inr None
  /\ (py "cafes_pune" <> [] ->
      load_selected_table (py "cafes_pune") stocked_window
      = inr (Some (maps_columns,
                   [[py "1"; py "Joe's Cafe"; py "MG Road"; []; []; py "Cafes"; py "Pune";
                     py "2024-01-01T00:00:00"]]))).
Proof.
  apply (viewer_lists_newest_first (py "cafes_pune") stocked_window).
  intros tname t Hlook. unfold stocked_window in Hlook. cbn [maps_db set_maps_db] in Hlook.
  apply lookup_singleton_Some in Hlook as [_ <-]. reflexivity.
Defined.
